(** * LearnHub backend: a shallow embedding of [main.py] and its properties

    The handlers of [main.py] are embedded as functions over an explicit
    document store.  Python values keep their shape: text is a [string] of
    bytes, integers are [Z], floats are the rationals that binary64 can
    hold, documents are records and collections are lists in insertion
    order. *)

From Stdlib Require Import ZArith QArith Lia Ascii String.
From Stdlib Require Qcanon.
From stdpp Require Import base option list strings gmap sorting.

Local Open Scope Z_scope.

(** ** Python floats

    A float is represented by the rational it denotes.  Every operation
    computes the exact result and rounds it to binary64 (53 significant
    bits, ties to even, gradual underflow).  Overflow to infinity is not
    modelled: the program only divides a count times 100 by a count. *)
Module PyFloat.

(** Integer nearest to [n/d], ties to the even neighbour ([0 < d]). *)
Definition rne_div (n d : Z) : Z :=
  let q := n / d in
  let r := n mod d in
  if 2 * r <? d then q
  else if d <? 2 * r then q + 1
  else if Z.even q then q else q + 1.

(** [floor (log2 (a/d))] for [0 < a], [0 < d]. *)
Definition ilog2_ratio (a d : Z) : Z :=
  let k := Z.log2 a - Z.log2 d in
  if 0 <=? k
  then (if d * 2 ^ k <=? a then k else k - 1)
  else (if d <=? a * 2 ^ (- k) then k else k - 1).

(** The binary64 value nearest to the rational [x]. *)
Definition binary64 (x : Q) : Q :=
  let n := Qnum x in
  let d := Zpos (Qden x) in
  if n =? 0 then 0%Q
  else
    let a := Z.abs n in
    let e := Z.max (ilog2_ratio a d - 52) (-1074) in
    let m := if 0 <=? e then rne_div a (d * 2 ^ e)
             else rne_div (a * 2 ^ (- e)) d in
    let v := if 0 <=? e then inject_Z (m * 2 ^ e)
             else Qred (Qmake m (Z.to_pos (2 ^ (- e)))) in
    if n <? 0 then Qopp v else v.

(** [float(z)] for a Python int. *)
Definition of_int (z : Z) : Q := binary64 (inject_Z z).

Definition fmul (x y : Q) : Q := binary64 (Qmult x y).
Definition fdiv (x y : Q) : Q := binary64 (Qdiv x y).

(** The float written as the decimal literal [h/100], e.g. [33.33]. *)
Definition centi (h : Z) : Q := binary64 (Qmake h 100).

(** [round(x, 2)]: the exact value of [x] is rounded to the nearest
    multiple of 1/100 (ties to even), and that decimal is read back as a
    float. *)
Definition round2 (x : Q) : Q :=
  let y := Qmult x (inject_Z 100) in
  centi (rne_div (Qnum y) (Zpos (Qden y))).

(** [x >= t] for a float [x] and a Python int [t] (exact comparison). *)
Definition ge_int (x : Q) (t : Z) : bool := Qle_bool (inject_Z t) x.

(** [round(n * 100.0 / total, 2)] for Python ints [n] and [total]: both
    are converted to float, the product and the quotient are rounded. *)
Definition percent_of (n total : Z) : Q :=
  round2 (fdiv (fmul (of_int n) (inject_Z 100)) (of_int total)).

End PyFloat.


(** ** Python strings

    Text is a [string] of bytes (its UTF-8 encoding, so [.encode()] is the
    identity).  Case mapping and whitespace are those of ASCII; bytes of
    non-ASCII characters are left alone. *)
Module PyStr.

Definition is_upper_ascii (a : ascii) : bool :=
  let n := N_of_ascii a in ((65 <=? n) && (n <=? 90))%N.

Definition is_lower_ascii (a : ascii) : bool :=
  let n := N_of_ascii a in ((97 <=? n) && (n <=? 122))%N.

Definition lower_ascii (a : ascii) : ascii :=
  if is_upper_ascii a then ascii_of_N (N_of_ascii a + 32) else a.

Definition upper_ascii (a : ascii) : ascii :=
  if is_lower_ascii a then ascii_of_N (N_of_ascii a - 32) else a.

(** Whitespace removed by [str.strip()]: tab, LF, VT, FF, CR, the four
    separators FS GS RS US, and space. *)
Definition is_space (a : ascii) : bool :=
  let n := N_of_ascii a in
  (((9 <=? n) && (n <=? 13)) || ((28 <=? n) && (n <=? 32)))%N.

Fixpoint smap (f : ascii -> ascii) (s : string) : string :=
  match s with
  | EmptyString => EmptyString
  | String a s' => String (f a) (smap f s')
  end.

(** [s.lower()] and [s.upper()], as they act on ASCII text.  Bytes above
    127 are left as they are, where Python changes the case of non-ASCII
    letters too and sends a few of them to ASCII ones; what is stated of
    [upper] on a text that is not a fixed one is stated of ASCII text. *)
Definition lower (s : string) : string := smap lower_ascii s.
Definition upper (s : string) : string := smap upper_ascii s.

Fixpoint all_chars (P : ascii -> bool) (s : string) : bool :=
  match s with
  | EmptyString => true
  | String a s' => P a && all_chars P s'
  end.

(** [s.lstrip()], [s.rstrip()], [s.strip()] *)
Fixpoint lstrip (s : string) : string :=
  match s with
  | EmptyString => EmptyString
  | String a s' => if is_space a then lstrip s' else s
  end.

Fixpoint rstrip (s : string) : string :=
  match s with
  | EmptyString => EmptyString
  | String a s' =>
      match rstrip s' with
      | EmptyString => if is_space a then EmptyString else String a EmptyString
      | t => String a t
      end
  end.

Definition strip (s : string) : string := rstrip (lstrip s).

(** [s.startswith(p)] *)
Fixpoint startswith (p s : string) : bool :=
  match p, s with
  | EmptyString, _ => true
  | String a p', String b s' => if Ascii.eqb a b then startswith p' s' else false
  | String _ _, EmptyString => false
  end.

(** [k in s]: [k] occurs as a substring of [s]. *)
Fixpoint contains (k s : string) : bool :=
  startswith k s ||
  match s with
  | EmptyString => false
  | String _ s' => contains k s'
  end.

(** [s.split(c)] for a one-character separator: never empty. *)
Fixpoint split (c : ascii) (s : string) : list string :=
  match s with
  | EmptyString => [EmptyString]
  | String a s' =>
      if Ascii.eqb a c then EmptyString :: split c s'
      else match split c s' with
           | h :: t => String a h :: t
           | [] => [String a EmptyString]
           end
  end.

(** [s.split(c, 1)]: cut at the first separator only. *)
Fixpoint split1 (c : ascii) (s : string) : list string :=
  match s with
  | EmptyString => [EmptyString]
  | String a s' =>
      if Ascii.eqb a c then [EmptyString; s']
      else match split1 c s' with
           | h :: t => String a h :: t
           | [] => [String a EmptyString]
           end
  end.

(** [s[:n]] *)
Fixpoint take (n : nat) (s : string) : string :=
  match n, s with
  | S n', String a s' => String a (take n' s')
  | _, _ => EmptyString
  end.

(** [sep.join(parts)] *)
Fixpoint join (sep : string) (parts : list string) : string :=
  match parts with
  | [] => EmptyString
  | [p] => p
  | p :: rest => p +:+ sep +:+ join sep rest
  end.

Definition hex_digit (d : Z) : ascii :=
  match d with
  | 0 => "0" | 1 => "1" | 2 => "2" | 3 => "3" | 4 => "4" | 5 => "5"
  | 6 => "6" | 7 => "7" | 8 => "8" | 9 => "9" | 10 => "a" | 11 => "b"
  | 12 => "c" | 13 => "d" | 14 => "e" | _ => "f"
  end%char.

(** The [w] low hexadecimal digits of [z], most significant first, in
    lower case (as [bytes.hex()], [uuid.hex] and [hexdigest()] print). *)
Fixpoint hex_of (w : nat) (z : Z) : string :=
  match w with
  | O => EmptyString
  | S w' => hex_of w' (z / 16) +:+ String (hex_digit (z mod 16)) EmptyString
  end.

Definition is_hex_lower (a : ascii) : bool :=
  let n := N_of_ascii a in
  (((48 <=? n) && (n <=? 57)) || ((97 <=? n) && (n <=? 102)))%N.

Definition is_hex_upper (a : ascii) : bool :=
  let n := N_of_ascii a in
  (((48 <=? n) && (n <=? 57)) || ((65 <=? n) && (n <=? 70)))%N.

Definition is_hex (a : ascii) : bool := is_hex_lower a || is_hex_upper a.

Definition bytes_of (s : string) : list Z :=
  map (fun a => Z.of_N (N_of_ascii a)) (list_ascii_of_string s).

End PyStr.


(** ** SHA-256 ([hashlib.sha256], FIPS 180-4)

    Words are integers in [[0, 2^32)]; the message is a list of bytes. *)
Module Sha256.

Definition w32 (x : Z) : Z := x mod 2 ^ 32.

Definition rotr (n x : Z) : Z :=
  Z.lor (Z.shiftr x n) (w32 (Z.shiftl x (32 - n))).

Definition Ch (x y z : Z) : Z :=
  Z.lxor (Z.land x y) (Z.land (Z.lnot x) z).

Definition Maj (x y z : Z) : Z :=
  Z.lxor (Z.lxor (Z.land x y) (Z.land x z)) (Z.land y z).

Definition Sigma0 (x : Z) : Z :=
  Z.lxor (Z.lxor (rotr 2 x) (rotr 13 x)) (rotr 22 x).
Definition Sigma1 (x : Z) : Z :=
  Z.lxor (Z.lxor (rotr 6 x) (rotr 11 x)) (rotr 25 x).
Definition sigma0 (x : Z) : Z :=
  Z.lxor (Z.lxor (rotr 7 x) (rotr 18 x)) (Z.shiftr x 3).
Definition sigma1 (x : Z) : Z :=
  Z.lxor (Z.lxor (rotr 17 x) (rotr 19 x)) (Z.shiftr x 10).

Definition K256 : list Z :=
  [
1116352408; 1899447441; 3049323471; 3921009573; 961987163; 1508970993;
   2453635748; 2870763221; 3624381080; 310598401; 607225278; 1426881987;
   1925078388; 2162078206; 2614888103; 3248222580; 3835390401; 4022224774;
   264347078; 604807628; 770255983; 1249150122; 1555081692; 1996064986;
   2554220882; 2821834349; 2952996808; 3210313671; 3336571891; 3584528711;
   113926993; 338241895; 666307205; 773529912; 1294757372; 1396182291;
   1695183700; 1986661051; 2177026350; 2456956037; 2730485921; 2820302411;
   3259730800; 3345764771; 3516065817; 3600352804; 4094571909; 275423344;
   430227734; 506948616; 659060556; 883997877; 958139571; 1322822218;
   1537002063; 1747873779; 1955562222; 2024104815; 2227730452; 2361852424;
   2428436474; 2756734187; 3204031479; 3329325298].

(** The working variables [a .. h], also the running hash value. *)
Record regs := Regs {
  ra : Z; rb : Z; rc : Z; rd : Z; re : Z; rf : Z; rg : Z; rh : Z
}.

Definition H_init : regs :=
  Regs 1779033703 3144134277 1013904242 2773480762
       1359893119 2600822924 528734635 1541459225.

(** Padding: a 1 bit, zeros up to 56 mod 64, the bit length on 8 bytes. *)
Definition be_bytes (n : nat) (z : Z) : list Z :=
  map (fun i => (z / 256 ^ Z.of_nat (n - 1 - i)) mod 256) (seq 0 n).

Definition pad (msg : list Z) : list Z :=
  let len := Z.of_nat (length msg) in
  let zeros := Z.to_nat ((55 - len) mod 64) in
  msg ++ [128] ++ replicate zeros 0 ++ be_bytes 8 (8 * len).

Fixpoint words_of (fuel : nat) (bs : list Z) : list Z :=
  match fuel, bs with
  | S fuel', b0 :: b1 :: b2 :: b3 :: rest =>
      (((b0 * 256 + b1) * 256 + b2) * 256 + b3) :: words_of fuel' rest
  | _, _ => []
  end.

(** The message schedule, most recent word first. *)
Fixpoint schedule (n : nat) (w : list Z) : list Z :=
  match n with
  | O => w
  | S n' =>
      let x := w32 (sigma1 (nth 1 w 0) + nth 6 w 0
                    + sigma0 (nth 14 w 0) + nth 15 w 0) in
      schedule n' (x :: w)
  end.

Definition round (r : regs) (kw : Z * Z) : regs :=
  let t1 := w32 (rh r + Sigma1 (re r) + Ch (re r) (rf r) (rg r)
                 + fst kw + snd kw) in
  let t2 := w32 (Sigma0 (ra r) + Maj (ra r) (rb r) (rc r)) in
  Regs (w32 (t1 + t2)) (ra r) (rb r) (rc r)
       (w32 (rd r + t1)) (re r) (rf r) (rg r).

Definition add_regs (x y : regs) : regs :=
  Regs (w32 (ra x + ra y)) (w32 (rb x + rb y)) (w32 (rc x + rc y))
       (w32 (rd x + rd y)) (w32 (re x + re y)) (w32 (rf x + rf y))
       (w32 (rg x + rg y)) (w32 (rh x + rh y)).

(** One 16-word block. *)
Definition compress (h : regs) (block : list Z) : regs :=
  let w := rev (schedule 48 (rev block)) in
  add_regs h (fold_left round (combine K256 w) h).

Fixpoint blocks (fuel : nat) (h : regs) (ws : list Z) : regs :=
  match fuel, ws with
  | S fuel', _ :: _ => blocks fuel' (compress h (firstn 16 ws)) (skipn 16 ws)
  | _, _ => h
  end.

Definition digest_regs (msg : list Z) : regs :=
  let bs := pad msg in
  let ws := words_of (length bs) bs in
  blocks (length ws) H_init ws.

(** The digest as a 256-bit number, big-endian. *)
Definition regs_num (r : regs) : Z :=
  ((((((ra r * 2 ^ 32 + rb r) * 2 ^ 32 + rc r) * 2 ^ 32 + rd r) * 2 ^ 32
      + re r) * 2 ^ 32 + rf r) * 2 ^ 32 + rg r) * 2 ^ 32 + rh r.

Definition digest_num (msg : list Z) : Z := regs_num (digest_regs msg).

(** [hashlib.sha256(s.encode()).hexdigest()] *)
Definition hexdigest (s : string) : string :=
  PyStr.hex_of 64 (digest_num (PyStr.bytes_of s)).

End Sha256.


(** ** Values, errors and documents *)

(** A JSON value held in a field typed [Any]. *)
#[local] Unset Elimination Schemes.
Inductive pyval :=
| PNone
| PBool (b : bool)
| PInt (z : Z)
| PFloat (x : Q)
| PStr (s : string)
| PList (l : list pyval).
#[local] Set Elimination Schemes.

(** [isinstance(v, int)]: [bool] is a subclass of [int]. *)
Definition isinstance_int (v : pyval) : bool :=
  match v with
  | PBool _ | PInt _ => true
  | _ => false
  end.

(** [v == a] for a stored int [a]; [True == 1] and [False == 0]. *)
Definition eq_int (v : pyval) (a : Z) : bool :=
  match v with
  | PBool b => Z.b2z b =? a
  | PInt z => z =? a
  | PFloat x => Qeq_bool x (inject_Z a)
  | _ => false
  end.

(** [d.get(k)] *)
Definition dict_get (d : gmap string pyval) (k : string) : pyval :=
  default PNone (d !! k).

(** A handler returns a value or raises [HTTPException(status, detail)]. *)
Inductive result (A : Type) :=
| Ok (a : A)
| Err (status_code : Z) (detail : string).
Arguments Ok {A} a.
Arguments Err {A} status_code detail.

(** An [ObjectId] is held as its 24 lower-case hexadecimal digits, which
    is also what [str] prints. *)
Definition ObjectId := string.

Record User := {
  user__id : ObjectId;
  user_name : string;
  user_email : string;
  user_password_hash : string;
  user_is_active : bool
}.

Record Token := {
  token : string;
  token_user_id : ObjectId;
  token_created_at : Z;
  expires_at : option Z
}.

Record Lecture := {
  lecture_id : string;
  lecture_title : string;
  lecture_url : string;
  lecture_duration : Z;
  lecture_chapter : string
}.

Record Question := {
  question_id : string;
  question_text : string;
  question_choices : list string;
  question_answer : Z
}.

Record Quiz := {
  quiz_id : string;
  quiz_title : string;
  questions : list Question
}.

Record Course := {
  course__id : ObjectId;
  course_title : string;
  playlist : list Lecture;
  quizzes : list Quiz;
  certificate_threshold : option Z
}.

Record LectureProgress := {
  lp__id : ObjectId;
  lp_user_id : string;
  lp_course_id : string;
  lp_lecture_id : string;
  watched_seconds : Z;
  completed : bool;
  lp_created_at : Z;
  lp_updated_at : Z
}.

(** The summary row; the default built by [get_course_progress] has no
    [_id] and no timestamps. *)
Record CourseProgress := {
  cp__id : option ObjectId;
  cp_user_id : string;
  cp_course_id : string;
  completed_lecture_ids : list string;
  percentage : Q;
  cp_created_at : option Z;
  cp_updated_at : option Z
}.

Record QuizResult := {
  qr__id : ObjectId;
  qr_user_id : string;
  qr_course_id : string;
  qr_quiz_id : string;
  score_percent : Q;
  qr_answers : gmap string pyval;
  passed : bool;
  qr_created_at : Z;
  qr_updated_at : Z
}.

Record Certificate := {
  cert__id : ObjectId;
  cert_user_id : string;
  cert_course_id : string;
  cert_quiz_id : string;
  cert_score_percent : Q;
  certificate_code : string;
  issued_at : Z;
  cert_created_at : Z;
  cert_updated_at : Z
}.

Record Reference := {
  ref_lecture_id : string;
  ref_title : string;
  suggested_timestamp : Z
}.

Record ChatLog := {
  log__id : ObjectId;
  log_user_id : string;
  log_course_id : option string;
  log_prompt : string;
  log_response : string;
  log_refs : list Reference;
  log_created_at : Z
}.

(** The collections of [db], each in insertion order, and the counter
    from which the store draws the [_id] of an inserted document. *)
Record Store := {
  db_user : list User;
  db_tokens : list Token;
  db_course : list Course;
  db_lectureprogress : list LectureProgress;
  db_courseprogress : list CourseProgress;
  db_quizresult : list QuizResult;
  db_certificate : list Certificate;
  db_chatlog : list ChatLog;
  next_id : Z
}.

Definition set_lectureprogress (l : list LectureProgress) (n : Z) (st : Store) : Store :=
  {| db_user := db_user st; db_tokens := db_tokens st; db_course := db_course st;
     db_lectureprogress := l; db_courseprogress := db_courseprogress st;
     db_quizresult := db_quizresult st; db_certificate := db_certificate st;
     db_chatlog := db_chatlog st; next_id := n |}.

Definition set_courseprogress (l : list CourseProgress) (n : Z) (st : Store) : Store :=
  {| db_user := db_user st; db_tokens := db_tokens st; db_course := db_course st;
     db_lectureprogress := db_lectureprogress st; db_courseprogress := l;
     db_quizresult := db_quizresult st; db_certificate := db_certificate st;
     db_chatlog := db_chatlog st; next_id := n |}.

Definition set_quizresult (l : list QuizResult) (n : Z) (st : Store) : Store :=
  {| db_user := db_user st; db_tokens := db_tokens st; db_course := db_course st;
     db_lectureprogress := db_lectureprogress st;
     db_courseprogress := db_courseprogress st;
     db_quizresult := l; db_certificate := db_certificate st;
     db_chatlog := db_chatlog st; next_id := n |}.

Definition set_certificate (l : list Certificate) (n : Z) (st : Store) : Store :=
  {| db_user := db_user st; db_tokens := db_tokens st; db_course := db_course st;
     db_lectureprogress := db_lectureprogress st;
     db_courseprogress := db_courseprogress st;
     db_quizresult := db_quizresult st; db_certificate := l;
     db_chatlog := db_chatlog st; next_id := n |}.

Definition set_chatlog (l : list ChatLog) (n : Z) (st : Store) : Store :=
  {| db_user := db_user st; db_tokens := db_tokens st; db_course := db_course st;
     db_lectureprogress := db_lectureprogress st;
     db_courseprogress := db_courseprogress st;
     db_quizresult := db_quizresult st; db_certificate := db_certificate st;
     db_chatlog := l; next_id := n |}.

(** ** Collection primitives *)
Section Collection.
Context {A : Type} (P : A -> Prop) `{!forall x, Decision (P x)}.

(** [find_one(filter)]: the first match, if any. *)
Definition find_one (l : list A) : option A := snd <$> list_find P l.

(** [find(filter)]: every match, in the collection's order. *)
Definition find (l : list A) : list A := filter P l.

(** [update_one(filter, update, upsert=True)]: the first match is
    updated; with no match the document [ins] is inserted. *)
Fixpoint update_one (upd : A -> A) (ins : A) (l : list A) : list A :=
  match l with
  | [] => [ins]
  | x :: l' =>
      if decide (P x) then upd x :: l' else x :: update_one upd ins l'
  end.

End Collection.

(** The [_id] the store gives to the next inserted document. *)
Definition fresh_id (st : Store) : ObjectId := PyStr.hex_of 24 (next_id st).

(** ** Handlers: state and exceptions *)
Definition M (A : Type) : Type := Store -> Store * result A.

#[global] Instance M_ret : MRet M := fun A a st => (st, Ok a).

#[global] Instance M_bind : MBind M := fun A B k m st =>
  match m st with
  | (st', Ok a) => k a st'
  | (st', Err c d) => (st', Err c d)
  end.

Definition raise {A} (status_code : Z) (detail : string) : M A :=
  fun st => (st, Err status_code detail).

Definition gets {A} (f : Store -> A) : M A := fun st => (st, Ok (f st)).

(** [oid]: a string of 24 hexadecimal digits parses to an [ObjectId];
    anything else is a 400.  The driver refuses every string that is not
    24 characters long and every string with a character that is neither
    a hexadecimal digit nor ASCII white space; it lets through the
    24-character strings that have white space between pairs of digits,
    which stand for no id of 12 bytes and are not covered here.  A
    statement that relies on an id being refused is made for the strings
    the driver refuses, [refused_oid] below. *)
Definition valid_oid (id_str : string) : bool :=
  (String.length id_str =? 24)%nat && PyStr.all_chars PyStr.is_hex id_str.

Definition oid (id_str : string) : M ObjectId :=
  if valid_oid id_str then mret (PyStr.lower id_str)
  else raise 400 "Invalid id".

(** ** Auth *)

Definition token_key (tk : string) (t : Token) : Prop := token t = tk.
Definition user_key (i : ObjectId) (u : User) : Prop := user__id u = i.
Definition course_key (o : ObjectId) (c : Course) : Prop := course__id c = o.
Definition quiz_key (qid : string) (q : Quiz) : Prop := quiz_id q = qid.

#[global] Instance token_key_dec tk t : Decision (token_key tk t).
Proof. unfold token_key. apply _. Defined.

#[global] Instance user_key_dec i u : Decision (user_key i u).
Proof. unfold user_key. apply _. Defined.

#[global] Instance course_key_dec o c : Decision (course_key o c).
Proof. unfold course_key. apply _. Defined.

#[global] Instance quiz_key_dec qid q : Decision (quiz_key qid q).
Proof. unfold quiz_key. apply _. Defined.

(** [require_auth(authorization)] at the instant [now] ([now_utc()]).
    Datetimes are instants on one time line, in microseconds. *)
Definition require_auth (authorization : option string) (now : Z) : M User :=
  match authorization with
  | None => raise 401 "Missing bearer token"
  | Some a =>
      if String.eqb a EmptyString
         || negb (PyStr.startswith "bearer " (PyStr.lower a))
      then raise 401 "Missing bearer token"
      else
        let tk := nth 1 (PyStr.split1 " " a) EmptyString in
        tok ← gets (fun st => find_one (token_key tk) (db_tokens st));
        match tok with
        | None => raise 401 "Invalid token"
        | Some tok =>
            if match expires_at tok with
               | Some e => e <? now
               | None => false
               end
            then raise 401 "Token expired"
            else
              user ← gets (fun st =>
                find_one (user_key (token_user_id tok)) (db_user st));
              match user with
              | None => raise 401 "User not found"
              | Some user => mret user
              end
        end
  end.

(** [secrets.token_hex(n)]: [2n] hexadecimal digits of the random bytes,
    given here as the number [rnd] they spell. *)
Definition token_hex (n : nat) (rnd : Z) : string := PyStr.hex_of (2 * n) rnd.

Definition hash_password (rnd : Z) (password : string) : string :=
  let salt := token_hex 8 rnd in
  let digest := Sha256.hexdigest (salt +:+ password) in
  salt +:+ "$" +:+ digest.

Definition verify_password (password password_hash : string) : bool :=
  match PyStr.split "$" password_hash with
  | [salt; digest] => String.eqb (Sha256.hexdigest (salt +:+ password)) digest
  | _ => false
  end.

(** ** Courses and progress *)

Definition find_course (o : ObjectId) : M (option Course) :=
  gets (fun st => find_one (course_key o) (db_course st)).

(** The filters of the progress queries. *)
Definition lp_key (u c l : string) (r : LectureProgress) : Prop :=
  lp_user_id r = u ∧ lp_course_id r = c ∧ lp_lecture_id r = l.

Definition lp_of (u c : string) (r : LectureProgress) : Prop :=
  lp_user_id r = u ∧ lp_course_id r = c.

Definition lp_done (u c : string) (r : LectureProgress) : Prop :=
  lp_user_id r = u ∧ lp_course_id r = c ∧ completed r = true.

Definition cp_key (u c : string) (p : CourseProgress) : Prop :=
  cp_user_id p = u ∧ cp_course_id p = c.

#[global] Instance lp_key_dec u c l r : Decision (lp_key u c l r).
Proof. unfold lp_key. apply _. Defined.

#[global] Instance lp_of_dec u c r : Decision (lp_of u c r).
Proof. unfold lp_of. apply _. Defined.

#[global] Instance lp_done_dec u c r : Decision (lp_done u c r).
Proof. unfold lp_done. apply _. Defined.

#[global] Instance cp_key_dec u c p : Decision (cp_key u c p).
Proof. unfold cp_key. apply _. Defined.

Record ProgressView := {
  view_course : string;
  view_course_progress : CourseProgress;
  view_lectures : list LectureProgress
}.

Definition get_course_progress (course_id : string) (user : User) : M ProgressView :=
  prog ← gets (fun st =>
    find_one (cp_key (user__id user) course_id) (db_courseprogress st));
  let prog :=
    match prog with
    | Some p => p
    | None =>
        {| cp__id := None; cp_user_id := user__id user; cp_course_id := course_id;
           completed_lecture_ids := []; percentage := 0%Q;
           cp_created_at := None; cp_updated_at := None |}
    end in
  lectures ← gets (fun st =>
    find (lp_of (user__id user) course_id) (db_lectureprogress st));
  mret {| view_course := course_id; view_course_progress := prog;
          view_lectures := lectures |}.

Record ProgressUpdate := {
  pu_lecture_id : string;
  pu_watched_seconds : Z;
  pu_completed : bool;
  pu_bookmark : option Z
}.

Record ProgressResponse := {
  pr_ok : bool;
  pr_percentage : Q;
  pr_completed : list string
}.

Definition lp_set (update : ProgressUpdate) (now : Z) (r : LectureProgress) : LectureProgress :=
  {| lp__id := lp__id r; lp_user_id := lp_user_id r; lp_course_id := lp_course_id r;
     lp_lecture_id := lp_lecture_id r;
     watched_seconds := pu_watched_seconds update; completed := pu_completed update;
     lp_created_at := lp_created_at r; lp_updated_at := now |}.

Definition lp_new (i : ObjectId) (u c : string) (update : ProgressUpdate) (now : Z) : LectureProgress :=
  {| lp__id := i; lp_user_id := u; lp_course_id := c;
     lp_lecture_id := pu_lecture_id update;
     watched_seconds := pu_watched_seconds update; completed := pu_completed update;
     lp_created_at := now; lp_updated_at := now |}.

(** The upsert of the per-lecture row. *)
Definition upsert_lecture (u c : string) (update : ProgressUpdate) (now : Z) : M unit :=
  fun st =>
    let rows := db_lectureprogress st in
    let key := lp_key u c (pu_lecture_id update) in
    let n := match find_one key rows with
             | Some _ => next_id st
             | None => next_id st + 1
             end in
    (set_lectureprogress
       (update_one key (lp_set update now) (lp_new (fresh_id st) u c update now) rows)
       n st, Ok ()).

Definition cp_set (ids : list string) (percent : Q) (now : Z) (p : CourseProgress) : CourseProgress :=
  {| cp__id := cp__id p; cp_user_id := cp_user_id p; cp_course_id := cp_course_id p;
     completed_lecture_ids := ids; percentage := percent;
     cp_created_at := cp_created_at p; cp_updated_at := Some now |}.

Definition cp_new (i : ObjectId) (u c : string) (ids : list string) (percent : Q) (now : Z) : CourseProgress :=
  {| cp__id := Some i; cp_user_id := u; cp_course_id := c;
     completed_lecture_ids := ids; percentage := percent;
     cp_created_at := Some now; cp_updated_at := Some now |}.

(** The upsert of the summary row. *)
Definition upsert_summary (u c : string) (ids : list string) (percent : Q) (now : Z) : M unit :=
  fun st =>
    let rows := db_courseprogress st in
    let n := match find_one (cp_key u c) rows with
             | Some _ => next_id st
             | None => next_id st + 1
             end in
    (set_courseprogress
       (update_one (cp_key u c) (cp_set ids percent now)
                   (cp_new (fresh_id st) u c ids percent now) rows)
       n st, Ok ()).

(** [len(xs) or 1] *)
Definition len_or_1 {A} (xs : list A) : Z :=
  let n := Z.of_nat (length xs) in if n =? 0 then 1 else n.

Definition update_lecture_progress (course_id : string) (update : ProgressUpdate)
    (user : User) (now : Z) : M ProgressResponse :=
  upsert_lecture (user__id user) course_id update now;;
  o ← oid course_id;
  course ← find_course o;
  match course with
  | None => raise 404 "Course not found"
  | Some course =>
      let total_lectures := len_or_1 (playlist course) in
      rows ← gets (fun st =>
        find (lp_done (user__id user) course_id) (db_lectureprogress st));
      let completed_ids := lp_lecture_id <$> rows in
      let percent :=
        PyFloat.percent_of (Z.of_nat (length completed_ids)) total_lectures in
      upsert_summary (user__id user) course_id completed_ids percent now;;
      mret {| pr_ok := true; pr_percentage := percent; pr_completed := completed_ids |}
  end.

(** ** Quizzes and certificates *)

Record QuizSubmission := {
  sub_course_id : string;
  sub_quiz_id : string;
  sub_answers : gmap string pyval
}.

(** The mapping returned for a certificate: [insert_one] adds [_id] to the
    document it is given, so the mapping built from [cert_doc] carries the
    inserted document whole, next to [id]. *)
Record CertificateView := {
  cv_id : string;
  cv_doc : Certificate
}.

Record QuizResponse := {
  qz_result_id : string;
  qz_score : Q;
  qz_passed : bool;
  qz_certificate : option CertificateView
}.

(** The test of the scoring loop on one question. *)
Definition answer_counts (answers : gmap string pyval) (q : Question) : bool :=
  let ans_index := dict_get answers (question_id q) in
  isinstance_int ans_index && eq_int ans_index (question_answer q).

(** The scoring loop: [correct] after the [for]. *)
Definition count_correct (answers : gmap string pyval) (qs : list Question) : Z :=
  fold_left (fun correct q => if answer_counts answers q then correct + 1 else correct)
            qs 0.

(** [uuid4().hex[:8].upper()] prefixed, for the 128-bit number [uuid]. *)
Definition certificate_code_of (uuid : Z) : string :=
  "LH-" +:+ PyStr.upper (PyStr.take 8 (PyStr.hex_of 32 uuid)).

Definition insert_quizresult (mk : ObjectId -> QuizResult) : M ObjectId :=
  fun st =>
    let i := fresh_id st in
    (set_quizresult (db_quizresult st ++ [mk i]) (next_id st + 1) st, Ok i).

Definition insert_certificate (mk : ObjectId -> Certificate) : M ObjectId :=
  fun st =>
    let i := fresh_id st in
    (set_certificate (db_certificate st ++ [mk i]) (next_id st + 1) st, Ok i).

Definition submit_quiz (sub : QuizSubmission) (user : User) (now uuid : Z) : M QuizResponse :=
  o ← oid (sub_course_id sub);
  course ← find_course o;
  match course with
  | None => raise 404 "Course not found"
  | Some course =>
      match find_one (quiz_key (sub_quiz_id sub)) (quizzes course) with
      | None => raise 404 "Quiz not found"
      | Some quiz =>
          let total := len_or_1 (questions quiz) in
          let correct := count_correct (sub_answers sub) (questions quiz) in
          let score := PyFloat.percent_of correct total in
          let passed :=
            PyFloat.ge_int score (default 70 (certificate_threshold course)) in
          res ← insert_quizresult (fun i =>
            {| qr__id := i; qr_user_id := user__id user;
               qr_course_id := sub_course_id sub; qr_quiz_id := sub_quiz_id sub;
               score_percent := score; qr_answers := sub_answers sub;
               passed := passed; qr_created_at := now; qr_updated_at := now |});
          certificate ←
            (if passed then
               let code := certificate_code_of uuid in
               let cert_doc := fun i =>
                 {| cert__id := i; cert_user_id := user__id user;
                    cert_course_id := sub_course_id sub;
                    cert_quiz_id := sub_quiz_id sub;
                    cert_score_percent := score; certificate_code := code;
                    issued_at := now; cert_created_at := now;
                    cert_updated_at := now |} in
               cert_res ← insert_certificate cert_doc;
               mret (Some {| cv_id := cert_res; cv_doc := cert_doc cert_res |})
             else mret None);
          mret {| qz_result_id := res; qz_score := score; qz_passed := passed;
                  qz_certificate := certificate |}
      end
  end.

(** ** Chatbot *)

Record ChatRequest := {
  chat_course_id : option string;
  chat_user_id : option string;
  chat_message : string
}.

Record ChatResponse := {
  reply : string;
  references : list Reference
}.

Definition tip_state : string :=
  "Remember: useState returns [value, setValue]. Update state immutably.".
Definition tip_effect : string :=
  "useEffect runs after render. Add dependencies to control when it runs.".
Definition tip_performance : string :=
  "Consider useMemo/useCallback to memoize expensive calculations and handlers.".
Definition tip_generic : string :=
  "Focus on one concept at a time, review the lecture notes, and try a small hands-on example.".

(** The reply built from the message alone. *)
Definition chat_reply (message : string) : string :=
  let prompt := PyStr.lower (PyStr.strip message) in
  let tips := [] in
  let tips :=
    if PyStr.contains "state" prompt || PyStr.contains "use state" prompt
    then tips ++ [tip_state] else tips in
  let tips :=
    if PyStr.contains "effect" prompt then tips ++ [tip_effect] else tips in
  let tips :=
    if PyStr.contains "performance" prompt || PyStr.contains "optimize" prompt
    then tips ++ [tip_performance] else tips in
  let tips :=
    match tips with
    | [] => tips ++ [tip_generic]
    | _ => tips
    end in
  PyStr.join " " tips.

Definition reference_of (lec : Lecture) : Reference :=
  {| ref_lecture_id := lecture_id lec; ref_title := lecture_title lec;
     suggested_timestamp := 60 |}.

Definition insert_chatlog (mk : ObjectId -> ChatLog) : M ObjectId :=
  fun st =>
    let i := fresh_id st in
    (set_chatlog (db_chatlog st ++ [mk i]) (next_id st + 1) st, Ok i).

Definition chatbot (req : ChatRequest) (user : User) (now : Z) : M ChatResponse :=
  let response := chat_reply (chat_message req) in
  refs ←
    match chat_course_id req with
    | None => mret []
    | Some cid =>
        if String.eqb cid EmptyString then mret []
        else
          o ← oid cid;
          c ← find_course o;
          match c with
          | Some c => mret (reference_of <$> firstn 2 (playlist c))
          | None => mret []
          end
    end;
  insert_chatlog (fun i =>
    {| log__id := i; log_user_id := user__id user;
       log_course_id := chat_course_id req; log_prompt := chat_message req;
       log_response := response; log_refs := refs; log_created_at := now |});;
  mret {| reply := response; references := refs |}.

(** ** The seeded course and a small store *)

Definition sample_playlist : list Lecture :=
  [ {| lecture_id := "lec1"; lecture_title := "Welcome & Setup";
       lecture_url := "https://interactive-examples.mdn.mozilla.net/media/cc0-videos/flower.mp4";
       lecture_duration := 300; lecture_chapter := "Intro" |};
    {| lecture_id := "lec2"; lecture_title := "Components & Props";
       lecture_url := "https://interactive-examples.mdn.mozilla.net/media/cc0-videos/flower.mp4";
       lecture_duration := 600; lecture_chapter := "Core" |};
    {| lecture_id := "lec3"; lecture_title := "State & Effects";
       lecture_url := "https://interactive-examples.mdn.mozilla.net/media/cc0-videos/flower.mp4";
       lecture_duration := 900; lecture_chapter := "Core" |} ].

Definition sample_quiz : Quiz :=
  {| quiz_id := "q1"; quiz_title := "Basics Quiz";
     questions :=
       [ {| question_id := "q1-1"; question_text := "What hook manages state?";
            question_choices := ["useState"; "useEffect"; "useMemo"];
            question_answer := 0 |};
         {| question_id := "q1-2"; question_text := "What renders UI?";
            question_choices := ["Components"; "Reducers"; "Routers"];
            question_answer := 0 |} ] |}.

(** [sample_course] of [seed_course_if_empty], under a given [_id]. *)
Definition sample_course (i : ObjectId) : Course :=
  {| course__id := i; course_title := "Modern React Foundations";
     playlist := sample_playlist; quizzes := [sample_quiz];
     certificate_threshold := Some 70 |}.

Definition course_a : string := "aaaaaaaaaaaaaaaaaaaaaaaa".
Definition course_b : string := "bbbbbbbbbbbbbbbbbbbbbbbb".

Definition alice : User :=
  {| user__id := "0123456789abcdef01234567"; user_name := "Alice";
     user_email := "alice@example.com"; user_password_hash := "";
     user_is_active := true |}.

Definition store0 : Store :=
  {| db_user := [alice];
     db_tokens := [ {| token := "t-alice"; token_user_id := user__id alice;
                       token_created_at := 0; expires_at := Some 1000 |} ];
     db_course := [sample_course course_a];
     db_lectureprogress := []; db_courseprogress := [];
     db_quizresult := []; db_certificate := []; db_chatlog := [];
     next_id := 1 |}.

(** ** Reference definitions for the statements *)

(** The handler run on successive requests of one user for one course,
    each request with its instant. *)
Fixpoint run_updates (course_id : string) (user : User)
    (calls : list (ProgressUpdate * Z)) (st : Store)
    : Store * list (result ProgressResponse) :=
  match calls with
  | [] => (st, [])
  | (update, now) :: rest =>
      let (st1, r) := update_lecture_progress course_id update user now st in
      let (st2, rs) := run_updates course_id user rest st1 in
      (st2, r :: rs)
  end.

(** The [completed] flag of the latest write to lecture [l]. *)
Definition latest_write (calls : list (ProgressUpdate * Z)) (l : string) : option bool :=
  pu_completed <$> last (filter (fun u => pu_lecture_id u = l) (fst <$> calls)).

(** The distinct lecture ids whose latest write has [completed = true]. *)
Definition completed_latest (calls : list (ProgressUpdate * Z)) : list string :=
  filter (fun l => latest_write calls l = Some true)
         (remove_dups ((fun c => pu_lecture_id (fst c)) <$> calls)).

(** The rule table of the chatbot as the specification words it: each
    rule has its keywords, looked up in the lower-cased message. *)
Definition rule_table : list (list string * string) :=
  [ (["state"], tip_state);
    (["effect"], tip_effect);
    (["performance"; "optimize"], tip_performance) ].

Definition rule_matches (message : string) (rule : list string * string) : Prop :=
  Exists (fun k => PyStr.contains k (PyStr.lower message) = true) (fst rule).

#[global] Instance rule_matches_dec message rule : Decision (rule_matches message rule).
Proof. unfold rule_matches. apply _. Defined.

Definition expected_reply (message : string) : string :=
  match filter (rule_matches message) rule_table with
  | [] => tip_generic
  | matched => PyStr.join " " (snd <$> matched)
  end.

(** A write marking lecture [l] with 300 seconds watched. *)
Definition mark (l : string) (done : bool) : ProgressUpdate :=
  {| pu_lecture_id := l; pu_watched_seconds := 300; pu_completed := done;
     pu_bookmark := None |}.

(** The per-lecture rows of one user and course, read as the list of
    (lecture id, completed) they hold, and the upsert on that reading. *)
Definition lecture_states (u c : string) (rows : list LectureProgress)
    : list (string * bool) :=
  (fun r => (lp_lecture_id r, completed r)) <$> filter (lp_of u c) rows.

Fixpoint write_state (l : string) (b : bool) (m : list (string * bool))
    : list (string * bool) :=
  match m with
  | [] => [(l, b)]
  | (k, v) :: m' =>
      if decide (k = l) then (l, b) :: m' else (k, v) :: write_state l b m'
  end.

Definition write_call (m : list (string * bool)) (call : ProgressUpdate * Z)
    : list (string * bool) :=
  write_state (pu_lecture_id (fst call)) (pu_completed (fst call)) m.

Definition done_ids (m : list (string * bool)) : list string :=
  fst <$> filter (fun p => snd p = true) m.

(** The scenario of the specification on the seeded three-lecture
    course: lecture 1, then lecture 2, then lecture 1 again. *)
Definition scenario_calls : list (ProgressUpdate * Z) :=
  [(mark "lec1" true, 1); (mark "lec2" true, 2); (mark "lec1" true, 3)].

(** Four lectures marked completed, one more than the seeded course has. *)
Definition overfull_calls : list (ProgressUpdate * Z) :=
  [(mark "lec1" true, 1); (mark "lec2" true, 2); (mark "lec3" true, 3);
   (mark "lec4" true, 4)].

(** Registers that hold 32-bit words. *)
Definition regs_ok (r : Sha256.regs) : Prop :=
  0 <= Sha256.ra r < 2 ^ 32 ∧ 0 <= Sha256.rb r < 2 ^ 32
  ∧ 0 <= Sha256.rc r < 2 ^ 32 ∧ 0 <= Sha256.rd r < 2 ^ 32
  ∧ 0 <= Sha256.re r < 2 ^ 32 ∧ 0 <= Sha256.rf r < 2 ^ 32
  ∧ 0 <= Sha256.rg r < 2 ^ 32 ∧ 0 <= Sha256.rh r < 2 ^ 32.

(** A character other than the delimiter of stored password hashes. *)
Definition not_dollar (a : ascii) : bool := negb (Ascii.eqb a "$").

(** A family of pairwise distinct passwords, one per natural number. *)
Fixpoint password_of_pos (p : positive) : string :=
  match p with
  | xH => EmptyString
  | xO q => String "0" (password_of_pos q)
  | xI q => String "1" (password_of_pos q)
  end.

Definition password_of (n : N) : string :=
  match n with
  | N0 => "z"
  | Npos p => String "p" (password_of_pos p)
  end.

(** ** Registration and login *)

Definition TOKEN_TTL_HOURS : Z := 48.

(** [timedelta(hours=h)], in microseconds. *)
Definition hours (h : Z) : Z := h * 3600 * 1000000.

Record RegisterRequest := {
  reg_name : string;
  reg_email : string;
  reg_password : string
}.

Record LoginRequest := {
  login_email : string;
  login_password : string
}.

(** The answer of [register] and [login]: the token and the public
    fields of the user. *)
Record AuthResponse := {
  auth_token : string;
  auth_id : string;
  auth_name : string;
  auth_email : string
}.

Definition email_key (e : string) (u : User) : Prop := user_email u = e.

#[global] Instance email_key_dec e u : Decision (email_key e u).
Proof. unfold email_key. apply _. Defined.

(** [str(uuid4())] for the 128-bit number [uuid]: its 32 hexadecimal
    digits in groups of 8, 4, 4, 4 and 12. *)
Definition uuid_str (uuid : Z) : string :=
  let h := PyStr.hex_of 32 uuid in
  substring 0 8 h +:+ "-" +:+ substring 8 4 h +:+ "-" +:+ substring 12 4 h
  +:+ "-" +:+ substring 16 4 h +:+ "-" +:+ substring 20 12 h.

Definition set_user (l : list User) (n : Z) (st : Store) : Store :=
  {| db_user := l; db_tokens := db_tokens st; db_course := db_course st;
     db_lectureprogress := db_lectureprogress st;
     db_courseprogress := db_courseprogress st;
     db_quizresult := db_quizresult st; db_certificate := db_certificate st;
     db_chatlog := db_chatlog st; next_id := n |}.

Definition set_tokens (l : list Token) (n : Z) (st : Store) : Store :=
  {| db_user := db_user st; db_tokens := l; db_course := db_course st;
     db_lectureprogress := db_lectureprogress st;
     db_courseprogress := db_courseprogress st;
     db_quizresult := db_quizresult st; db_certificate := db_certificate st;
     db_chatlog := db_chatlog st; next_id := n |}.

Definition set_course (l : list Course) (n : Z) (st : Store) : Store :=
  {| db_user := db_user st; db_tokens := db_tokens st; db_course := l;
     db_lectureprogress := db_lectureprogress st;
     db_courseprogress := db_courseprogress st;
     db_quizresult := db_quizresult st; db_certificate := db_certificate st;
     db_chatlog := db_chatlog st; next_id := n |}.

Definition insert_user (mk : ObjectId -> User) : M ObjectId :=
  fun st =>
    let i := fresh_id st in
    (set_user (db_user st ++ [mk i]) (next_id st + 1) st, Ok i).

Definition insert_token (t : Token) : M unit :=
  fun st => (set_tokens (db_tokens st ++ [t]) (next_id st + 1) st, Ok ()).

(** The token document both handlers insert. *)
Definition new_token (tk : string) (user_id : ObjectId) (now : Z) : Token :=
  {| token := tk; token_user_id := user_id; token_created_at := now;
     expires_at := Some (now + hours TOKEN_TTL_HOURS) |}.

(** [register]; of the user document the fields [interests], [roles] and
    the two timestamps, which no handler reads, are not kept. *)
Definition register (req : RegisterRequest) (now rnd uuid : Z) : M AuthResponse :=
  existing ← gets (fun st => find_one (email_key (reg_email req)) (db_user st));
  match existing with
  | Some _ => raise 400 "Email already registered"
  | None =>
      res ← insert_user (fun i =>
        {| user__id := i; user_name := reg_name req; user_email := reg_email req;
           user_password_hash := hash_password rnd (reg_password req);
           user_is_active := true |});
      let tk := uuid_str uuid in
      insert_token (new_token tk res now);;
      mret {| auth_token := tk; auth_id := res; auth_name := reg_name req;
              auth_email := reg_email req |}
  end.

Definition login (req : LoginRequest) (now uuid : Z) : M AuthResponse :=
  user ← gets (fun st => find_one (email_key (login_email req)) (db_user st));
  match user with
  | None => raise 401 "Invalid credentials"
  | Some user =>
      if negb (verify_password (login_password req) (user_password_hash user))
      then raise 401 "Invalid credentials"
      else
        let tk := uuid_str uuid in
        insert_token (new_token tk (user__id user) now);;
        mret {| auth_token := tk; auth_id := user__id user;
                auth_name := user_name user; auth_email := user_email user |}
  end.

(** ** Course listing *)

Definition seed_course_if_empty : M unit :=
  fun st =>
    if Z.of_nat (length (db_course st)) =? 0
    then (set_course (db_course st ++ [sample_course (fresh_id st)])
                     (next_id st + 1) st, Ok ())
    else (st, Ok ()).

Definition list_courses : M (list Course) :=
  seed_course_if_empty;;
  gets (fun st => firstn 50 (db_course st)).

Definition get_course (course_id : string) : M Course :=
  o ← oid course_id;
  c ← find_course o;
  match c with
  | None => raise 404 "Course not found"
  | Some c => mret c
  end.

(** ** Discussions

    The two collections of the discussion handlers, which touch nothing
    else, with the counter for their [_id]s. *)

Record Discussion := {
  disc__id : ObjectId;
  disc_course_id : string;
  disc_user_id : string;
  disc_title : string;
  disc_content : string;
  disc_tags : list string;
  disc_created_at : Z;
  disc_updated_at : Z
}.

Record Message := {
  msg__id : ObjectId;
  msg_discussion_id : string;
  msg_user_id : string;
  msg_content : string;
  msg_created_at : Z
}.

Record Forum := {
  db_discussion : list Discussion;
  db_message : list Message;
  forum_next_id : Z
}.

Record DiscussionCreate := {
  dc_course_id : string;
  dc_title : string;
  dc_content : string;
  dc_tags : list string
}.

Record MessageCreate := {
  mc_discussion_id : string;
  mc_content : string
}.

Definition forum_fresh_id (f : Forum) : ObjectId := PyStr.hex_of 24 (forum_next_id f).

(** [sort("created_at", -1)] and [sort("created_at", 1)].  The store
    leaves the order of documents with equal keys open; the merge sort
    used here keeps some order for them. *)
Definition newer_first (a b : Discussion) : Prop := disc_created_at b <= disc_created_at a.
Definition older_first (a b : Message) : Prop := msg_created_at a <= msg_created_at b.

#[global] Instance newer_first_dec a b : Decision (newer_first a b).
Proof. unfold newer_first. apply _. Defined.

#[global] Instance older_first_dec a b : Decision (older_first a b).
Proof. unfold older_first. apply _. Defined.

Definition disc_course_key (c : string) (d : Discussion) : Prop := disc_course_id d = c.
Definition msg_discussion_key (i : string) (m : Message) : Prop := msg_discussion_id m = i.

#[global] Instance disc_course_key_dec c d : Decision (disc_course_key c d).
Proof. unfold disc_course_key. apply _. Defined.

#[global] Instance msg_discussion_key_dec i m : Decision (msg_discussion_key i m).
Proof. unfold msg_discussion_key. apply _. Defined.

Definition list_discussions (course_id : option string) (f : Forum) : list Discussion :=
  let matching :=
    match course_id with
    | Some c => if String.eqb c EmptyString then db_discussion f
                else find (disc_course_key c) (db_discussion f)
    | None => db_discussion f
    end in
  firstn 50 (merge_sort newer_first matching).

(** The mapping returned is built from [doc] after [insert_one] has put
    [_id] into it: the inserted document whole, next to [id]. *)
Definition create_discussion (req : DiscussionCreate) (user : User) (now : Z)
    (f : Forum) : Forum * (string * Discussion) :=
  let i := forum_fresh_id f in
  let doc := {| disc__id := i; disc_course_id := dc_course_id req;
                disc_user_id := user__id user; disc_title := dc_title req;
                disc_content := dc_content req; disc_tags := dc_tags req;
                disc_created_at := now; disc_updated_at := now |} in
  ({| db_discussion := db_discussion f ++ [doc]; db_message := db_message f;
      forum_next_id := forum_next_id f + 1 |}, (i, doc)).

Definition list_messages (discussion_id : string) (f : Forum) : list Message :=
  merge_sort older_first (find (msg_discussion_key discussion_id) (db_message f)).

Definition create_message (discussion_id : string) (req : MessageCreate)
    (user : User) (now : Z) (f : Forum) : Forum * (string * Message) :=
  let i := forum_fresh_id f in
  let doc := {| msg__id := i; msg_discussion_id := discussion_id;
                msg_user_id := user__id user; msg_content := mc_content req;
                msg_created_at := now |} in
  ({| db_discussion := db_discussion f; db_message := db_message f ++ [doc];
      forum_next_id := forum_next_id f + 1 |}, (i, doc)).

(** A character other than the space that ends the scheme of an
    [Authorization] header. *)
Definition not_space (a : ascii) : bool := negb (Ascii.eqb a " ").

(** A store whose only token has no expiry. *)
Definition store_open_token : Store :=
  set_tokens [ {| token := "t-open"; token_user_id := user__id alice;
                  token_created_at := 0; expires_at := None |} ] 1 store0.

(** The user document [register] inserts under the [_id] [i]. *)
Definition user_of_request (req : RegisterRequest) (rnd : Z) (i : ObjectId) : User :=
  {| user__id := i; user_name := reg_name req; user_email := reg_email req;
     user_password_hash := hash_password rnd (reg_password req);
     user_is_active := true |}.

Definition bob_request : RegisterRequest :=
  {| reg_name := "Bob"; reg_email := "bob@example.com"; reg_password := "hunter2" |}.

(** The key on which the per-lecture rows are meant to be unique. *)
Definition lp_keyof (r : LectureProgress) : string * string * string :=
  (lp_user_id r, lp_course_id r, lp_lecture_id r).

(** A submission to the seeded quiz with both answers right. *)
Definition passing_submission : QuizSubmission :=
  {| sub_course_id := course_a; sub_quiz_id := "q1";
     sub_answers := <["q1-1" := PInt 0]> (<["q1-2" := PInt 0]> ∅) |}.

(** The QuizResult row and the Certificate of a submission. *)
Definition quizresult_of (sub : QuizSubmission) (user : User) (now : Z) (score : Q)
    (pass : bool) (i : ObjectId) : QuizResult :=
  {| qr__id := i; qr_user_id := user__id user; qr_course_id := sub_course_id sub;
     qr_quiz_id := sub_quiz_id sub; score_percent := score;
     qr_answers := sub_answers sub; passed := pass;
     qr_created_at := now; qr_updated_at := now |}.

Definition certificate_of (sub : QuizSubmission) (user : User) (now uuid : Z)
    (score : Q) (i : ObjectId) : Certificate :=
  {| cert__id := i; cert_user_id := user__id user; cert_course_id := sub_course_id sub;
     cert_quiz_id := sub_quiz_id sub; cert_score_percent := score;
     certificate_code := certificate_code_of uuid;
     issued_at := now; cert_created_at := now; cert_updated_at := now |}.

(** A store with no course yet, and a forum with two messages posted out
    of order under a discussion id that no discussion has. *)
Definition store_no_course : Store := set_course [] 1 store0.

Definition forum0 : Forum :=
  {| db_discussion := [];
     db_message :=
       [ {| msg__id := "000000000000000000000001"; msg_discussion_id := "d1";
            msg_user_id := user__id alice; msg_content := "second"; msg_created_at := 20000 |};
         {| msg__id := "000000000000000000000002"; msg_discussion_id := "d1";
            msg_user_id := user__id alice; msg_content := "first"; msg_created_at := 10000 |} ];
     forum_next_id := 3 |}.

(** White space that [bytes.fromhex] skips: tab, LF, VT, FF, CR, space. *)
Definition is_blank (a : ascii) : bool :=
  let n := N_of_ascii a in (((9 <=? n) && (n <=? 13)) || (n =? 32))%N.

(** The ids the driver's [ObjectId] refuses whatever else they hold: the
    length is not 24, or some character is neither a hexadecimal digit
    nor white space. *)
Definition refused_oid (id_str : string) : Prop :=
  String.length id_str ≠ 24%nat
  ∨ PyStr.all_chars (fun a => PyStr.is_hex a || is_blank a) id_str = false.

(** The integers the store holds: 64 bits, signed.  Beyond them the
    store's encoder raises and nothing is written, which the handlers
    here, on unbounded integers, do not show; what is stated of a value
    written by any request is stated within this range. *)
Definition int64 (n : Z) : Prop := - 2 ^ 63 <= n < 2 ^ 63.

(** ASCII text, [str.isascii()]. *)
Definition isascii (s : string) : bool :=
  PyStr.all_chars (fun a => (N_of_ascii a <? 128)%N) s.

(** A store with per-lecture rows of two users on the first course:
    Alice has two lectures, Carol one. *)
Definition carol_id : ObjectId := "fedcba9876543210fedcba98".

Definition store_rows : Store :=
  set_lectureprogress
    [ {| lp__id := "000000000000000000000001"; lp_user_id := user__id alice;
         lp_course_id := course_a; lp_lecture_id := "lec1";
         watched_seconds := 120; completed := false;
         lp_created_at := 1000; lp_updated_at := 1000 |};
      {| lp__id := "000000000000000000000002"; lp_user_id := carol_id;
         lp_course_id := course_a; lp_lecture_id := "lec1";
         watched_seconds := 300; completed := true;
         lp_created_at := 2000; lp_updated_at := 2000 |};
      {| lp__id := "000000000000000000000003"; lp_user_id := user__id alice;
         lp_course_id := course_a; lp_lecture_id := "lec2";
         watched_seconds := 40; completed := false;
         lp_created_at := 3000; lp_updated_at := 3000 |} ]
    4 store0.

(** ** The chatbot's rules, stated without the search of the code *)

(** [k] occurs in [s]: [s] is some text, then [k], then some text. *)
Definition occurs_in (k s : string) : Prop :=
  exists before after, s = before +:+ k +:+ after.

(** The tips of the rules that match [s], in the order of the table: a
    rule matches when one of its keywords occurs in [s]. *)
Inductive tips_of (s : string) : list (list string * string) -> list string -> Prop :=
| tips_of_nil : tips_of s [] []
| tips_of_match keywords tip rules tips :
    Exists (fun k => occurs_in k s) keywords ->
    tips_of s rules tips ->
    tips_of s ((keywords, tip) :: rules) (tip :: tips)
| tips_of_skip keywords tip rules tips :
    ¬ Exists (fun k => occurs_in k s) keywords ->
    tips_of s rules tips ->
    tips_of s ((keywords, tip) :: rules) tips.

(** The reply made of the matching tips: joined by one space, or the
    generic tip when there is none. *)
Definition reply_of (tips : list string) : string :=
  match tips with
  | [] => tip_generic
  | _ => String.concat " " tips
  end.

(** * Properties *)

Ltac unfold_monad :=
  unfold mbind, M_bind, mret, M_ret, gets, raise in *.

#[local] Arguments String.append !_ _ / : simpl nomatch.

(** ** Collections *)
Section CollectionFacts.
Context {A : Type} (P : A -> Prop) `{!forall x, Decision (P x)}.

Lemma find_one_nil : find_one P [] = None.
Proof. reflexivity. Qed.

Lemma find_one_cons (x : A) (l : list A) :
  find_one P (x :: l) = if decide (P x) then Some x else find_one P l.
Proof.
  unfold find_one. simpl. destruct (decide (P x)); [reflexivity|].
  destruct (list_find P l) as [[i y]|]; reflexivity.
Qed.

Lemma find_one_Some (l : list A) (x : A) :
  find_one P l = Some x -> x ∈ l ∧ P x.
Proof.
  induction l as [|y l IH]; [discriminate|].
  rewrite find_one_cons. destruct (decide (P y)) as [Hy|Hy].
  - intros [= ->]. split; [left|assumption].
  - intros Hf. destruct (IH Hf) as [Hin HP]. split; [right|]; assumption.
Qed.

Lemma find_one_None (l : list A) :
  find_one P l = None <-> Forall (fun x => ¬ P x) l.
Proof.
  induction l as [|y l IH]; [split; [constructor|reflexivity]|].
  rewrite find_one_cons. destruct (decide (P y)) as [Hy|Hy]; split.
  - discriminate.
  - intros Hf. inversion Hf; contradiction.
  - intros Hf. constructor; [assumption|]. apply IH, Hf.
  - intros Hf. inversion Hf; subst. apply IH. assumption.
Qed.

(** After an upsert whose update and inserted document both satisfy the
    filter, the filter finds the written document. *)
Lemma find_one_update_one (upd : A -> A) (ins : A) (l : list A) :
  (forall x, P x -> P (upd x)) -> P ins ->
  find_one P (update_one P upd ins l)
  = Some (match find_one P l with Some x => upd x | None => ins end).
Proof.
  intros Hupd Hins. induction l as [|y l IH]; simpl.
  - rewrite find_one_cons, decide_True by assumption. reflexivity.
  - rewrite (find_one_cons y l). destruct (decide (P y)) as [Hy|Hy].
    + rewrite find_one_cons, decide_True by auto. reflexivity.
    + rewrite find_one_cons, decide_False by assumption. exact IH.
Qed.

Lemma update_one_absent (upd : A -> A) (ins : A) (l : list A) :
  find_one P l = None -> update_one P upd ins l = l ++ [ins].
Proof.
  induction l as [|y l IH]; [reflexivity|].
  rewrite find_one_cons. simpl. destruct (decide (P y)); [discriminate|].
  intros Hf. rewrite IH by assumption. reflexivity.
Qed.

End CollectionFacts.

(** ** [getCourseProgress] *)

(** C7. For a user and a course with no summary row, [get_course_progress]
    returns normally, leaves the store as it is, and answers with the
    zero-valued summary (percentage 0.0, no completed lecture) together
    with the user's per-lecture rows of that course. *)
Theorem get_course_progress_unstarted (st : Store) (user : User) (course_id : string) :
  find_one (cp_key (user__id user) course_id) (db_courseprogress st) = None ->
  get_course_progress course_id user st
  = (st, Ok {| view_course := course_id;
               view_course_progress :=
                 {| cp__id := None; cp_user_id := user__id user;
                    cp_course_id := course_id; completed_lecture_ids := [];
                    percentage := 0%Q; cp_created_at := None;
                    cp_updated_at := None |};
               view_lectures :=
                 filter (lp_of (user__id user) course_id) (db_lectureprogress st) |}).
Proof.
  intros H. unfold get_course_progress. unfold_monad. rewrite H. reflexivity.
Qed.

Lemma get_course_progress_unstarted_witness :
  find_one (cp_key (user__id alice) course_b) (db_courseprogress store0) = None
  ∧ snd (get_course_progress course_b alice store0)
    = Ok {| view_course := course_b;
            view_course_progress :=
              {| cp__id := None; cp_user_id := user__id alice;
                 cp_course_id := course_b; completed_lecture_ids := [];
                 percentage := 0%Q; cp_created_at := None;
                 cp_updated_at := None |};
            view_lectures := [] |}.
Proof.
  split; [reflexivity|].
  rewrite (get_course_progress_unstarted store0 alice course_b); reflexivity.
Defined.

(** ** [updateLectureProgress] on an unknown course *)

Lemma oid_valid (id_str : string) (st : Store) :
  valid_oid id_str = true -> oid id_str st = (st, Ok (PyStr.lower id_str)).
Proof. intros H. unfold oid. rewrite H. reflexivity. Qed.

Lemma oid_invalid (id_str : string) (st : Store) :
  valid_oid id_str = false -> oid id_str st = (st, Err 400 "Invalid id").
Proof. intros H. unfold oid. rewrite H. reflexivity. Qed.

Lemma lp_set_key u c l update now r :
  lp_key u c l r -> lp_key u c l (lp_set update now r).
Proof. intros H. exact H. Qed.

Lemma lp_new_key i u c update now :
  lp_key u c (pu_lecture_id update) (lp_new i u c update now).
Proof. repeat split. Qed.

(** C9. The per-lecture row is written before the course is looked up:
    when [course_id] is a well-formed id that matches no course, the
    handler raises 404 "Course not found", yet the store it leaves holds
    the upserted row for (user, course_id, lecture_id) with the submitted
    [watched_seconds] and [completed]; the summary collection is as
    before. *)
Theorem update_progress_unknown_course (st : Store) (course_id : string)
    (update : ProgressUpdate) (user : User) (now : Z) :
  valid_oid course_id = true ->
  find_one (course_key (PyStr.lower course_id)) (db_course st) = None ->
  exists st' row,
    update_lecture_progress course_id update user now st
    = (st', Err 404 "Course not found")
    ∧ db_lectureprogress st'
      = update_one (lp_key (user__id user) course_id (pu_lecture_id update))
          (lp_set update now)
          (lp_new (fresh_id st) (user__id user) course_id update now)
          (db_lectureprogress st)
    ∧ find_one (lp_key (user__id user) course_id (pu_lecture_id update))
        (db_lectureprogress st') = Some row
    ∧ watched_seconds row = pu_watched_seconds update
    ∧ completed row = pu_completed update
    ∧ db_courseprogress st' = db_courseprogress st.
Proof.
  intros Hoid Hnone.
  unfold update_lecture_progress, upsert_lecture, find_course. unfold_monad.
  rewrite oid_valid by assumption. cbn [db_course set_lectureprogress].
  rewrite Hnone.
  eexists. eexists. split; [reflexivity|]. cbn [db_lectureprogress db_courseprogress].
  split; [reflexivity|]. split.
  - apply find_one_update_one; [apply lp_set_key | apply lp_new_key].
  - destruct (find_one _ (db_lectureprogress st)); repeat split.
Qed.

Lemma update_progress_unknown_course_witness :
  valid_oid course_b = true
  ∧ find_one (course_key (PyStr.lower course_b)) (db_course store0) = None
  ∧ exists st' row,
      update_lecture_progress course_b (mark "lec1" true) alice 5 store0
      = (st', Err 404 "Course not found")
      ∧ db_lectureprogress st'
        = update_one (lp_key (user__id alice) course_b "lec1")
            (lp_set (mark "lec1" true) 5)
            (lp_new (fresh_id store0) (user__id alice) course_b (mark "lec1" true) 5)
            (db_lectureprogress store0)
      ∧ find_one (lp_key (user__id alice) course_b "lec1")
          (db_lectureprogress st') = Some row
      ∧ watched_seconds row = 300
      ∧ completed row = true
      ∧ db_courseprogress st' = db_courseprogress store0.
Proof.
  split; [reflexivity|]. split; [reflexivity|].
  apply (update_progress_unknown_course store0 course_b (mark "lec1" true) alice 5);
    reflexivity.
Defined.

(** ** Strings: lengths and character classes *)

Lemma length_append (a b : string) :
  String.length (a +:+ b) = (String.length a + String.length b)%nat.
Proof. induction a as [|c a IH]; simpl; [reflexivity|]. rewrite IH. reflexivity. Qed.

Lemma all_chars_append (P : ascii -> bool) (a b : string) :
  PyStr.all_chars P (a +:+ b) = PyStr.all_chars P a && PyStr.all_chars P b.
Proof.
  induction a as [|c a IH]; simpl; [reflexivity|].
  rewrite IH. apply andb_assoc.
Qed.

Lemma all_chars_smap (P Q : ascii -> bool) (f : ascii -> ascii) (s : string) :
  (forall a, P a = true -> Q (f a) = true) ->
  PyStr.all_chars P s = true -> PyStr.all_chars Q (PyStr.smap f s) = true.
Proof.
  intros HPQ. induction s as [|c s IH]; simpl; [reflexivity|].
  intros [Hc Hs]%andb_true_iff. rewrite (HPQ c Hc), (IH Hs). reflexivity.
Qed.

Lemma all_chars_take (P : ascii -> bool) (n : nat) (s : string) :
  PyStr.all_chars P s = true -> PyStr.all_chars P (PyStr.take n s) = true.
Proof.
  revert s. induction n as [|n IH]; intros [|c s]; simpl; try reflexivity.
  intros [Hc Hs]%andb_true_iff. rewrite Hc, (IH s Hs). reflexivity.
Qed.

Lemma length_smap (f : ascii -> ascii) (s : string) :
  String.length (PyStr.smap f s) = String.length s.
Proof. induction s as [|c s IH]; simpl; [reflexivity|]. rewrite IH. reflexivity. Qed.

Lemma length_take (n : nat) (s : string) :
  String.length (PyStr.take n s) = Nat.min n (String.length s).
Proof.
  revert s. induction n as [|n IH]; intros [|c s]; simpl; try reflexivity.
  rewrite IH. reflexivity.
Qed.

Lemma hex_digit_lower (d : Z) : PyStr.is_hex_lower (PyStr.hex_digit d) = true.
Proof.
  unfold PyStr.hex_digit. destruct d as [|p|p]; try reflexivity.
  do 4 (try (destruct p as [p|p|]; try reflexivity)).
Qed.

Lemma length_hex_of (w : nat) (z : Z) : String.length (PyStr.hex_of w z) = w.
Proof.
  revert z. induction w as [|w IH]; intros z; simpl; [reflexivity|].
  rewrite length_append, IH. simpl. lia.
Qed.

Lemma hex_of_lower (w : nat) (z : Z) :
  PyStr.all_chars PyStr.is_hex_lower (PyStr.hex_of w z) = true.
Proof.
  revert z. induction w as [|w IH]; intros z; simpl; [reflexivity|].
  rewrite all_chars_append, IH. simpl. rewrite hex_digit_lower. reflexivity.
Qed.

Lemma upper_ascii_hex (a : ascii) :
  PyStr.is_hex_lower a = true -> PyStr.is_hex_upper (PyStr.upper_ascii a) = true.
Proof.
  destruct a as [[] [] [] [] [] [] [] []]; vm_compute; intros H;
    first [reflexivity | discriminate H].
Qed.

(** The code of a certificate: the prefix, then 8 upper-case hexadecimal
    digits. *)
Lemma certificate_code_format (uuid : Z) :
  exists hex,
    certificate_code_of uuid = "LH-" +:+ hex
    ∧ String.length hex = 8%nat
    ∧ PyStr.all_chars PyStr.is_hex_upper hex = true.
Proof.
  exists (PyStr.upper (PyStr.take 8 (PyStr.hex_of 32 uuid))).
  split; [reflexivity|]. split.
  - unfold PyStr.upper. rewrite length_smap, length_take, length_hex_of. reflexivity.
  - apply (all_chars_smap PyStr.is_hex_lower); [apply upper_ascii_hex|].
    apply all_chars_take, hex_of_lower.
Qed.

(** ** [submitQuiz] *)

(** C4. When [course_id] is a well-formed id that matches no course, or
    the course has no quiz with the submitted [quiz_id], [submit_quiz]
    raises a 404 and returns the store it was given: no QuizResult row
    and no Certificate is inserted. *)
Theorem submit_quiz_not_found (st : Store) (sub : QuizSubmission) (user : User)
    (now uuid : Z) :
  valid_oid (sub_course_id sub) = true ->
  (find_one (course_key (PyStr.lower (sub_course_id sub))) (db_course st) = None
   ∨ exists course,
       find_one (course_key (PyStr.lower (sub_course_id sub))) (db_course st)
       = Some course
       ∧ find_one (quiz_key (sub_quiz_id sub)) (quizzes course) = None) ->
  exists detail,
    submit_quiz sub user now uuid st = (st, Err 404 detail)
    ∧ (detail = "Course not found" ∨ detail = "Quiz not found").
Proof.
  intros Hoid Hmiss. unfold submit_quiz, find_course. unfold_monad.
  rewrite oid_valid by assumption.
  destruct Hmiss as [Hc | (course & Hc & Hq)]; rewrite Hc.
  - exists "Course not found". split; [reflexivity | left; reflexivity].
  - rewrite Hq. exists "Quiz not found". split; [reflexivity | right; reflexivity].
Qed.

Lemma submit_quiz_not_found_witness :
  valid_oid course_a = true
  ∧ (exists course,
       find_one (course_key (PyStr.lower course_a)) (db_course store0) = Some course
       ∧ find_one (quiz_key "q9") (quizzes course) = None)
  ∧ exists detail,
      submit_quiz {| sub_course_id := course_a; sub_quiz_id := "q9";
                     sub_answers := ∅ |} alice 5 7 store0
      = (store0, Err 404 detail)
      ∧ (detail = "Course not found" ∨ detail = "Quiz not found").
Proof.
  assert (Hq : exists course,
       find_one (course_key (PyStr.lower course_a)) (db_course store0) = Some course
       ∧ find_one (quiz_key "q9") (quizzes course) = None)
    by (exists (sample_course course_a); split; reflexivity).
  split; [reflexivity|]. split; [exact Hq|].
  apply (submit_quiz_not_found store0
           {| sub_course_id := course_a; sub_quiz_id := "q9"; sub_answers := ∅ |}
           alice 5 7); [reflexivity | right; exact Hq].
Defined.

(** C3. A submission whose course and quiz resolve returns normally and
    appends one QuizResult row carrying the score and [passed];
    [passed] holds exactly when the threshold of the course, 70 when it
    has none, is at most the score; in that case one Certificate is
    appended and returned, its code being the prefix followed by 8
    upper-case hexadecimal digits; otherwise the certificates are
    untouched and the returned certificate is empty. *)
Theorem submit_quiz_records_and_certifies (st : Store) (sub : QuizSubmission)
    (user : User) (now uuid : Z) (course : Course) (quiz : Quiz) :
  valid_oid (sub_course_id sub) = true ->
  find_one (course_key (PyStr.lower (sub_course_id sub))) (db_course st) = Some course ->
  find_one (quiz_key (sub_quiz_id sub)) (quizzes course) = Some quiz ->
  exists st' resp row,
    submit_quiz sub user now uuid st = (st', Ok resp)
    ∧ db_quizresult st' = db_quizresult st ++ [row]
    ∧ qr__id row = qz_result_id resp
    ∧ qr_user_id row = user__id user
    ∧ qr_quiz_id row = sub_quiz_id sub
    ∧ score_percent row = qz_score resp
    ∧ passed row = qz_passed resp
    ∧ (qz_passed resp = true
       <-> (inject_Z (default 70%Z (certificate_threshold course)) <= qz_score resp)%Q)
    ∧ ((inject_Z (default 70%Z (certificate_threshold course)) <= qz_score resp)%Q ->
       exists cert hex,
         db_certificate st' = db_certificate st ++ [cert]
         ∧ qz_certificate resp = Some {| cv_id := cert__id cert; cv_doc := cert |}
         ∧ cert_user_id cert = user__id user
         ∧ cert_quiz_id cert = sub_quiz_id sub
         ∧ cert_score_percent cert = qz_score resp
         ∧ certificate_code cert = "LH-" +:+ hex
         ∧ String.length hex = 8%nat
         ∧ PyStr.all_chars PyStr.is_hex_upper hex = true)
    ∧ (¬ (inject_Z (default 70%Z (certificate_threshold course)) <= qz_score resp)%Q ->
       db_certificate st' = db_certificate st ∧ qz_certificate resp = None).
Proof.
  intros Hoid Hc Hq.
  unfold submit_quiz, find_course, insert_quizresult, insert_certificate.
  unfold_monad. rewrite oid_valid by assumption. rewrite Hc, Hq.
  set (score := PyFloat.percent_of _ _). clearbody score.
  pose proof (Qle_bool_iff (inject_Z (default 70 (certificate_threshold course))) score)
    as Hle.
  fold (PyFloat.ge_int score (default 70 (certificate_threshold course))) in Hle.
  destruct (PyFloat.ge_int score (default 70 (certificate_threshold course))) eqn:Hp;
    cbn [db_certificate db_quizresult set_quizresult set_certificate next_id].
  - destruct (certificate_code_format uuid) as (hex & Hcode & Hlen & Hhex).
    do 3 eexists. split; [reflexivity|].
    cbn [qz_result_id qz_score qz_passed qz_certificate qr__id qr_user_id qr_quiz_id
         score_percent passed].
    do 6 (split; [reflexivity|]). split; [exact Hle|]. split.
    + intros _. eexists. exists hex. split; [reflexivity|].
      cbn [cert__id cert_user_id cert_quiz_id cert_score_percent certificate_code].
      do 4 (split; [reflexivity|]). split; [exact Hcode|]. split; assumption.
    + intros Hnot. exfalso. apply Hnot, Hle. reflexivity.
  - do 3 eexists. split; [reflexivity|].
    cbn [qz_result_id qz_score qz_passed qz_certificate qr__id qr_user_id qr_quiz_id
         score_percent passed].
    do 6 (split; [reflexivity|]). split; [exact Hle|]. split.
    + intros Hyes. apply Hle in Hyes. discriminate Hyes.
    + intros _. split; reflexivity.
Qed.

Lemma submit_quiz_records_and_certifies_witness :
  let sub := {| sub_course_id := course_a; sub_quiz_id := "q1";
                sub_answers := <["q1-1" := PInt 0]> (<["q1-2" := PInt 0]> ∅) |} in
  let uuid := 3735928559 * 2 ^ 96 in
  valid_oid (sub_course_id sub) = true
  ∧ find_one (course_key (PyStr.lower (sub_course_id sub))) (db_course store0)
    = Some (sample_course course_a)
  ∧ find_one (quiz_key (sub_quiz_id sub)) (quizzes (sample_course course_a))
    = Some sample_quiz
  ∧ exists st' resp row cert,
      submit_quiz sub alice 5 uuid store0 = (st', Ok resp)
      ∧ qz_score resp = inject_Z 100
      ∧ (inject_Z 70 <= qz_score resp)%Q
      ∧ qz_passed resp = true
      ∧ db_quizresult st' = [row]
      ∧ passed row = true
      ∧ score_percent row = inject_Z 100
      ∧ db_certificate st' = [cert]
      ∧ qz_certificate resp = Some {| cv_id := cert__id cert; cv_doc := cert |}
      ∧ cert_score_percent cert = inject_Z 100
      ∧ certificate_code cert = "LH-DEADBEEF".
Proof.
  intros sub uuid. split; [reflexivity|]. split; [reflexivity|]. split; [reflexivity|].
  destruct (submit_quiz_records_and_certifies store0 sub alice 5 uuid
              (sample_course course_a) sample_quiz eq_refl eq_refl eq_refl)
    as (st' & resp & row & Hrun & Hrows & _ & _ & _ & Hscore & Hpassed & Hiff & Hyes & _).
  assert (Hval : qz_score resp = inject_Z 100).
  { assert (Hs : snd (submit_quiz sub alice 5 uuid store0) = Ok resp)
      by (rewrite Hrun; reflexivity).
    vm_compute in Hs. injection Hs as <-. reflexivity. }
  assert (Hle : (inject_Z (default 70%Z (certificate_threshold (sample_course course_a)))
                 <= qz_score resp)%Q).
  { rewrite Hval. unfold Qle. simpl. lia. }
  destruct (Hyes Hle) as (cert & hex & Hcerts & Hcert & _ & _ & Hcs & Hcode & _ & _).
  exists st', resp, row, cert.
  split; [exact Hrun|]. split; [exact Hval|]. split; [rewrite Hval; unfold Qle; simpl; lia|].
  split; [apply Hiff, Hle|]. split; [exact Hrows|].
  split; [rewrite Hpassed; apply Hiff, Hle|]. split; [rewrite Hscore; exact Hval|].
  split; [exact Hcerts|]. split; [exact Hcert|]. split; [rewrite Hcs; exact Hval|].
  assert (Hc : certificate_code <$> (cv_doc <$> qz_certificate resp)
               = Some "LH-DEADBEEF").
  { assert (Hs : snd (submit_quiz sub alice 5 uuid store0) = Ok resp)
      by (rewrite Hrun; reflexivity).
    vm_compute in Hs. injection Hs as <-. reflexivity. }
  rewrite Hcert in Hc. simpl in Hc. injection Hc as Hc. exact Hc.
Defined.

(** The scoring loop counts the questions that pass its test. *)
Lemma count_correct_filter (answers : gmap string pyval) (qs : list Question) :
  count_correct answers qs
  = Z.of_nat (length (filter (fun q => answer_counts answers q = true) qs)).
Proof.
  unfold count_correct.
  enough (G : forall acc,
    fold_left (fun correct q => if answer_counts answers q then correct + 1 else correct)
              qs acc
    = acc + Z.of_nat (length (filter (fun q => answer_counts answers q = true) qs)))
    by (rewrite G; lia).
  induction qs as [|q qs IH]; intros acc; simpl; [lia|].
  rewrite IH, filter_cons. destruct (answer_counts answers q) eqn:E.
  - rewrite decide_True by reflexivity. simpl length. lia.
  - rewrite decide_False by discriminate. lia.
Qed.

(** The test of the loop: the answer under the question's id is an int
    or a bool, and equals the stored index ([True] as 1, [False] as 0). *)
Lemma answer_counts_iff (answers : gmap string pyval) (q : Question) :
  answer_counts answers q = true
  <-> answers !! question_id q = Some (PInt (question_answer q))
      ∨ exists b, answers !! question_id q = Some (PBool b)
                  ∧ Z.b2z b = question_answer q.
Proof.
  unfold answer_counts, dict_get.
  destruct (answers !! question_id q) as [[|b|z|x|s|l]|]; simpl; split;
    try discriminate;
    try (intros [H|(b' & H & _)]; discriminate H).
  - intros H%Z.eqb_eq. right. exists b. split; [reflexivity|assumption].
  - intros [H|(b' & [= <-] & H)]; [discriminate|]. apply Z.eqb_eq, H.
  - intros H%Z.eqb_eq. left. congruence.
  - intros [[= ->]|(b' & H & _)]; [apply Z.eqb_refl|discriminate].
Qed.

Lemma len_or_1_max {A} (xs : list A) : len_or_1 xs = Z.max 1 (Z.of_nat (length xs)).
Proof. unfold len_or_1. destruct (Z.eqb_spec (Z.of_nat (length xs)) 0); lia. Qed.

(** The score of a submission that resolves: the rounded percentage of
    counted questions over [max(1, number of questions)]. *)
Lemma submit_quiz_score (st : Store) (sub : QuizSubmission) (user : User)
    (now uuid : Z) (course : Course) (quiz : Quiz) :
  valid_oid (sub_course_id sub) = true ->
  find_one (course_key (PyStr.lower (sub_course_id sub))) (db_course st) = Some course ->
  find_one (quiz_key (sub_quiz_id sub)) (quizzes course) = Some quiz ->
  exists st' resp,
    submit_quiz sub user now uuid st = (st', Ok resp)
    ∧ qz_score resp
      = PyFloat.percent_of
          (Z.of_nat (length (filter (fun q => answer_counts (sub_answers sub) q = true)
                                    (questions quiz))))
          (Z.max 1 (Z.of_nat (length (questions quiz)))).
Proof.
  intros Hoid Hc Hq.
  unfold submit_quiz, find_course, insert_quizresult, insert_certificate.
  unfold_monad. rewrite oid_valid by assumption. rewrite Hc, Hq.
  rewrite count_correct_filter, len_or_1_max.
  set (score := PyFloat.percent_of _ _). clearbody score.
  destruct (PyFloat.ge_int _ _); do 2 eexists; split; reflexivity.
Qed.

(** The scenario of the specification: answers 0 and 1 against the key
    [0, 0] give 50.0 and no pass at threshold 70. *)
Example submit_quiz_half_right :
  exists st' resp,
    submit_quiz {| sub_course_id := course_a; sub_quiz_id := "q1";
                   sub_answers := <["q1-1" := PInt 0]> (<["q1-2" := PInt 1]> ∅) |}
                alice 5 7 store0 = (st', Ok resp)
    ∧ qz_score resp = PyFloat.centi 5000
    ∧ qz_passed resp = false
    ∧ qz_certificate resp = None.
Proof. do 2 eexists. split; [vm_compute; reflexivity|]. repeat split. Qed.

(** C1 (the code departs from it). Neither submitted answer is an
    integer, both are the JSON boolean [false]; the loop takes each for
    the index 0, so against the key [0, 0] the score is 100.0, the
    submission passes and a certificate is issued. *)
Theorem submit_quiz_counts_booleans :
  let answers : gmap string pyval :=
    <["q1-1" := PBool false]> (<["q1-2" := PBool false]> ∅) in
  (forall k z, answers !! k ≠ Some (PInt z))
  ∧ exists st' resp cert,
      submit_quiz {| sub_course_id := course_a; sub_quiz_id := "q1";
                     sub_answers := answers |} alice 5 7 store0 = (st', Ok resp)
      ∧ qz_score resp = PyFloat.centi 10000
      ∧ qz_passed resp = true
      ∧ qz_certificate resp = Some cert
      ∧ db_certificate st' = [cv_doc cert].
Proof.
  intros answers. split.
  - intros k z. subst answers.
    destruct (decide (k = "q1-1")) as [->|H1]; [rewrite lookup_insert_eq; discriminate|].
    rewrite lookup_insert_ne by congruence.
    destruct (decide (k = "q1-2")) as [->|H2]; [rewrite lookup_insert_eq; discriminate|].
    rewrite lookup_insert_ne by congruence. rewrite lookup_empty. discriminate.
  - do 3 eexists. split; [vm_compute; reflexivity|]. repeat split.
Qed.

(** ** Token expiry *)

Lemma bearer_header (tk : string) :
  String.eqb ("Bearer " +:+ tk) EmptyString = false
  ∧ PyStr.startswith "bearer " (PyStr.lower ("Bearer " +:+ tk)) = true
  ∧ nth 1 (PyStr.split1 " " ("Bearer " +:+ tk)) EmptyString = tk.
Proof. repeat split. Qed.

(** C5, as the code has it. For a stored token with expiry [e] whose user
    exists, [require_auth] returns the user at every instant up to and
    including [e], and raises 401 "Token expired" at every instant
    strictly after [e]. *)
Theorem require_auth_expiry (st : Store) (tk : string) (tok : Token) (user : User)
    (e now : Z) :
  find_one (token_key tk) (db_tokens st) = Some tok ->
  expires_at tok = Some e ->
  find_one (user_key (token_user_id tok)) (db_user st) = Some user ->
  (now <= e -> require_auth (Some ("Bearer " +:+ tk)) now st = (st, Ok user))
  ∧ (e < now ->
     require_auth (Some ("Bearer " +:+ tk)) now st = (st, Err 401 "Token expired")).
Proof.
  intros Htok He Huser.
  destruct (bearer_header tk) as (H0 & H1 & H2).
  unfold require_auth. rewrite H0, H1, H2. unfold_monad. cbn [orb negb].
  rewrite Htok, He. split; intros Hnow.
  - destruct (Z.ltb_spec e now); [lia|]. rewrite Huser. reflexivity.
  - destruct (Z.ltb_spec e now); [reflexivity|lia].
Qed.

Lemma require_auth_expiry_witness :
  find_one (token_key "t-alice") (db_tokens store0)
  = Some {| token := "t-alice"; token_user_id := user__id alice;
            token_created_at := 0; expires_at := Some 1000 |}
  ∧ find_one (user_key (user__id alice)) (db_user store0) = Some alice
  ∧ require_auth (Some "Bearer t-alice") 999 store0 = (store0, Ok alice)
  ∧ require_auth (Some "Bearer t-alice") 1001 store0
    = (store0, Err 401 "Token expired").
Proof.
  split; [reflexivity|]. split; [reflexivity|]. split.
  - apply (require_auth_expiry store0 "t-alice"
             {| token := "t-alice"; token_user_id := user__id alice;
                token_created_at := 0; expires_at := Some 1000 |} alice 1000 999);
      [reflexivity | reflexivity | reflexivity | lia].
  - apply (require_auth_expiry store0 "t-alice"
             {| token := "t-alice"; token_user_id := user__id alice;
                token_created_at := 0; expires_at := Some 1000 |} alice 1000 1001);
      [reflexivity | reflexivity | reflexivity | lia].
Defined.

(** At the very instant [expires_at] the stored token is still accepted:
    the check rejects only when [expires_at < now]. *)
Lemma require_auth_accepts_at_expiry :
  exists tok,
    find_one (token_key "t-alice") (db_tokens store0) = Some tok
    ∧ expires_at tok = Some 1000
    ∧ require_auth (Some "Bearer t-alice") 1000 store0 = (store0, Ok alice)
    ∧ require_auth (Some "Bearer t-alice") 1000 store0
      ≠ (store0, Err 401 "Token expired").
Proof.
  eexists. split; [reflexivity|]. split; [reflexivity|].
  split; [reflexivity | discriminate].
Qed.

(** ** Progress: the rows as states per lecture *)

Lemma lecture_states_update_one (u c : string) (update : ProgressUpdate)
    (now : Z) (i : ObjectId) (rows : list LectureProgress) :
  lecture_states u c
    (update_one (lp_key u c (pu_lecture_id update)) (lp_set update now)
                (lp_new i u c update now) rows)
  = write_state (pu_lecture_id update) (pu_completed update)
                (lecture_states u c rows).
Proof.
  unfold lecture_states. induction rows as [|r rows IH]; simpl.
  - rewrite filter_cons, decide_True by (split; reflexivity). reflexivity.
  - destruct (decide (lp_key u c (pu_lecture_id update) r)) as [Hk|Hk].
    + destruct Hk as (Hu & Hc & Hl).
      rewrite !filter_cons, !decide_True by (split; assumption).
      simpl. rewrite decide_True by assumption. rewrite Hl. reflexivity.
    + rewrite !filter_cons. destruct (decide (lp_of u c r)) as [Ho|Ho].
      * simpl. rewrite decide_False.
        -- f_equal. exact IH.
        -- intros Hl. apply Hk. destruct Ho. repeat split; assumption.
      * exact IH.
Qed.

Lemma done_ids_lecture_states (u c : string) (rows : list LectureProgress) :
  lp_lecture_id <$> filter (lp_done u c) rows = done_ids (lecture_states u c rows).
Proof.
  unfold done_ids, lecture_states. induction rows as [|r rows IH]; [reflexivity|].
  rewrite !filter_cons.
  destruct (decide (lp_of u c r)) as [[Hu Hc]|Ho].
  - rewrite fmap_cons, filter_cons. simpl snd.
    destruct (decide (completed r = true)) as [Hd|Hd].
    + rewrite decide_True by (repeat split; assumption).
      rewrite !fmap_cons. simpl. f_equal. exact IH.
    + rewrite decide_False by (intros (_ & _ & H); contradiction). exact IH.
  - rewrite decide_False by (intros (H1 & H2 & _); apply Ho; split; assumption).
    exact IH.
Qed.

Lemma write_state_keys_NoDup (l : string) (b : bool) (m : list (string * bool)) :
  NoDup (fst <$> m) -> NoDup (fst <$> write_state l b m).
Proof.
  induction m as [|[k v] m IH]; simpl.
  - intros _. apply NoDup_singleton.
  - intros [Hk Hm]%NoDup_cons. destruct (decide (k = l)) as [->|Hne].
    + simpl. apply NoDup_cons. split; assumption.
    + simpl. apply NoDup_cons. split; [|apply IH, Hm].
      intros Hin. apply Hk. clear -Hin Hne.
      induction m as [|[k' v'] m IH]; simpl in *.
      * apply list_elem_of_singleton in Hin. congruence.
      * destruct (decide (k' = l)) as [->|Hne'].
        -- simpl in Hin. apply elem_of_cons in Hin as [Hin|Hin]; [congruence|].
           right. exact Hin.
        -- simpl in Hin. apply elem_of_cons in Hin as [Hin|Hin];
             [subst k'; left | right; apply IH, Hin].
Qed.

Lemma write_state_elem (l : string) (b : bool) (m : list (string * bool))
    (k : string) (v : bool) :
  NoDup (fst <$> m) ->
  (k, v) ∈ write_state l b m <-> (k = l ∧ v = b) ∨ (k ≠ l ∧ (k, v) ∈ m).
Proof.
  induction m as [|[k' v'] m IH]; simpl.
  - intros _. rewrite list_elem_of_singleton. split.
    + intros [= -> ->]. left. split; reflexivity.
    + intros [[-> ->]|[_ H]]; [reflexivity|]. inversion H.
  - intros [Hk Hm]%NoDup_cons. destruct (decide (k' = l)) as [->|Hne].
    + rewrite !elem_of_cons. split.
      * intros [[= -> ->]|Hin]; [left; split; reflexivity|].
        right. split; [|right; exact Hin].
        intros ->. apply Hk. apply list_elem_of_fmap. exists (l, v). split; [reflexivity|exact Hin].
      * intros [[-> ->]|[Hne [[= -> ->]|Hin]]]; [left; reflexivity|contradiction|right; exact Hin].
    + rewrite !elem_of_cons, (IH Hm). split.
      * intros [[= -> ->]|[[-> ->]|[Hkl Hin]]].
        -- right. split; [exact Hne|left; reflexivity].
        -- left. split; reflexivity.
        -- right. split; [exact Hkl|right; exact Hin].
      * intros [[-> ->]|[Hkl [[= -> ->]|Hin]]].
        -- right. left. split; reflexivity.
        -- left. reflexivity.
        -- right. right. split; assumption.
Qed.

Lemma latest_write_nil (l : string) : latest_write [] l = None.
Proof. reflexivity. Qed.

Lemma latest_write_snoc (calls : list (ProgressUpdate * Z))
    (call : ProgressUpdate * Z) (l : string) :
  latest_write (calls ++ [call]) l
  = if decide (pu_lecture_id (fst call) = l) then Some (pu_completed (fst call))
    else latest_write calls l.
Proof.
  unfold latest_write. rewrite fmap_app, filter_app. simpl.
  rewrite filter_cons, filter_nil.
  destruct (decide (pu_lecture_id (fst call) = l)).
  - rewrite last_snoc. reflexivity.
  - rewrite app_nil_r. reflexivity.
Qed.

Lemma latest_write_Some_elem (calls : list (ProgressUpdate * Z)) (l : string) (b : bool) :
  latest_write calls l = Some b ->
  l ∈ (fun c => pu_lecture_id (fst c)) <$> calls.
Proof.
  induction calls as [|call calls IH] using rev_ind; [discriminate|].
  rewrite latest_write_snoc, fmap_app, elem_of_app.
  destruct (decide (pu_lecture_id (fst call) = l)) as [<-|Hne].
  - intros _. right. simpl. left.
  - intros H. left. apply IH, H.
Qed.

(** The states reached by a sequence of writes from no row: one state
    per lecture, the one of its latest write. *)
Lemma write_calls_spec (calls : list (ProgressUpdate * Z)) :
  NoDup (fst <$> foldl write_call [] calls)
  ∧ forall l b, (l, b) ∈ foldl write_call [] calls <-> latest_write calls l = Some b.
Proof.
  induction calls as [|call calls [IHnd IHel]] using rev_ind.
  - split; [apply NoDup_nil_2|]. intros l b. simpl. rewrite latest_write_nil.
    split; [intros H; inversion H | discriminate].
  - rewrite foldl_app. simpl. unfold write_call at 1 3. split.
    + apply write_state_keys_NoDup, IHnd.
    + intros l b. rewrite (write_state_elem _ _ _ _ _ IHnd), latest_write_snoc, IHel.
      destruct (decide (pu_lecture_id (fst call) = l)) as [<-|Hne]; split.
      * intros [[_ ->]|[Hne _]]; [reflexivity|contradiction].
      * intros [= ->]. left. split; reflexivity.
      * intros [[-> _]|[_ H]]; [contradiction|exact H].
      * intros H. right. split; [congruence|exact H].
Qed.

Lemma done_ids_NoDup (m : list (string * bool)) :
  NoDup (fst <$> m) -> NoDup (done_ids m).
Proof.
  unfold done_ids. induction m as [|[k v] m IH]; simpl; [intros; apply NoDup_nil_2|].
  intros [Hk Hm]%NoDup_cons. rewrite filter_cons. simpl.
  destruct (decide (v = true)); [|apply IH, Hm].
  simpl. apply NoDup_cons. split; [|apply IH, Hm].
  intros Hin. apply Hk. apply list_elem_of_fmap in Hin as ([k' v'] & -> & Hin).
  apply list_elem_of_filter in Hin as [_ Hin].
  apply list_elem_of_fmap. exists (k', v'). split; [reflexivity|exact Hin].
Qed.

Lemma done_ids_elem (m : list (string * bool)) (l : string) :
  l ∈ done_ids m <-> (l, true) ∈ m.
Proof.
  unfold done_ids. rewrite list_elem_of_fmap. split.
  - intros ([k v] & -> & [Hv Hin]%list_elem_of_filter). simpl in *. subst v. exact Hin.
  - intros Hin. exists (l, true). split; [reflexivity|].
    apply list_elem_of_filter. split; [reflexivity|exact Hin].
Qed.

(** The ids counted after a sequence of writes from no row are the
    distinct lecture ids whose latest write is completed, each once. *)
Lemma done_ids_completed_latest (calls : list (ProgressUpdate * Z)) :
  NoDup (done_ids (foldl write_call [] calls))
  ∧ done_ids (foldl write_call [] calls) ≡ₚ completed_latest calls.
Proof.
  destruct (write_calls_spec calls) as [Hnd Hel].
  assert (Hnd' := done_ids_NoDup _ Hnd). split; [exact Hnd'|].
  apply NoDup_Permutation; [exact Hnd'| |].
  - unfold completed_latest. apply NoDup_filter, NoDup_remove_dups.
  - intros l. rewrite done_ids_elem, Hel. unfold completed_latest.
    rewrite list_elem_of_filter, elem_of_remove_dups. split.
    + intros H. split; [exact H|]. apply (latest_write_Some_elem _ _ _ H).
    + intros [H _]. exact H.
Qed.

(** ** [updateLectureProgress] on a known course *)

Lemma cp_set_key u c ids percent now p :
  cp_key u c p -> cp_key u c (cp_set ids percent now p).
Proof. intros H. exact H. Qed.

Lemma cp_new_key i u c ids percent now : cp_key u c (cp_new i u c ids percent now).
Proof. split; reflexivity. Qed.

(** One request on a course that resolves: the row is upserted, the
    completed rows of the user and course are listed from the collection
    as it is after the upsert, and the summary row is upserted with that
    list and its percentage. *)
Lemma update_lecture_progress_ok (st : Store) (course_id : string)
    (update : ProgressUpdate) (user : User) (now : Z) (course : Course) :
  valid_oid course_id = true ->
  find_one (course_key (PyStr.lower course_id)) (db_course st) = Some course ->
  exists st' resp row,
    update_lecture_progress course_id update user now st = (st', Ok resp)
    ∧ db_course st' = db_course st
    ∧ db_lectureprogress st'
      = update_one (lp_key (user__id user) course_id (pu_lecture_id update))
          (lp_set update now)
          (lp_new (fresh_id st) (user__id user) course_id update now)
          (db_lectureprogress st)
    ∧ pr_completed resp
      = lp_lecture_id <$> filter (lp_done (user__id user) course_id)
                                 (db_lectureprogress st')
    ∧ pr_percentage resp
      = PyFloat.percent_of (Z.of_nat (length (pr_completed resp)))
                           (len_or_1 (playlist course))
    ∧ find_one (cp_key (user__id user) course_id) (db_courseprogress st') = Some row
    ∧ completed_lecture_ids row = pr_completed resp
    ∧ percentage row = pr_percentage resp.
Proof.
  intros Hoid Hc.
  unfold update_lecture_progress, upsert_lecture, upsert_summary, find_course, find.
  unfold_monad. rewrite oid_valid by assumption.
  cbn [db_course set_lectureprogress db_lectureprogress db_courseprogress next_id].
  rewrite Hc.
  cbn [db_course set_lectureprogress db_lectureprogress db_courseprogress next_id].
  set (rows' := update_one _ _ _ (db_lectureprogress st)).
  set (ids := lp_lecture_id <$> filter (lp_done (user__id user) course_id) rows').
  set (pct := PyFloat.percent_of _ _).
  do 3 eexists. split; [reflexivity|].
  cbn [db_course set_courseprogress db_lectureprogress db_courseprogress
       pr_completed pr_percentage].
  do 4 (split; [reflexivity|]). split.
  - apply find_one_update_one; [apply cp_set_key | apply cp_new_key].
  - destruct (find_one _ (db_courseprogress st)); split; reflexivity.
Qed.

(** Successive requests: the courses are untouched, the rows follow the
    writes, and the last answer and the stored summary list the lectures
    whose state is completed. *)
Lemma run_updates_spec (course_id : string) (user : User) (course : Course)
    (calls : list (ProgressUpdate * Z)) :
  valid_oid course_id = true ->
  forall st,
  find_one (course_key (PyStr.lower course_id)) (db_course st) = Some course ->
  exists st' resps,
    run_updates course_id user calls st = (st', resps)
    ∧ db_course st' = db_course st
    ∧ lecture_states (user__id user) course_id (db_lectureprogress st')
      = foldl write_call
          (lecture_states (user__id user) course_id (db_lectureprogress st)) calls
    ∧ (calls ≠ [] ->
       exists resp row,
         last resps = Some (Ok resp)
         ∧ pr_completed resp
           = done_ids (lecture_states (user__id user) course_id
                                      (db_lectureprogress st'))
         ∧ pr_percentage resp
           = PyFloat.percent_of (Z.of_nat (length (pr_completed resp)))
                                (len_or_1 (playlist course))
         ∧ find_one (cp_key (user__id user) course_id) (db_courseprogress st')
           = Some row
         ∧ completed_lecture_ids row = pr_completed resp
         ∧ percentage row = pr_percentage resp).
Proof.
  intros Hoid. induction calls as [|[update now] calls IH]; intros st Hc.
  - exists st, []. repeat split; try reflexivity. intros H. contradiction.
  - destruct (update_lecture_progress_ok st course_id update user now course Hoid Hc)
      as (st1 & resp1 & row1 & Hrun1 & Hc1 & Hrows1 & Hids1 & Hpct1 & Hrow1 & Hri1 & Hrp1).
    assert (Hc1' : find_one (course_key (PyStr.lower course_id)) (db_course st1)
                   = Some course) by (rewrite Hc1; exact Hc).
    destruct (IH st1 Hc1') as (st2 & resps & Hrun2 & Hc2 & Hst2 & Hlast2).
    exists st2, (Ok resp1 :: resps). simpl. rewrite Hrun1, Hrun2.
    split; [reflexivity|]. split; [congruence|].
    assert (Hst1 : lecture_states (user__id user) course_id (db_lectureprogress st1)
                   = write_call (lecture_states (user__id user) course_id
                                                (db_lectureprogress st))
                                (update, now)).
    { rewrite Hrows1. apply lecture_states_update_one. }
    split; [rewrite Hst2, Hst1; reflexivity|].
    intros _. destruct calls as [|call calls].
    + simpl in Hrun2. injection Hrun2 as <- <-.
      exists resp1, row1. simpl. split; [reflexivity|].
      split; [rewrite Hids1; apply done_ids_lecture_states|].
      repeat split; assumption.
    + destruct Hlast2 as (resp & row & Hl & H); [discriminate|].
      exists resp, row. split; [|exact H].
      destruct resps as [|r resps]; [discriminate|]. exact Hl.
Qed.

(** C2, as the code has it. From a store with no per-lecture row for the
    user and course, after any non-empty sequence of requests on a course
    with N playlist lectures, the returned and the stored percentage are
    [round(100 * K / max(1, N), 2)] where K is the number of distinct
    lecture ids, in the playlist or not, whose latest write has
    [completed = true]; each such id is listed once, so writing a lecture
    as completed again does not count it twice. *)
Theorem progress_percentage_latest_writes (st : Store) (course_id : string)
    (user : User) (course : Course) (calls : list (ProgressUpdate * Z)) :
  valid_oid course_id = true ->
  find_one (course_key (PyStr.lower course_id)) (db_course st) = Some course ->
  filter (lp_of (user__id user) course_id) (db_lectureprogress st) = [] ->
  calls ≠ [] ->
  exists st' resps resp row,
    run_updates course_id user calls st = (st', resps)
    ∧ last resps = Some (Ok resp)
    ∧ NoDup (pr_completed resp)
    ∧ pr_completed resp ≡ₚ completed_latest calls
    ∧ pr_percentage resp
      = PyFloat.percent_of (Z.of_nat (length (completed_latest calls)))
          (Z.max 1 (Z.of_nat (length (playlist course))))
    ∧ find_one (cp_key (user__id user) course_id) (db_courseprogress st') = Some row
    ∧ percentage row = pr_percentage resp.
Proof.
  intros Hoid Hc Hempty Hcalls.
  destruct (run_updates_spec course_id user course calls Hoid st Hc)
    as (st' & resps & Hrun & _ & Hst & Hlast).
  destruct (Hlast Hcalls) as (resp & row & Hl & Hids & Hpct & Hrow & _ & Hrp).
  unfold lecture_states at 2 in Hst. rewrite Hempty in Hst. simpl in Hst.
  rewrite Hst in Hids.
  destruct (done_ids_completed_latest calls) as [Hnd Hperm].
  exists st', resps, resp, row. split; [exact Hrun|]. split; [exact Hl|].
  rewrite Hids. split; [exact Hnd|]. split; [exact Hperm|].
  split; [|split; assumption].
  rewrite Hpct, Hids, len_or_1_max, (Permutation_length Hperm). reflexivity.
Qed.

Lemma progress_percentage_latest_writes_witness :
  valid_oid course_a = true
  ∧ find_one (course_key (PyStr.lower course_a)) (db_course store0)
    = Some (sample_course course_a)
  ∧ filter (lp_of (user__id alice) course_a) (db_lectureprogress store0) = []
  ∧ scenario_calls ≠ []
  ∧ exists st' resps resp row,
      run_updates course_a alice scenario_calls store0 = (st', resps)
      ∧ last resps = Some (Ok resp)
      ∧ NoDup (pr_completed resp)
      ∧ pr_completed resp ≡ₚ completed_latest scenario_calls
      ∧ pr_percentage resp
        = PyFloat.percent_of (Z.of_nat (length (completed_latest scenario_calls)))
            (Z.max 1 (Z.of_nat (length (playlist (sample_course course_a)))))
      ∧ find_one (cp_key (user__id alice) course_a) (db_courseprogress st') = Some row
      ∧ percentage row = pr_percentage resp.
Proof.
  split; [reflexivity|]. split; [reflexivity|]. split; [reflexivity|].
  split; [discriminate|].
  apply (progress_percentage_latest_writes store0 course_a alice
           (sample_course course_a) scenario_calls);
    [reflexivity | reflexivity | reflexivity | discriminate].
Defined.

Example progress_scenario :
  (fun r => match r with Ok resp => Some (pr_percentage resp) | Err _ _ => None end)
    <$> snd (run_updates course_a alice scenario_calls store0)
  = [Some (PyFloat.centi 3333); Some (PyFloat.centi 6667); Some (PyFloat.centi 6667)].
Proof. vm_compute. reflexivity. Qed.

(** A completed lecture id outside the playlist is counted too: with one
    playlist lecture completed and one foreign id completed, the
    percentage on the three-lecture course is 66.67, not 33.33. *)
Lemma progress_counts_outside_playlist :
  let calls := [(mark "lec1" true, 1); (mark "bonus" true, 2)] in
  exists st' resps resp,
    run_updates course_a alice calls store0 = (st', resps)
    ∧ last resps = Some (Ok resp)
    ∧ filter (fun l => l ∈ (lecture_id <$> playlist (sample_course course_a)))
             (completed_latest calls) = ["lec1"]
    ∧ pr_percentage resp = PyFloat.centi 6667
    ∧ pr_percentage resp
      ≠ PyFloat.percent_of 1
          (Z.max 1 (Z.of_nat (length (playlist (sample_course course_a))))).
Proof.
  intros calls. do 3 eexists. split; [vm_compute; reflexivity|].
  split; [reflexivity|]. split; [vm_compute; reflexivity|].
  split; [reflexivity|]. vm_compute. discriminate.
Qed.

(** C10. The aggregate lists every completed row of the user and course,
    whether or not its lecture is in the playlist: a request completing a
    lecture id outside the playlist returns and stores a list holding
    that id.  Hence the percentage can exceed 100: four ids completed on
    the three-lecture course give 133.33. *)
Theorem aggregate_counts_any_lecture :
  (forall (st : Store) (course_id : string) (update : ProgressUpdate)
          (user : User) (now : Z) (course : Course),
     valid_oid course_id = true ->
     find_one (course_key (PyStr.lower course_id)) (db_course st) = Some course ->
     pu_completed update = true ->
     pu_lecture_id update ∉ (lecture_id <$> playlist course) ->
     exists st' resp row,
       update_lecture_progress course_id update user now st = (st', Ok resp)
       ∧ pr_completed resp
         = lp_lecture_id <$> filter (lp_done (user__id user) course_id)
                                    (db_lectureprogress st')
       ∧ pu_lecture_id update ∈ pr_completed resp
       ∧ find_one (cp_key (user__id user) course_id) (db_courseprogress st') = Some row
       ∧ completed_lecture_ids row = pr_completed resp
       ∧ percentage row = pr_percentage resp)
  ∧ (exists st' resps resp row,
       run_updates course_a alice overfull_calls store0 = (st', resps)
       ∧ last resps = Some (Ok resp)
       ∧ pr_percentage resp = PyFloat.centi 13333
       ∧ (inject_Z 100 < pr_percentage resp)%Q
       ∧ find_one (cp_key (user__id alice) course_a) (db_courseprogress st') = Some row
       ∧ (inject_Z 100 < percentage row)%Q).
Proof.
  split.
  - intros st course_id update user now course Hoid Hc Hdone _.
    destruct (update_lecture_progress_ok st course_id update user now course Hoid Hc)
      as (st' & resp & row & Hrun & _ & Hrows & Hids & _ & Hrow & Hri & Hrp).
    exists st', resp, row. split; [exact Hrun|]. split; [exact Hids|].
    split; [|repeat split; assumption].
    rewrite Hids, Hrows.
    set (key := lp_key (user__id user) course_id (pu_lecture_id update)).
    pose proof (find_one_update_one key (lp_set update now)
                  (lp_new (fresh_id st) (user__id user) course_id update now)
                  (db_lectureprogress st)
                  (lp_set_key _ _ _ update now)
                  (lp_new_key (fresh_id st) (user__id user) course_id update now))
      as Hfind.
    apply find_one_Some in Hfind as [Hin (Hu & Hcid & Hl)].
    apply list_elem_of_fmap. eexists. split; [symmetry; exact Hl|].
    apply list_elem_of_filter. split; [|exact Hin].
    repeat split; try assumption.
    destruct (find_one key (db_lectureprogress st)); exact Hdone.
  - do 4 eexists. split; [vm_compute; reflexivity|].
    split; [reflexivity|]. split; [reflexivity|].
    split; [reflexivity|]. split; reflexivity.
Qed.

Lemma aggregate_counts_any_lecture_witness :
  valid_oid course_a = true
  ∧ find_one (course_key (PyStr.lower course_a)) (db_course store0)
    = Some (sample_course course_a)
  ∧ ("lec4" ∉ (lecture_id <$> playlist (sample_course course_a)))
  ∧ exists st' resp row,
      update_lecture_progress course_a (mark "lec4" true) alice 4 store0
      = (st', Ok resp)
      ∧ pr_completed resp
        = lp_lecture_id <$> filter (lp_done (user__id alice) course_a)
                                   (db_lectureprogress st')
      ∧ "lec4" ∈ pr_completed resp
      ∧ find_one (cp_key (user__id alice) course_a) (db_courseprogress st') = Some row
      ∧ completed_lecture_ids row = pr_completed resp
      ∧ percentage row = pr_percentage resp.
Proof.
  assert (Hout : "lec4" ∉ (lecture_id <$> playlist (sample_course course_a))).
  { simpl. rewrite !not_elem_of_cons. repeat split; try discriminate.
    apply not_elem_of_nil. }
  split; [reflexivity|]. split; [reflexivity|]. split; [exact Hout|].
  apply (proj1 aggregate_counts_any_lecture store0 course_a (mark "lec4" true)
           alice 4 (sample_course course_a));
    [reflexivity | reflexivity | reflexivity | exact Hout].
Defined.

(** ** Chatbot: keywords, stripping and case *)

Lemma contains_unfold (k s : string) :
  PyStr.contains k s
  = PyStr.startswith k s
    || match s with
       | EmptyString => false
       | String _ s' => PyStr.contains k s'
       end.
Proof. destruct s; reflexivity. Qed.

Lemma append_empty_r (s : string) : s +:+ EmptyString = s.
Proof. induction s as [|c s IH]; simpl; [reflexivity|]. rewrite IH. reflexivity. Qed.

Lemma smap_append (f : ascii -> ascii) (a b : string) :
  PyStr.smap f (a +:+ b) = PyStr.smap f a +:+ PyStr.smap f b.
Proof. induction a as [|c a IH]; simpl; [reflexivity|]. rewrite IH. reflexivity. Qed.

Lemma lstrip_split (s : string) :
  exists w, s = w +:+ PyStr.lstrip s ∧ PyStr.all_chars PyStr.is_space w = true.
Proof.
  induction s as [|c s (w & Hs & Hw)]; simpl.
  - exists EmptyString. split; reflexivity.
  - destruct (PyStr.is_space c) eqn:Hc.
    + exists (String c w). simpl. rewrite Hc, Hw, <- Hs. split; reflexivity.
    + exists EmptyString. split; reflexivity.
Qed.

Lemma rstrip_split (s : string) :
  exists w, s = PyStr.rstrip s +:+ w ∧ PyStr.all_chars PyStr.is_space w = true.
Proof.
  induction s as [|c s (w & Hs & Hw)]; simpl.
  - exists EmptyString. split; reflexivity.
  - destruct (PyStr.rstrip s) as [|d t] eqn:Hr.
    + simpl in Hs. subst w. destruct (PyStr.is_space c) eqn:Hc.
      * exists (String c s). simpl. rewrite Hc, Hw. split; reflexivity.
      * exists s. split; [reflexivity|exact Hw].
    + exists w. simpl. rewrite Hs at 1. split; [reflexivity|exact Hw].
Qed.

Lemma strip_split (s : string) :
  exists w1 w2,
    s = w1 +:+ PyStr.strip s +:+ w2
    ∧ PyStr.all_chars PyStr.is_space w1 = true
    ∧ PyStr.all_chars PyStr.is_space w2 = true.
Proof.
  destruct (lstrip_split s) as (w1 & Hs & Hw1).
  destruct (rstrip_split (PyStr.lstrip s)) as (w2 & Ht & Hw2).
  exists w1, w2. unfold PyStr.strip. rewrite <- Ht. repeat split; assumption.
Qed.

Lemma lower_ascii_space (a : ascii) :
  PyStr.is_space a = true -> PyStr.is_space (PyStr.lower_ascii a) = true.
Proof.
  destruct a as [[] [] [] [] [] [] [] []]; vm_compute; intros H;
    first [reflexivity | discriminate H].
Qed.

Section Padding.
(** A class [P] of characters none of which occurs in the non-empty
    keyword [k]: padding a string with such characters, before or after,
    neither creates nor destroys an occurrence of [k]. *)
Variable P : ascii -> bool.
Variable k : string.
Hypothesis k_free : PyStr.all_chars (fun a => negb (P a)) k = true.
Hypothesis k_nonempty : k ≠ EmptyString.

Lemma startswith_padding_false (a : ascii) (s : string) :
  P a = true -> PyStr.startswith k (String a s) = false.
Proof.
  intros Ha. destruct k as [|c k']; [contradiction|]. simpl in *.
  apply andb_true_iff in k_free as [Hc _].
  destruct (Ascii.eqb_spec c a) as [->|]; [|reflexivity].
  rewrite Ha in Hc. discriminate.
Qed.

Lemma contains_padding_l (w s : string) :
  PyStr.all_chars P w = true -> PyStr.contains k (w +:+ s) = PyStr.contains k s.
Proof.
  induction w as [|a w IH]; simpl; [reflexivity|].
  intros [Ha Hw]%andb_true_iff.
  change (PyStr.startswith k (String a (w +:+ s)) || PyStr.contains k (w +:+ s)
          = PyStr.contains k s).
  rewrite startswith_padding_false by assumption. simpl. apply IH, Hw.
Qed.

Lemma startswith_padding_r (w : string) :
  PyStr.all_chars P w = true ->
  forall k' s, PyStr.all_chars (fun a => negb (P a)) k' = true ->
  PyStr.startswith k' (s +:+ w) = PyStr.startswith k' s.
Proof.
  intros Hw. induction k' as [|c k' IH]; intros s Hk; [destruct s; reflexivity|].
  simpl in Hk. apply andb_true_iff in Hk as [Hc Hk'].
  destruct s as [|b s]; simpl.
  - destruct w as [|a w]; [reflexivity|]. simpl in *.
    apply andb_true_iff in Hw as [Ha _].
    destruct (Ascii.eqb_spec c a) as [->|]; [|reflexivity].
    rewrite Ha in Hc. discriminate.
  - destruct (Ascii.eqb c b); [apply IH, Hk'|reflexivity].
Qed.

Lemma contains_padding_r (w s : string) :
  PyStr.all_chars P w = true -> PyStr.contains k (s +:+ w) = PyStr.contains k s.
Proof.
  intros Hw. induction s as [|b s IH].
  - simpl. rewrite <- (append_empty_r w), contains_padding_l by assumption.
    reflexivity.
  - change (PyStr.startswith k (String b s +:+ w) || PyStr.contains k (s +:+ w)
            = PyStr.startswith k (String b s) || PyStr.contains k s).
    rewrite IH, (startswith_padding_r w Hw k (String b s) k_free). reflexivity.
Qed.

End Padding.

(** Stripping the message does not change which keyword it holds. *)
Lemma contains_lower_strip (k message : string) :
  PyStr.all_chars (fun a => negb (PyStr.is_space a)) k = true ->
  k ≠ EmptyString ->
  PyStr.contains k (PyStr.lower (PyStr.strip message))
  = PyStr.contains k (PyStr.lower message).
Proof.
  intros Hk Hne. destruct (strip_split message) as (w1 & w2 & Hs & Hw1 & Hw2).
  rewrite Hs at 2. unfold PyStr.lower. rewrite !smap_append.
  rewrite (contains_padding_l PyStr.is_space k Hk Hne),
          (contains_padding_r PyStr.is_space k Hk Hne); [reflexivity| |];
    apply (all_chars_smap PyStr.is_space); auto using lower_ascii_space.
Qed.

Lemma startswith_append_contains (a b s : string) :
  PyStr.startswith (a +:+ b) s = true -> PyStr.contains b s = true.
Proof.
  revert s. induction a as [|c a IH]; intros s; simpl.
  - intros H. rewrite contains_unfold, H. reflexivity.
  - destruct s as [|d s]; [discriminate|]. destruct (Ascii.eqb c d); [|discriminate].
    intros H. rewrite contains_unfold, (IH s H). apply orb_true_r.
Qed.

(** A string that holds [a ++ b] holds [b]. *)
Lemma contains_append (a b s : string) :
  PyStr.contains (a +:+ b) s = true -> PyStr.contains b s = true.
Proof.
  induction s as [|d s IH]; rewrite contains_unfold.
  - rewrite orb_false_r. apply startswith_append_contains.
  - intros [H|H]%orb_true_iff; [apply (startswith_append_contains a), H|].
    rewrite contains_unfold, (IH H). apply orb_true_r.
Qed.

Lemma state_rule (p : string) :
  PyStr.contains "state" p || PyStr.contains "use state" p = PyStr.contains "state" p.
Proof.
  destruct (PyStr.contains "state" p) eqn:H1; [reflexivity|]. simpl.
  destruct (PyStr.contains "use state" p) eqn:H2; [|reflexivity].
  rewrite <- H1. symmetry. apply (contains_append "use " "state"), H2.
Qed.

Lemma rule_matches_one (message k tip : string) :
  rule_matches message ([k], tip) <-> PyStr.contains k (PyStr.lower message) = true.
Proof.
  unfold rule_matches. simpl. rewrite Exists_cons, Exists_nil. tauto.
Qed.

Lemma rule_matches_two (message k1 k2 tip : string) :
  rule_matches message ([k1; k2], tip)
  <-> PyStr.contains k1 (PyStr.lower message)
      || PyStr.contains k2 (PyStr.lower message) = true.
Proof.
  unfold rule_matches. simpl. rewrite !Exists_cons, Exists_nil, orb_true_iff. tauto.
Qed.

(** The reply of the handler is the reply of the rule table: the tips
    of the matching rules in table order joined by a space, or the
    generic tip when none matches. *)
Lemma chat_reply_expected (message : string) :
  chat_reply message = expected_reply message.
Proof.
  unfold chat_reply, expected_reply, rule_table.
  rewrite state_rule.
  rewrite !contains_lower_strip by (reflexivity || discriminate).
  rewrite !filter_cons, filter_nil.
  pose proof (rule_matches_one message "state" tip_state) as R1.
  pose proof (rule_matches_one message "effect" tip_effect) as R2.
  pose proof (rule_matches_two message "performance" "optimize" tip_performance) as R3.
  destruct (PyStr.contains "state" (PyStr.lower message));
    destruct (PyStr.contains "effect" (PyStr.lower message));
    destruct (PyStr.contains "performance" (PyStr.lower message)
              || PyStr.contains "optimize" (PyStr.lower message));
    repeat match goal with
      | |- context [decide (rule_matches message ?r)] =>
          first [ rewrite (decide_True (P := rule_matches message r)) by tauto
                | rewrite (decide_False (P := rule_matches message r))
                    by (intros ?; intuition discriminate) ]
      end;
    reflexivity.
Qed.

Lemma startswith_iff (k s : string) :
  PyStr.startswith k s = true <-> exists after, s = k +:+ after.
Proof.
  revert s. induction k as [|c k IH]; intros s; simpl.
  - split; [intros _; exists s; reflexivity|reflexivity].
  - destruct s as [|d s]; [split; [discriminate|intros [after H]; discriminate H]|].
    destruct (Ascii.eqb_spec c d) as [->|Hne].
    + rewrite IH. split; intros [after H]; exists after; [rewrite H; reflexivity|].
      injection H as H. exact H.
    + split; [discriminate|]. intros [after H]. injection H as H _. congruence.
Qed.

(** The search of the code finds [k] exactly when [k] occurs. *)
Lemma contains_iff (k s : string) : PyStr.contains k s = true <-> occurs_in k s.
Proof.
  unfold occurs_in. induction s as [|d s IH]; rewrite contains_unfold.
  - rewrite orb_false_r, startswith_iff. split.
    + intros [after H]. exists EmptyString, after. exact H.
    + intros ([|c before] & after & H); [exists after; exact H|discriminate H].
  - rewrite orb_true_iff, startswith_iff, IH. split.
    + intros [[after H]|(before & after & H)].
      * exists EmptyString, after. exact H.
      * exists (String d before), after. rewrite H. reflexivity.
    + intros ([|c before] & after & H).
      * left. exists after. exact H.
      * right. injection H as _ H. exists before, after. exact H.
Qed.

Lemma join_concat (sep : string) (parts : list string) :
  PyStr.join sep parts = String.concat sep parts.
Proof.
  induction parts as [|p parts IH]; [reflexivity|].
  destruct parts as [|q parts]; [reflexivity|].
  change (p +:+ sep +:+ PyStr.join sep (q :: parts)
          = p +:+ sep +:+ String.concat sep (q :: parts)).
  rewrite IH. reflexivity.
Qed.

Lemma rule_matches_occurs (message : string) (rule : list string * string) :
  rule_matches message rule
  <-> Exists (fun k => occurs_in k (PyStr.lower message)) (fst rule).
Proof.
  unfold rule_matches. rewrite !Exists_exists. split; intros (k & Hin & Hk);
    exists k; (split; [exact Hin|]); apply contains_iff; exact Hk.
Qed.

Lemma filter_rules_tips (message : string) (rules : list (list string * string)) :
  tips_of (PyStr.lower message) rules (snd <$> filter (rule_matches message) rules).
Proof.
  induction rules as [|[keywords tip] rules IH]; [constructor|].
  rewrite filter_cons. destruct (decide (rule_matches message (keywords, tip))) as [Hm|Hm].
  - rewrite fmap_cons. apply tips_of_match; [|exact IH].
    apply (rule_matches_occurs message (keywords, tip)), Hm.
  - apply tips_of_skip; [|exact IH].
    intros Hex. apply Hm, (rule_matches_occurs message (keywords, tip)), Hex.
Qed.

(** The reply of the handler, against the rules stated on their own:
    the tips of the rules whose keyword occurs in the lower-cased
    message, in table order, joined by one space; the generic tip when
    no rule matches. *)
Lemma chat_reply_tips (message : string) :
  exists tips,
    tips_of (PyStr.lower message) rule_table tips
    ∧ chat_reply message = reply_of tips.
Proof.
  exists (snd <$> filter (rule_matches message) rule_table).
  split; [apply filter_rules_tips|].
  rewrite chat_reply_expected. unfold expected_reply, reply_of.
  destruct (filter (rule_matches message) rule_table) as [|r rs]; [reflexivity|].
  rewrite join_concat. reflexivity.
Qed.

(** C8. The reply is made of the tips of the rules whose keyword ("state",
    "effect", "performance" or "optimize") occurs in the lower-cased
    message, in the order of the table and joined by one space; it is the
    generic tip when no rule matches.  With no course id the references
    are empty; with a well-formed course id that resolves there are at
    most two, they carry the ids and the titles of the first two playlist
    items in order, and each has the timestamp 60. *)
Theorem chatbot_reply_and_references (st : Store) (req : ChatRequest) (user : User)
    (now : Z) :
  (chat_course_id req = None ->
   exists st' tips,
     chatbot req user now st
     = (st', Ok {| reply := reply_of tips; references := [] |})
     ∧ tips_of (PyStr.lower (chat_message req)) rule_table tips)
  ∧ (forall cid course,
       chat_course_id req = Some cid ->
       cid ≠ EmptyString ->
       valid_oid cid = true ->
       find_one (course_key (PyStr.lower cid)) (db_course st) = Some course ->
       exists st' tips refs,
         chatbot req user now st
         = (st', Ok {| reply := reply_of tips; references := refs |})
         ∧ tips_of (PyStr.lower (chat_message req)) rule_table tips
         ∧ (length refs <= 2)%nat
         ∧ ref_lecture_id <$> refs = lecture_id <$> firstn 2 (playlist course)
         ∧ ref_title <$> refs = lecture_title <$> firstn 2 (playlist course)
         ∧ Forall (fun r => suggested_timestamp r = 60) refs).
Proof.
  destruct (chat_reply_tips (chat_message req)) as (tips & Htips & Hreply).
  split.
  - intros Hnone. unfold chatbot, insert_chatlog. unfold_monad.
    rewrite Hnone, Hreply. eexists. exists tips. split; [reflexivity|exact Htips].
  - intros cid course Hcid Hne Hoid Hc.
    unfold chatbot, insert_chatlog, find_course. unfold_monad.
    rewrite Hcid, Hreply.
    destruct (String.eqb_spec cid EmptyString) as [->|_]; [contradiction|].
    rewrite oid_valid by assumption. rewrite Hc.
    eexists. exists tips, (reference_of <$> firstn 2 (playlist course)).
    split; [reflexivity|]. split; [exact Htips|]. split.
    + rewrite length_fmap, length_firstn. lia.
    + split; [|split].
      * rewrite <- list_fmap_compose. reflexivity.
      * rewrite <- list_fmap_compose. reflexivity.
      * apply Forall_fmap, Forall_forall. intros lec _. reflexivity.
Qed.

Lemma chatbot_reply_and_references_witness :
  let req := {| chat_course_id := Some course_a; chat_user_id := None;
                chat_message := "  How to Optimize State? " |} in
  find_one (course_key (PyStr.lower course_a)) (db_course store0)
  = Some (sample_course course_a)
  ∧ exists st' tips refs,
      chatbot req alice 5 store0
      = (st', Ok {| reply := reply_of tips; references := refs |})
      ∧ tips_of (PyStr.lower (chat_message req)) rule_table tips
      ∧ reply_of tips
        = "Remember: useState returns [value, setValue]. Update state immutably. Consider useMemo/useCallback to memoize expensive calculations and handlers."
      ∧ refs
        = [ {| ref_lecture_id := "lec1"; ref_title := "Welcome & Setup";
               suggested_timestamp := 60 |};
            {| ref_lecture_id := "lec2"; ref_title := "Components & Props";
               suggested_timestamp := 60 |} ].
Proof.
  intros req. split; [reflexivity|].
  destruct (proj2 (chatbot_reply_and_references store0 req alice 5) course_a
              (sample_course course_a) eq_refl ltac:(discriminate) eq_refl eq_refl)
    as (st' & tips & refs & Hrun & Htips & _ & Hids & Htitles & Hts).
  assert (Hs : snd (chatbot req alice 5 store0)
               = Ok {| reply := reply_of tips; references := refs |})
    by (rewrite Hrun; reflexivity).
  vm_compute in Hs. injection Hs as Hreply Hrefs.
  exists st', tips, refs. split; [exact Hrun|]. split; [exact Htips|].
  split; [|symmetry; exact Hrefs].
  destruct tips as [|t ts]; (vm_compute; symmetry; exact Hreply).
Defined.

Example chatbot_two_tips :
  expected_reply "  How to Optimize State? "
  = tip_state +:+ " " +:+ tip_performance.
Proof. vm_compute. reflexivity. Qed.

Example chatbot_fallback : chat_reply "hello" = tip_generic.
Proof. vm_compute. reflexivity. Qed.

(** ** Passwords *)

Lemma split_no_dollar (s : string) :
  PyStr.all_chars not_dollar s = true -> PyStr.split "$" s = [s].
Proof.
  induction s as [|a s IH]; simpl; [reflexivity|].
  intros [Ha Hs]%andb_true_iff. unfold not_dollar in Ha.
  destruct (Ascii.eqb a "$"); [discriminate|]. rewrite (IH Hs). reflexivity.
Qed.

Lemma split_at_dollar (x y : string) :
  PyStr.all_chars not_dollar x = true ->
  PyStr.split "$" (x +:+ String "$" y) = x :: PyStr.split "$" y.
Proof.
  induction x as [|a x IH]; simpl; [reflexivity|].
  intros [Ha Hx]%andb_true_iff. unfold not_dollar in Ha.
  destruct (Ascii.eqb a "$"); [discriminate|]. rewrite (IH Hx). reflexivity.
Qed.

Lemma hex_lower_not_dollar (a : ascii) :
  PyStr.is_hex_lower a = true -> not_dollar a = true.
Proof.
  destruct a as [[] [] [] [] [] [] [] []]; vm_compute; intros H;
    first [reflexivity | discriminate H].
Qed.

Lemma all_chars_impl (P Q : ascii -> bool) (s : string) :
  (forall a, P a = true -> Q a = true) ->
  PyStr.all_chars P s = true -> PyStr.all_chars Q s = true.
Proof.
  intros HPQ. induction s as [|a s IH]; simpl; [reflexivity|].
  intros [Ha Hs]%andb_true_iff. rewrite (HPQ a Ha), (IH Hs). reflexivity.
Qed.

Lemma hex_of_no_dollar (w : nat) (z : Z) :
  PyStr.all_chars not_dollar (PyStr.hex_of w z) = true.
Proof.
  apply (all_chars_impl PyStr.is_hex_lower); [apply hex_lower_not_dollar|].
  apply hex_of_lower.
Qed.

(** What [verify_password] computes on a value made by [hash_password]:
    the comparison of the two digests under the stored salt. *)
Lemma verify_password_of_hash (rnd : Z) (p p2 : string) :
  verify_password p (hash_password rnd p2)
  = String.eqb (Sha256.hexdigest (token_hex 8 rnd +:+ p))
               (Sha256.hexdigest (token_hex 8 rnd +:+ p2)).
Proof.
  unfold verify_password, hash_password, token_hex.
  change ("$" +:+ ?d) with (String "$" d).
  rewrite split_at_dollar by apply hex_of_no_dollar.
  unfold Sha256.hexdigest at 1. rewrite split_no_dollar by apply hex_of_no_dollar.
  reflexivity.
Qed.

(** C6, as the code has it. A password verifies against every hash made
    from it; a password verifies against a hash made from another one
    exactly when the SHA-256 digests of salt + password coincide, so it is
    rejected whenever the two digests differ. *)
Theorem verify_password_hash_password (rnd : Z) (p p2 : string) :
  verify_password p (hash_password rnd p) = true
  ∧ (verify_password p (hash_password rnd p2) = true
     <-> Sha256.hexdigest (token_hex 8 rnd +:+ p)
         = Sha256.hexdigest (token_hex 8 rnd +:+ p2)).
Proof.
  rewrite !verify_password_of_hash. split.
  - apply String.eqb_refl.
  - apply String.eqb_eq.
Qed.

Lemma verify_password_hash_password_witness :
  verify_password "hunter2" (hash_password 255 "hunter2") = true
  ∧ verify_password "hunter3" (hash_password 255 "hunter2") = false.
Proof.
  split.
  - apply (proj1 (verify_password_hash_password 255 "hunter2" "hunter2")).
  - destruct (verify_password "hunter3" (hash_password 255 "hunter2")) eqn:E;
      [|reflexivity].
    apply (proj2 (verify_password_hash_password 255 "hunter3" "hunter2")) in E.
    vm_compute in E. discriminate E.
Defined.

(** ** SHA-256 is not injective *)

Lemma w32_range (x : Z) : 0 <= Sha256.w32 x < 2 ^ 32.
Proof. unfold Sha256.w32. apply Z.mod_pos_bound. reflexivity. Qed.

Lemma add_regs_ok (x y : Sha256.regs) : regs_ok (Sha256.add_regs x y).
Proof. unfold regs_ok, Sha256.add_regs. simpl. repeat split; apply w32_range. Qed.

Lemma H_init_ok : regs_ok Sha256.H_init.
Proof. unfold regs_ok. simpl. lia. Qed.

Lemma blocks_ok (fuel : nat) (h : Sha256.regs) (ws : list Z) :
  regs_ok h -> regs_ok (Sha256.blocks fuel h ws).
Proof.
  revert h ws. induction fuel as [|fuel IH]; intros h ws Hh; simpl; [exact Hh|].
  destruct ws as [|w ws]; [exact Hh|]. apply IH, add_regs_ok.
Qed.

(** A digest is a number below [2^256]. *)
Lemma digest_num_range (msg : list Z) : 0 <= Sha256.digest_num msg < 2 ^ 256.
Proof.
  unfold Sha256.digest_num, Sha256.digest_regs.
  pose proof (blocks_ok (length (Sha256.words_of (length (Sha256.pad msg)) (Sha256.pad msg)))
                Sha256.H_init
                (Sha256.words_of (length (Sha256.pad msg)) (Sha256.pad msg)) H_init_ok) as H.
  revert H. generalize (Sha256.blocks
    (length (Sha256.words_of (length (Sha256.pad msg)) (Sha256.pad msg)))
    Sha256.H_init (Sha256.words_of (length (Sha256.pad msg)) (Sha256.pad msg))).
  intros [a b c d e f g h]. unfold regs_ok, Sha256.regs_num. simpl.
  change (2 ^ 32) with 4294967296.
  change (2 ^ 256) with (4294967296 * 4294967296 * 4294967296 * 4294967296
                         * (4294967296 * 4294967296 * 4294967296 * 4294967296)).
  lia.
Qed.

Lemma search_below (f : N -> N) (v n : N) :
  (exists x, (x < n)%N ∧ f x = v) ∨ (forall x, (x < n)%N -> f x ≠ v).
Proof.
  induction n as [|n IH] using N.peano_ind.
  - right. intros x Hx. lia.
  - destruct IH as [(x & Hx & Hf)|Hno].
    + left. exists x. split; [lia|exact Hf].
    + destruct (N.eq_dec (f n) v) as [Hv|Hv].
      * left. exists n. split; [lia|exact Hv].
      * right. intros x Hx. destruct (N.eq_dec x n) as [->|Hne]; [exact Hv|].
        apply Hno. lia.
Qed.

(** Pigeonhole: [n + 1] arguments sent below [n] cannot all differ. *)
Lemma pigeonhole (n : N) :
  forall f : N -> N,
    (forall x, (x <= n)%N -> (f x < n)%N) ->
    exists x y, (x < y)%N ∧ (y <= n)%N ∧ f x = f y.
Proof.
  induction n as [|n IH] using N.peano_ind; intros f Hf.
  - specialize (Hf 0%N). lia.
  - destruct (search_below f (f (N.succ n)) (N.succ n)) as [(x & Hx & Hfx)|Hno].
    + exists x, (N.succ n). repeat split; [exact Hx|lia|exact Hfx].
    + set (v := f (N.succ n)) in *.
      assert (Hv : (v < N.succ n)%N) by (apply Hf; lia).
      destruct (IH (fun x => if N.eq_dec (f x) n then v else f x))
        as (x & y & Hxy & Hy & Hg).
      * intros x Hx. specialize (Hno x). specialize (Hf x).
        destruct (N.eq_dec (f x) n); lia.
      * exists x, y. split; [exact Hxy|]. split; [lia|].
        pose proof (Hno x) as Hx'. pose proof (Hno y) as Hy'.
        destruct (N.eq_dec (f x) n), (N.eq_dec (f y) n); lia.
Qed.

Lemma password_of_pos_inj (p q : positive) :
  password_of_pos p = password_of_pos q -> p = q.
Proof.
  revert q. induction p as [p IH|p IH|]; intros [q|q|]; simpl;
    try discriminate; try reflexivity.
  - intros [= H]. f_equal. apply IH, H.
  - intros [= H]. f_equal. apply IH, H.
Qed.

Lemma password_of_inj (m n : N) : password_of m = password_of n -> m = n.
Proof.
  destruct m as [|p], n as [|q]; simpl; try discriminate; try reflexivity.
  intros [= H]. f_equal. apply password_of_pos_inj, H.
Qed.

(** Two distinct passwords have the same digest under the salt of
    [rnd = 0], so the one verifies against the hash of the other. *)
Lemma verify_password_collision :
  exists p p2 : string,
    p ≠ p2 ∧ verify_password p (hash_password 0 p2) = true.
Proof.
  destruct (pigeonhole (2 ^ 256)%N
              (fun x => Z.to_N (Sha256.digest_num
                                  (PyStr.bytes_of (token_hex 8 0 +:+ password_of x)))))
    as (x & y & Hxy & _ & Hd).
  - intros x _. pose proof (digest_num_range
      (PyStr.bytes_of (token_hex 8 0 +:+ password_of x))) as H.
    change (2 ^ 256)%N with (Z.to_N (2 ^ 256)). lia.
  - exists (password_of x), (password_of y). split.
    + intros H%password_of_inj. lia.
    + rewrite verify_password_of_hash. apply String.eqb_eq.
      unfold Sha256.hexdigest. f_equal.
      pose proof (digest_num_range
        (PyStr.bytes_of (token_hex 8 0 +:+ password_of x))) as Hx.
      pose proof (digest_num_range
        (PyStr.bytes_of (token_hex 8 0 +:+ password_of y))) as Hy.
      apply Z2N.inj; lia.
Qed.

(** * Further properties of the handlers *)

(** ** Lookups in a collection that grows *)
Section CollectionGrowth.
Context {A : Type} (P : A -> Prop) `{!forall x, Decision (P x)}.

Lemma find_one_app_l (l l' : list A) (x : A) :
  find_one P l = Some x -> find_one P (l ++ l') = Some x.
Proof.
  induction l as [|y l IH]; [discriminate|]. simpl app.
  rewrite !find_one_cons. destruct (decide (P y)); [intros Hf; exact Hf|exact IH].
Qed.

Lemma find_one_app_r (l l' : list A) :
  find_one P l = None -> find_one P (l ++ l') = find_one P l'.
Proof.
  induction l as [|y l IH]; [reflexivity|]. simpl app.
  rewrite !find_one_cons. destruct (decide (P y)); [discriminate|exact IH].
Qed.

End CollectionGrowth.

(** ** Authentication *)

(** [require_auth] on a header that passes the scheme test. *)
Lemma require_auth_scheme_ok (a : string) (now : Z) (st : Store) :
  String.eqb a EmptyString || negb (PyStr.startswith "bearer " (PyStr.lower a)) = false ->
  require_auth (Some a) now st
  = match find_one (token_key (nth 1 (PyStr.split1 " " a) EmptyString)) (db_tokens st) with
    | None => (st, Err 401 "Invalid token")
    | Some tok =>
        if match expires_at tok with Some e => e <? now | None => false end
        then (st, Err 401 "Token expired")
        else match find_one (user_key (token_user_id tok)) (db_user st) with
             | None => (st, Err 401 "User not found")
             | Some user => (st, Ok user)
             end
    end.
Proof.
  intros Hs. unfold require_auth. rewrite Hs. unfold_monad.
  destruct (find_one (token_key _) (db_tokens st)) as [tok|]; [|reflexivity].
  destruct (match expires_at tok with Some e => e <? now | None => false end);
    [reflexivity|].
  destruct (find_one (user_key _) (db_user st)); reflexivity.
Qed.

Lemma require_auth_bearer (tk : string) (now : Z) (st : Store) :
  require_auth (Some ("Bearer " +:+ tk)) now st
  = match find_one (token_key tk) (db_tokens st) with
    | None => (st, Err 401 "Invalid token")
    | Some tok =>
        if match expires_at tok with Some e => e <? now | None => false end
        then (st, Err 401 "Token expired")
        else match find_one (user_key (token_user_id tok)) (db_user st) with
             | None => (st, Err 401 "User not found")
             | Some user => (st, Ok user)
             end
    end.
Proof.
  destruct (bearer_header tk) as (H0 & H1 & H2).
  rewrite require_auth_scheme_ok by (rewrite H0, H1; reflexivity).
  rewrite H2. reflexivity.
Qed.

(** X1. [require_auth] never writes: whatever the header and the instant,
    the store it leaves is the store it was given (an expired token stays
    in the collection), and a failure is always a 401. *)
Theorem require_auth_reads_only (authorization : option string) (now : Z) (st : Store) :
  fst (require_auth authorization now st) = st
  ∧ forall c d, snd (require_auth authorization now st) = Err c d -> c = 401.
Proof.
  destruct authorization as [a|]; [|split; [reflexivity|intros c d [= <- _]; reflexivity]].
  destruct (String.eqb a EmptyString
            || negb (PyStr.startswith "bearer " (PyStr.lower a))) eqn:Hs.
  - unfold require_auth. rewrite Hs.
    split; [reflexivity|intros c d [= <- _]; reflexivity].
  - rewrite require_auth_scheme_ok by assumption.
    destruct (find_one (token_key _) (db_tokens st)) as [tok|];
      [|split; [reflexivity|intros c d [= <- _]; reflexivity]].
    destruct (match expires_at tok with Some e => e <? now | None => false end);
      [split; [reflexivity|intros c d [= <- _]; reflexivity]|].
    destruct (find_one (user_key _) (db_user st));
      split; try reflexivity; intros c d; simpl; [discriminate|intros [= <- _]; reflexivity].
Qed.

(** X2. What a successful [require_auth] means: the header starts with
    the scheme, the text after its first space is the token string of a
    stored token whose expiry, if it has one, is not before [now], and
    the user returned is a stored user whose [_id] is the token's
    [user_id]. *)
Theorem require_auth_sound (authorization : option string) (now : Z) (st st' : Store)
    (user : User) :
  require_auth authorization now st = (st', Ok user) ->
  exists a tok,
    authorization = Some a
    ∧ PyStr.startswith "bearer " (PyStr.lower a) = true
    ∧ tok ∈ db_tokens st
    ∧ token tok = nth 1 (PyStr.split1 " " a) EmptyString
    ∧ (forall e, expires_at tok = Some e -> now <= e)
    ∧ user ∈ db_user st
    ∧ user__id user = token_user_id tok.
Proof.
  destruct authorization as [a|]; [|discriminate].
  destruct (String.eqb a EmptyString
            || negb (PyStr.startswith "bearer " (PyStr.lower a))) eqn:Hs.
  - unfold require_auth. rewrite Hs. discriminate.
  - rewrite require_auth_scheme_ok by assumption.
    destruct (find_one (token_key _) (db_tokens st)) as [tok|] eqn:Htok; [|discriminate].
    destruct (match expires_at tok with Some e => e <? now | None => false end) eqn:He;
      [discriminate|].
    destruct (find_one (user_key _) (db_user st)) as [u|] eqn:Hu; [|discriminate].
    intros [= _ ->]. apply find_one_Some in Htok as [Htin Htk].
    apply find_one_Some in Hu as [Huin Huk].
    apply orb_false_iff in Hs as [_ Hs]. apply negb_false_iff in Hs.
    exists a, tok. repeat split; try assumption.
    intros e Hexp. rewrite Hexp in He. apply Z.ltb_ge in He. exact He.
Qed.

Lemma require_auth_sound_witness :
  require_auth (Some "Bearer t-alice") 999 store0 = (store0, Ok alice)
  ∧ exists a tok,
      Some "Bearer t-alice" = Some a
      ∧ PyStr.startswith "bearer " (PyStr.lower a) = true
      ∧ tok ∈ db_tokens store0
      ∧ token tok = nth 1 (PyStr.split1 " " a) EmptyString
      ∧ (forall e, expires_at tok = Some e -> 999 <= e)
      ∧ alice ∈ db_user store0
      ∧ user__id alice = token_user_id tok.
Proof.
  split; [reflexivity|].
  apply (require_auth_sound (Some "Bearer t-alice") 999 store0 store0 alice).
  reflexivity.
Defined.

(** X3. A stored token without [expires_at] never expires: with its user
    in the store it is accepted at every instant. *)
Theorem require_auth_no_expiry (st : Store) (tk : string) (tok : Token) (user : User)
    (now : Z) :
  find_one (token_key tk) (db_tokens st) = Some tok ->
  expires_at tok = None ->
  find_one (user_key (token_user_id tok)) (db_user st) = Some user ->
  require_auth (Some ("Bearer " +:+ tk)) now st = (st, Ok user).
Proof.
  intros Htok He Hu. rewrite require_auth_bearer, Htok, He, Hu. reflexivity.
Qed.

Lemma require_auth_no_expiry_witness :
  find_one (token_key "t-open") (db_tokens store_open_token)
  = Some {| token := "t-open"; token_user_id := user__id alice;
            token_created_at := 0; expires_at := None |}
  ∧ require_auth (Some "Bearer t-open") (10 ^ 18) store_open_token
    = (store_open_token, Ok alice).
Proof.
  split; [reflexivity|].
  apply (require_auth_no_expiry store_open_token "t-open"
           {| token := "t-open"; token_user_id := user__id alice;
              token_created_at := 0; expires_at := None |} alice (10 ^ 18));
    reflexivity.
Defined.

Lemma lower_ascii_not_space (a : ascii) :
  not_space (PyStr.lower_ascii a) = not_space a.
Proof. destruct a as [[] [] [] [] [] [] [] []]; reflexivity. Qed.

Lemma lower_keeps_spaces (s : string) :
  PyStr.all_chars not_space (PyStr.lower s) = PyStr.all_chars not_space s.
Proof.
  induction s as [|a s IH]; simpl; [reflexivity|].
  rewrite lower_ascii_not_space. f_equal. exact IH.
Qed.

Lemma split1_at_space (x y : string) :
  PyStr.all_chars not_space x = true ->
  PyStr.split1 " " (x +:+ String " " y) = [x; y].
Proof.
  induction x as [|a x IH]; simpl; [reflexivity|].
  intros [Ha Hx]%andb_true_iff. unfold not_space in Ha.
  destruct (Ascii.eqb a " "); [discriminate|]. rewrite (IH Hx). reflexivity.
Qed.

Lemma startswith_append (p s : string) : PyStr.startswith p (p +:+ s) = true.
Proof.
  induction p as [|a p IH]; simpl; [reflexivity|].
  rewrite Ascii.eqb_refl. exact IH.
Qed.

(** X4. The scheme of the header is matched without regard to case: a
    header whose first word lower-cases to "bearer" is treated exactly as
    the header "Bearer " followed by the same token. *)
Theorem require_auth_scheme_case (scheme tk : string) (now : Z) (st : Store) :
  PyStr.lower scheme = "bearer" ->
  require_auth (Some (scheme +:+ " " +:+ tk)) now st
  = require_auth (Some ("Bearer " +:+ tk)) now st.
Proof.
  intros Hl.
  assert (Hns : PyStr.all_chars not_space scheme = true)
    by (rewrite <- lower_keeps_spaces, Hl; reflexivity).
  change (" " +:+ tk) with (String " " tk).
  rewrite require_auth_bearer, require_auth_scheme_ok.
  - rewrite split1_at_space by assumption. reflexivity.
  - apply orb_false_iff. split.
    + destruct scheme; [discriminate Hl|reflexivity].
    + apply negb_false_iff. unfold PyStr.lower in *. rewrite smap_append, Hl.
      apply (startswith_append "bearer " _).
Qed.

Lemma require_auth_scheme_case_witness :
  PyStr.lower "BEARER" = "bearer"
  ∧ require_auth (Some "BEARER t-alice") 5 store0
    = require_auth (Some "Bearer t-alice") 5 store0.
Proof.
  split; [reflexivity|].
  apply (require_auth_scheme_case "BEARER" "t-alice" 5 store0). reflexivity.
Defined.

(** ** Registration and login *)

(** [register] on an email that no stored user has. *)
Lemma register_new (req : RegisterRequest) (now rnd uuid : Z) (st : Store) :
  find_one (email_key (reg_email req)) (db_user st) = None ->
  register req now rnd uuid st
  = (set_tokens (db_tokens st ++ [new_token (uuid_str uuid) (fresh_id st) now])
       (next_id st + 1 + 1)
       (set_user (db_user st ++ [user_of_request req rnd (fresh_id st)])
                 (next_id st + 1) st),
     Ok {| auth_token := uuid_str uuid; auth_id := fresh_id st;
           auth_name := reg_name req; auth_email := reg_email req |}).
Proof.
  intros Hnew. unfold register, insert_user, insert_token. unfold_monad.
  rewrite Hnew. reflexivity.
Qed.

(** A successful [register] found no user with the email. *)
Lemma register_Ok_new (req : RegisterRequest) (now rnd uuid : Z) (st st1 : Store)
    (r : AuthResponse) :
  register req now rnd uuid st = (st1, Ok r) ->
  find_one (email_key (reg_email req)) (db_user st) = None.
Proof.
  unfold register. unfold_monad.
  destruct (find_one (email_key (reg_email req)) (db_user st)); [discriminate|reflexivity].
Qed.

(** X5. An email registers once: after a successful [register], every
    later [register] with the same email raises 400 "Email already
    registered" and leaves the store as it is. *)
Theorem register_email_once (req req2 : RegisterRequest) (now rnd uuid now2 rnd2 uuid2 : Z)
    (st st1 : Store) (r : AuthResponse) :
  register req now rnd uuid st = (st1, Ok r) ->
  reg_email req2 = reg_email req ->
  register req2 now2 rnd2 uuid2 st1 = (st1, Err 400 "Email already registered").
Proof.
  intros Hreg Hemail. pose proof (register_Ok_new _ _ _ _ _ _ _ Hreg) as Hnew.
  rewrite (register_new _ _ _ _ _ Hnew) in Hreg. injection Hreg as <- _.
  unfold register. unfold_monad. cbn [db_user set_tokens set_user]. rewrite Hemail.
  rewrite (find_one_app_r _ _ _ Hnew), find_one_cons, decide_True by reflexivity.
  reflexivity.
Qed.

Lemma register_email_once_witness :
  exists st1 r,
    register bob_request 5 255 (2 ^ 100) store0 = (st1, Ok r)
    ∧ register {| reg_name := "Robert"; reg_email := "bob@example.com";
                  reg_password := "other" |} 6 256 (2 ^ 101) st1
      = (st1, Err 400 "Email already registered").
Proof.
  do 2 eexists. split; [vm_compute; reflexivity|].
  eapply (register_email_once bob_request _ 5 255 (2 ^ 100) 6 256 (2 ^ 101) store0);
    [vm_compute; reflexivity | reflexivity].
Defined.

(** X6. The token returned by [register] authenticates as the new user
    for 48 hours, to the millisecond the store keeps of a date: provided
    the token string and the new [_id] were not already in use,
    [require_auth] with it returns the registered user at every instant
    up to one millisecond before [now + 48h], and raises 401 "Token
    expired" at every instant after [now + 48h]. *)
Theorem register_token_authenticates (req : RegisterRequest) (now rnd uuid : Z)
    (st st1 : Store) (r : AuthResponse) (t : Z) :
  register req now rnd uuid st = (st1, Ok r) ->
  find_one (token_key (uuid_str uuid)) (db_tokens st) = None ->
  find_one (user_key (fresh_id st)) (db_user st) = None ->
  (t <= now + hours 48 - 1000 ->
   require_auth (Some ("Bearer " +:+ auth_token r)) t st1
   = (st1, Ok (user_of_request req rnd (auth_id r))))
  ∧ (now + hours 48 < t ->
     require_auth (Some ("Bearer " +:+ auth_token r)) t st1
     = (st1, Err 401 "Token expired")).
Proof.
  intros Hreg Htk Hid. pose proof (register_Ok_new _ _ _ _ _ _ _ Hreg) as Hnew.
  rewrite (register_new _ _ _ _ _ Hnew) in Hreg. injection Hreg as <- <-.
  cbn [auth_token auth_id]. rewrite require_auth_bearer.
  cbn [db_tokens db_user set_tokens set_user].
  rewrite (find_one_app_r _ _ _ Htk), find_one_cons, decide_True by reflexivity.
  cbn [expires_at new_token token_user_id]. change TOKEN_TTL_HOURS with 48.
  rewrite (find_one_app_r _ _ _ Hid), find_one_cons, decide_True by reflexivity.
  split; intros Ht.
  - destruct (Z.ltb_spec (now + hours 48) t); [lia|reflexivity].
  - destruct (Z.ltb_spec (now + hours 48) t); [reflexivity|lia].
Qed.

Lemma register_token_authenticates_witness :
  exists st1 r,
    register bob_request 5 255 (2 ^ 100) store0 = (st1, Ok r)
    ∧ find_one (token_key (uuid_str (2 ^ 100))) (db_tokens store0) = None
    ∧ find_one (user_key (fresh_id store0)) (db_user store0) = None
    ∧ require_auth (Some ("Bearer " +:+ auth_token r)) (5 + hours 48 - 1000) st1
      = (st1, Ok (user_of_request bob_request 255 (auth_id r)))
    ∧ require_auth (Some ("Bearer " +:+ auth_token r)) (6 + hours 48) st1
      = (st1, Err 401 "Token expired").
Proof.
  do 2 eexists. split; [vm_compute; reflexivity|].
  split; [reflexivity|]. split; [reflexivity|]. split.
  - eapply (proj1 (register_token_authenticates bob_request 5 255 (2 ^ 100)
                     store0 _ _ (5 + hours 48 - 1000) _ _ _)). lia.
  - eapply (proj2 (register_token_authenticates bob_request 5 255 (2 ^ 100)
                     store0 _ _ (6 + hours 48) _ _ _)). lia.
  Unshelve. all: first [vm_compute; reflexivity | reflexivity].
Defined.

(** [login] on a stored user. *)
Lemma login_found (req : LoginRequest) (now uuid : Z) (st : Store) (user : User) :
  find_one (email_key (login_email req)) (db_user st) = Some user ->
  login req now uuid st
  = if verify_password (login_password req) (user_password_hash user)
    then (set_tokens (db_tokens st ++ [new_token (uuid_str uuid) (user__id user) now])
                     (next_id st + 1) st,
          Ok {| auth_token := uuid_str uuid; auth_id := user__id user;
                auth_name := user_name user; auth_email := user_email user |})
    else (st, Err 401 "Invalid credentials").
Proof.
  intros Hu. unfold login, insert_token. unfold_monad. rewrite Hu.
  destruct (verify_password _ _); reflexivity.
Qed.

(** X7. Register, then log in: after a successful [register], [login]
    with the same email and password succeeds and names the user just
    registered; with a password whose SHA-256 digest under the stored salt
    differs, it raises 401 "Invalid credentials" and issues no token. *)
Theorem register_then_login (req : RegisterRequest) (now rnd uuid now2 uuid2 : Z)
    (st st1 : Store) (r : AuthResponse) :
  register req now rnd uuid st = (st1, Ok r) ->
  (exists st2,
     login {| login_email := reg_email req; login_password := reg_password req |}
           now2 uuid2 st1
     = (st2, Ok {| auth_token := uuid_str uuid2; auth_id := auth_id r;
                   auth_name := reg_name req; auth_email := reg_email req |})
     ∧ db_tokens st2 = db_tokens st1 ++ [new_token (uuid_str uuid2) (auth_id r) now2])
  ∧ (forall password,
       Sha256.hexdigest (token_hex 8 rnd +:+ password)
       ≠ Sha256.hexdigest (token_hex 8 rnd +:+ reg_password req) ->
       login {| login_email := reg_email req; login_password := password |}
             now2 uuid2 st1
       = (st1, Err 401 "Invalid credentials")).
Proof.
  intros Hreg. pose proof (register_Ok_new _ _ _ _ _ _ _ Hreg) as Hnew.
  rewrite (register_new _ _ _ _ _ Hnew) in Hreg. injection Hreg as <- <-.
  set (st1 := set_tokens _ _ _).
  assert (Hu : find_one (email_key (reg_email req)) (db_user st1)
               = Some (user_of_request req rnd (fresh_id st))).
  { subst st1. cbn [db_user set_tokens set_user].
    rewrite (find_one_app_r _ _ _ Hnew), find_one_cons, decide_True by reflexivity.
    reflexivity. }
  split.
  - eexists.
    rewrite (login_found {| login_email := reg_email req;
                            login_password := reg_password req |} _ _ _ _ Hu).
    cbn [login_password user_password_hash user_of_request].
    rewrite verify_password_of_hash, String.eqb_refl. split; reflexivity.
  - intros password Hdiff.
    rewrite (login_found {| login_email := reg_email req;
                            login_password := password |} _ _ _ _ Hu).
    cbn [login_password user_password_hash user_of_request].
    rewrite verify_password_of_hash.
    destruct (String.eqb_spec (Sha256.hexdigest (token_hex 8 rnd +:+ password))
                (Sha256.hexdigest (token_hex 8 rnd +:+ reg_password req)));
      [contradiction|reflexivity].
Qed.

Lemma register_then_login_witness :
  exists st1 r,
    register bob_request 5 255 (2 ^ 100) store0 = (st1, Ok r)
    ∧ (exists st2,
         login {| login_email := "bob@example.com"; login_password := "hunter2" |}
               9 (2 ^ 101) st1
         = (st2, Ok {| auth_token := uuid_str (2 ^ 101); auth_id := auth_id r;
                       auth_name := "Bob"; auth_email := "bob@example.com" |})
         ∧ db_tokens st2
           = db_tokens st1 ++ [new_token (uuid_str (2 ^ 101)) (auth_id r) 9])
    ∧ login {| login_email := "bob@example.com"; login_password := "hunter3" |}
            9 (2 ^ 101) st1
      = (st1, Err 401 "Invalid credentials").
Proof.
  do 2 eexists. split; [vm_compute; reflexivity|].
  assert (Hreg : register bob_request 5 255 (2 ^ 100) store0
                 = (_, Ok _)) by (vm_compute; reflexivity).
  destruct (register_then_login bob_request 5 255 (2 ^ 100) 9 (2 ^ 101) store0 _ _ Hreg)
    as [H1 H2].
  split; [exact H1|]. apply (H2 "hunter3"). vm_compute. discriminate.
Defined.

(** X8. A login that fails writes nothing: whenever [login] raises, the
    status is 401, the detail "Invalid credentials", and the store is
    the one it was given (no token is issued); an email that no stored
    user has always fails so. *)
Theorem login_failure_writes_nothing (req : LoginRequest) (now uuid : Z) (st : Store) :
  (forall st' c d, login req now uuid st = (st', Err c d) ->
     st' = st ∧ c = 401 ∧ d = "Invalid credentials")
  ∧ (find_one (email_key (login_email req)) (db_user st) = None ->
     login req now uuid st = (st, Err 401 "Invalid credentials")).
Proof.
  split.
  - intros st' c d. unfold login, insert_token. unfold_monad.
    destruct (find_one (email_key (login_email req)) (db_user st)) as [user|].
    + destruct (verify_password _ _); simpl; [discriminate|].
      intros [= <- <- <-]. repeat split.
    + intros [= <- <- <-]. repeat split.
  - intros Hnone. unfold login. unfold_monad. rewrite Hnone. reflexivity.
Qed.

Lemma login_failure_writes_nothing_witness :
  find_one (email_key "nobody@example.com") (db_user store0) = None
  ∧ login {| login_email := "nobody@example.com"; login_password := "x" |} 5 7 store0
    = (store0, Err 401 "Invalid credentials").
Proof.
  split; [reflexivity|].
  apply (proj2 (login_failure_writes_nothing
                  {| login_email := "nobody@example.com"; login_password := "x" |}
                  5 7 store0)).
  reflexivity.
Defined.

(** A session outlives the growth of the token and user collections. *)
Lemma require_auth_grows (authorization : option string) (now : Z) (st st1 : Store)
    (user : User) (ts : list Token) (us : list User) :
  db_tokens st1 = db_tokens st ++ ts ->
  db_user st1 = db_user st ++ us ->
  require_auth authorization now st = (st, Ok user) ->
  require_auth authorization now st1 = (st1, Ok user).
Proof.
  intros Hts Hus. destruct authorization as [a|]; [|discriminate].
  destruct (String.eqb a EmptyString
            || negb (PyStr.startswith "bearer " (PyStr.lower a))) eqn:Hs.
  - unfold require_auth. rewrite Hs. discriminate.
  - rewrite !require_auth_scheme_ok by assumption. rewrite Hts, Hus.
    destruct (find_one (token_key _) (db_tokens st)) as [tok|] eqn:Htok; [|discriminate].
    rewrite (find_one_app_l _ _ _ _ Htok).
    destruct (match expires_at tok with Some e => e <? now | None => false end);
      [discriminate|].
    destruct (find_one (user_key _) (db_user st)) as [u|] eqn:Hu; [|discriminate].
    rewrite (find_one_app_l _ _ _ _ Hu). intros [= ->]. reflexivity.
Qed.

(** X9. Signing in does not end other sessions: a header that
    [require_auth] accepts before a successful [login] or [register] is
    accepted after it, at the same instant, for the same user. *)
Theorem sessions_survive_sign_in (authorization : option string) (t : Z)
    (st st1 : Store) (user : User) (r : AuthResponse) :
  require_auth authorization t st = (st, Ok user) ->
  (forall req now uuid,
     login req now uuid st = (st1, Ok r) ->
     require_auth authorization t st1 = (st1, Ok user))
  ∧ (forall req now rnd uuid,
       register req now rnd uuid st = (st1, Ok r) ->
       require_auth authorization t st1 = (st1, Ok user)).
Proof.
  intros Hauth. split.
  - intros req now uuid Hlogin. revert Hlogin. unfold login, insert_token. unfold_monad.
    destruct (find_one (email_key (login_email req)) (db_user st)) as [u|]; [|discriminate].
    destruct (verify_password _ _); simpl; [|discriminate].
    intros [= <- _].
    apply (require_auth_grows _ _ st _ _ [new_token (uuid_str uuid) (user__id u) now] []);
      [reflexivity | symmetry; apply app_nil_r | exact Hauth].
  - intros req now rnd uuid Hreg.
    pose proof (register_Ok_new _ _ _ _ _ _ _ Hreg) as Hnew.
    rewrite (register_new _ _ _ _ _ Hnew) in Hreg. injection Hreg as <- _.
    apply (require_auth_grows _ _ st _ _
             [new_token (uuid_str uuid) (fresh_id st) now]
             [user_of_request req rnd (fresh_id st)]);
      [reflexivity | reflexivity | exact Hauth].
Qed.

Lemma sessions_survive_sign_in_witness :
  exists st1 r,
    require_auth (Some "Bearer t-alice") 9 store0 = (store0, Ok alice)
    ∧ register bob_request 5 255 (2 ^ 100) store0 = (st1, Ok r)
    ∧ require_auth (Some "Bearer t-alice") 9 st1 = (st1, Ok alice).
Proof.
  do 2 eexists. split; [reflexivity|]. split; [vm_compute; reflexivity|].
  eapply (proj2 (sessions_survive_sign_in (Some "Bearer t-alice") 9 store0 _ alice _ _)
            bob_request 5 255 (2 ^ 100)).
  vm_compute. reflexivity.
  Unshelve. reflexivity.
Defined.

(** ** Stored password hashes *)

Lemma split_nonempty (c : ascii) (s : string) : PyStr.split c s ≠ [].
Proof.
  induction s as [|a s IH]; simpl; [discriminate|].
  destruct (Ascii.eqb a c); [discriminate|].
  destruct (PyStr.split c s); [contradiction|discriminate].
Qed.

(** Joining the parts of a split gives the string back. *)
Lemma join_split (s : string) : PyStr.join "$" (PyStr.split "$" s) = s.
Proof.
  induction s as [|a s IH]; simpl; [reflexivity|].
  pose proof (split_nonempty "$" s) as Hne.
  destruct (Ascii.eqb_spec a "$") as [->|Hne'].
  - destruct (PyStr.split "$" s) as [|p ps]; [contradiction|].
    change (PyStr.join "$" (EmptyString :: p :: ps))
      with (String "$" (PyStr.join "$" (p :: ps))).
    rewrite IH. reflexivity.
  - destruct (PyStr.split "$" s) as [|p ps]; [contradiction|].
    destruct ps as [|q ps].
    + simpl in *. rewrite IH. reflexivity.
    + change (PyStr.join "$" (String a p :: q :: ps))
        with (String a (PyStr.join "$" (p :: q :: ps))).
      rewrite IH. reflexivity.
Qed.

Lemma split_parts_no_dollar (s : string) :
  Forall (fun p => PyStr.all_chars not_dollar p = true) (PyStr.split "$" s).
Proof.
  induction s as [|a s IH]; simpl; [repeat constructor|].
  destruct (Ascii.eqb a "$") eqn:Ha; [constructor; [reflexivity|exact IH]|].
  destruct (PyStr.split "$" s) as [|p ps]; [repeat constructor; simpl|].
  - unfold not_dollar. rewrite Ha. reflexivity.
  - inversion IH; subst. constructor; [|assumption].
    simpl. unfold not_dollar at 1. rewrite Ha. simpl. assumption.
Qed.

(** X10. The value [hash_password] stores is 16 lower-case hexadecimal
    digits of salt, the delimiter, and 64 lower-case hexadecimal digits
    of digest, 81 characters in all; the digest is that of salt +
    password. *)
Theorem hash_password_format (rnd : Z) (password : string) :
  exists salt digest,
    hash_password rnd password = salt +:+ "$" +:+ digest
    ∧ String.length salt = 16%nat
    ∧ String.length digest = 64%nat
    ∧ PyStr.all_chars PyStr.is_hex_lower salt = true
    ∧ PyStr.all_chars PyStr.is_hex_lower digest = true
    ∧ digest = Sha256.hexdigest (salt +:+ password)
    ∧ String.length (hash_password rnd password) = 81%nat.
Proof.
  exists (token_hex 8 rnd), (Sha256.hexdigest (token_hex 8 rnd +:+ password)).
  unfold hash_password, token_hex, Sha256.hexdigest.
  split; [reflexivity|]. split; [apply length_hex_of|]. split; [apply length_hex_of|].
  split; [apply hex_of_lower|]. split; [apply hex_of_lower|]. split; [reflexivity|].
  rewrite !length_append, !length_hex_of. reflexivity.
Qed.

(** X11. [verify_password] accepts exactly the well-formed matches: it
    returns [True] if and only if the stored value is a salt and a digest
    around a single delimiter and the digest is that of salt + password.
    A stored value without the delimiter, or with more than one, is
    rejected, not an error. *)
Theorem verify_password_iff (password password_hash : string) :
  verify_password password password_hash = true
  <-> exists salt digest,
        password_hash = salt +:+ "$" +:+ digest
        ∧ PyStr.all_chars not_dollar salt = true
        ∧ PyStr.all_chars not_dollar digest = true
        ∧ digest = Sha256.hexdigest (salt +:+ password).
Proof.
  unfold verify_password. split.
  - pose proof (join_split password_hash) as Hj.
    pose proof (split_parts_no_dollar password_hash) as Hp.
    destruct (PyStr.split "$" password_hash) as [|salt [|digest [|x xs]]];
      try discriminate.
    intros He%String.eqb_eq. exists salt, digest.
    inversion Hp as [|? ? Hs Hp']; subst. inversion Hp' as [|? ? Hd _]; subst.
    repeat split; assumption.
  - intros (salt & digest & -> & Hs & Hd & ->).
    change ("$" +:+ ?d) with (String "$" d).
    rewrite (split_at_dollar _ _ Hs), (split_no_dollar _ Hd).
    apply String.eqb_refl.
Qed.

Example verify_password_malformed :
  verify_password "pw" "" = false
  ∧ verify_password "pw" "no-delimiter" = false
  ∧ verify_password "pw" "a$b$c" = false.
Proof. repeat split. Qed.

(** ** Per-lecture rows under [updateLectureProgress] *)

(** The rows a request leaves, whether it then succeeds or raises. *)
Lemma update_lecture_progress_rows (st : Store) (course_id : string)
    (update : ProgressUpdate) (user : User) (now : Z) :
  db_lectureprogress (fst (update_lecture_progress course_id update user now st))
  = update_one (lp_key (user__id user) course_id (pu_lecture_id update))
      (lp_set update now)
      (lp_new (fresh_id st) (user__id user) course_id update now)
      (db_lectureprogress st).
Proof.
  unfold update_lecture_progress, upsert_lecture, upsert_summary, find_course, oid.
  unfold_monad. destruct (valid_oid course_id); [|reflexivity].
  cbn [db_course set_lectureprogress].
  destruct (find_one (course_key (PyStr.lower course_id)) (db_course st)); reflexivity.
Qed.

Lemma update_one_keys (u c : string) (update : ProgressUpdate) (now : Z) (i : ObjectId)
    (rows : list LectureProgress) (k : string * string * string) :
  k ∈ lp_keyof <$> update_one (lp_key u c (pu_lecture_id update)) (lp_set update now)
                     (lp_new i u c update now) rows ->
  k = (u, c, pu_lecture_id update) ∨ k ∈ lp_keyof <$> rows.
Proof.
  induction rows as [|r rows IH]; cbn [update_one].
  - intros Hin. apply list_elem_of_singleton in Hin. left. exact Hin.
  - destruct (decide (lp_key u c (pu_lecture_id update) r)) as [Hk|Hk];
      rewrite !fmap_cons.
    + intros Hin. right. exact Hin.
    + intros Hin. apply elem_of_cons in Hin as [Heq|Hin].
      * right. rewrite Heq. left.
      * destruct (IH Hin) as [Heq|H']; [left; exact Heq|right; right; exact H'].
Qed.

(** X12. At most one row per (user, course, lecture): if the per-lecture
    collection has no two rows with the same triple before a request, it
    has none after it, whether the request succeeds or raises. *)
Theorem update_lecture_progress_unique (st : Store) (course_id : string)
    (update : ProgressUpdate) (user : User) (now : Z) :
  NoDup (lp_keyof <$> db_lectureprogress st) ->
  NoDup (lp_keyof <$>
         db_lectureprogress (fst (update_lecture_progress course_id update user now st))).
Proof.
  rewrite update_lecture_progress_rows.
  generalize (fresh_id st). intros i.
  induction (db_lectureprogress st) as [|r rows IH]; simpl.
  - intros _. apply NoDup_singleton.
  - intros [Hr Hrows]%NoDup_cons.
    destruct (decide (lp_key (user__id user) course_id (pu_lecture_id update) r))
      as [Hk|Hk]; simpl.
    + apply NoDup_cons. split; assumption.
    + apply NoDup_cons. split; [|apply IH, Hrows].
      intros Hin. apply update_one_keys in Hin as [Heq|Hin]; [|contradiction].
      apply Hk. unfold lp_keyof in Heq. injection Heq as H1 H2 H3.
      repeat split; assumption.
Qed.

Lemma update_lecture_progress_unique_witness :
  NoDup (lp_keyof <$> db_lectureprogress store_rows)
  ∧ lp_keyof <$> db_lectureprogress store_rows
    = [ (user__id alice, course_a, "lec1"); (carol_id, course_a, "lec1");
        (user__id alice, course_a, "lec2") ]
  ∧ NoDup (lp_keyof <$>
           db_lectureprogress
             (fst (update_lecture_progress course_a (mark "lec1" true) alice 5000
                     store_rows)))
  ∧ length (db_lectureprogress
              (fst (update_lecture_progress course_a (mark "lec1" true) alice 5000
                      store_rows))) = 3%nat.
Proof.
  assert (H0 : NoDup (lp_keyof <$> db_lectureprogress store_rows)).
  { apply (bool_decide_unpack _). vm_compute. reflexivity. }
  split; [exact H0|]. split; [reflexivity|]. split.
  - apply (update_lecture_progress_unique store_rows course_a (mark "lec1" true)
             alice 5000 H0).
  - vm_compute. reflexivity.
Defined.

Lemma update_one_others {A} (P : A -> Prop) `{!forall x, Decision (P x)}
    (upd : A -> A) (ins : A) (l : list A) :
  (forall x, P x -> P (upd x)) -> P ins ->
  filter (fun x => ¬ P x) (update_one P upd ins l) = filter (fun x => ¬ P x) l.
Proof.
  intros Hupd Hins. induction l as [|x l IH]; simpl.
  - rewrite filter_cons, decide_False by (intros Hn; apply Hn, Hins). reflexivity.
  - destruct (decide (P x)) as [Hx|Hx].
    + rewrite !filter_cons, !decide_False; [reflexivity| |];
        intros Hn; apply Hn; auto.
    + rewrite !filter_cons, !decide_True by assumption. f_equal. exact IH.
Qed.

Lemma update_one_found_length {A} (P : A -> Prop) `{!forall x, Decision (P x)}
    (upd : A -> A) (ins : A) (l : list A) (x : A) :
  find_one P l = Some x -> length (update_one P upd ins l) = length l.
Proof.
  induction l as [|y l IH]; [discriminate|]. rewrite find_one_cons. simpl.
  destruct (decide (P y)); [reflexivity|]. intros Hf. simpl. rewrite (IH Hf). reflexivity.
Qed.

(** X13. A request with [watched_seconds] in the range of the store's
    integers touches one row only, also when it goes on to raise 400 or
    404.  Every row of another user, course or lecture is left as it is,
    in the same order.  If the (user, course, lecture) had a row, the
    collection has as many rows as before and that row keeps its [_id]
    and [created_at] and takes the submitted [watched_seconds] and
    [completed]; if not, one row is appended, under that (user, course,
    lecture) and with the submitted values. *)
Theorem update_lecture_progress_one_row (st : Store) (course_id : string)
    (update : ProgressUpdate) (user : User) (now : Z) :
  int64 (pu_watched_seconds update) ->
  let key := lp_key (user__id user) course_id (pu_lecture_id update) in
  let rows := db_lectureprogress st in
  let rows' :=
    db_lectureprogress (fst (update_lecture_progress course_id update user now st)) in
  filter (fun r => ¬ key r) rows' = filter (fun r => ¬ key r) rows
  ∧ match find_one key rows with
    | Some r =>
        length rows' = length rows
        ∧ exists r',
            find_one key rows' = Some r'
            ∧ lp__id r' = lp__id r
            ∧ lp_created_at r' = lp_created_at r
            ∧ watched_seconds r' = pu_watched_seconds update
            ∧ completed r' = pu_completed update
    | None =>
        exists r',
          rows' = rows ++ [r']
          ∧ key r'
          ∧ watched_seconds r' = pu_watched_seconds update
          ∧ completed r' = pu_completed update
    end.
Proof.
  intros _ key rows rows'. subst rows'. rewrite update_lecture_progress_rows.
  fold key. fold rows. split.
  - apply update_one_others; [apply lp_set_key | apply lp_new_key].
  - destruct (find_one key rows) as [r|] eqn:Hf.
    + split.
      * apply (update_one_found_length key _ _ _ _ Hf).
      * eexists. split.
        { unfold key. rewrite find_one_update_one;
            [|apply lp_set_key|apply lp_new_key].
          fold key. rewrite Hf. reflexivity. }
        repeat split.
    + eexists. split; [apply update_one_absent, Hf|].
      split; [apply lp_new_key|]. split; reflexivity.
Qed.

Lemma update_lecture_progress_one_row_witness :
  int64 (pu_watched_seconds (mark "lec1" true))
  ∧ exists r r',
      find_one (lp_key (user__id alice) course_a "lec1") (db_lectureprogress store_rows)
      = Some r
      ∧ find_one (lp_key (user__id alice) course_a "lec1")
          (db_lectureprogress
             (fst (update_lecture_progress course_a (mark "lec1" true) alice 5000
                     store_rows)))
        = Some r'
      ∧ lp__id r' = lp__id r
      ∧ lp_created_at r' = lp_created_at r
      ∧ watched_seconds r = 120 ∧ completed r = false
      ∧ watched_seconds r' = 300 ∧ completed r' = true
      ∧ filter (fun x => ¬ lp_key (user__id alice) course_a "lec1" x)
          (db_lectureprogress
             (fst (update_lecture_progress course_a (mark "lec1" true) alice 5000
                     store_rows)))
        = filter (fun x => ¬ lp_key (user__id alice) course_a "lec1" x)
            (db_lectureprogress store_rows).
Proof.
  assert (Hw : int64 (pu_watched_seconds (mark "lec1" true))).
  { unfold int64, mark. cbn [pu_watched_seconds]. lia. }
  split; [exact Hw|].
  pose proof (update_lecture_progress_one_row store_rows course_a (mark "lec1" true)
                alice 5000 Hw) as Hrow.
  cbv zeta in Hrow. destruct Hrow as [Hothers Hrow].
  destruct (find_one (lp_key (user__id alice) course_a (pu_lecture_id (mark "lec1" true)))
              (db_lectureprogress store_rows)) as [r|] eqn:Hf; [|discriminate Hf].
  destruct Hrow as (_ & r' & Hf' & Hid & Hcreated & Hsec & Hdone).
  exists r, r'. split; [exact Hf|]. split; [exact Hf'|].
  split; [exact Hid|]. split; [exact Hcreated|].
  vm_compute in Hf. injection Hf as <-.
  split; [reflexivity|]. split; [reflexivity|].
  split; [exact Hsec|]. split; [exact Hdone|]. exact Hothers.
Defined.

(** What the driver refuses is refused here. *)
Lemma refused_oid_invalid (id_str : string) :
  refused_oid id_str -> valid_oid id_str = false.
Proof.
  unfold refused_oid, valid_oid. intros [Hlen|Hchars].
  - apply Nat.eqb_neq in Hlen. rewrite Hlen. reflexivity.
  - apply andb_false_iff. right.
    induction id_str as [|a s' IH]; [discriminate|].
    simpl in Hchars |- *. apply andb_false_iff in Hchars as [Ha|Hs'].
    + apply orb_false_iff in Ha as [-> _]. reflexivity.
    + rewrite (IH Hs'). apply andb_false_r.
Qed.

(** X14. A course id the driver refuses is found out only after the
    write: when [course_id] is not 24 characters long, or has a character
    that is neither a hexadecimal digit nor white space, and
    [watched_seconds] is in the range of the store's integers, the
    handler raises 400 "Invalid id", yet the per-lecture row has been
    upserted; the summary collection is as before. *)
Theorem update_progress_malformed_course (st : Store) (course_id : string)
    (update : ProgressUpdate) (user : User) (now : Z) :
  refused_oid course_id ->
  int64 (pu_watched_seconds update) ->
  exists st' row,
    update_lecture_progress course_id update user now st = (st', Err 400 "Invalid id")
    ∧ find_one (lp_key (user__id user) course_id (pu_lecture_id update))
        (db_lectureprogress st') = Some row
    ∧ watched_seconds row = pu_watched_seconds update
    ∧ completed row = pu_completed update
    ∧ db_courseprogress st' = db_courseprogress st.
Proof.
  intros Hoid%refused_oid_invalid _.
  unfold update_lecture_progress, upsert_lecture, find_course. unfold_monad.
  rewrite oid_invalid by assumption.
  do 2 eexists. split; [reflexivity|]. cbn [db_lectureprogress set_lectureprogress
                                            db_courseprogress].
  split; [apply find_one_update_one; [apply lp_set_key | apply lp_new_key]|].
  destruct (find_one _ (db_lectureprogress st)); repeat split.
Qed.

Lemma update_progress_malformed_course_witness :
  refused_oid "react-101"
  ∧ int64 (pu_watched_seconds (mark "lec1" true))
  ∧ exists st' row,
      update_lecture_progress "react-101" (mark "lec1" true) alice 5 store0
      = (st', Err 400 "Invalid id")
      ∧ find_one (lp_key (user__id alice) "react-101" "lec1")
          (db_lectureprogress st') = Some row
      ∧ watched_seconds row = 300
      ∧ completed row = true
      ∧ db_courseprogress st' = db_courseprogress store0.
Proof.
  assert (Hid : refused_oid "react-101") by (left; discriminate).
  assert (Hw : int64 (pu_watched_seconds (mark "lec1" true))).
  { unfold int64, mark. cbn [pu_watched_seconds]. lia. }
  split; [exact Hid|]. split; [exact Hw|].
  apply (update_progress_malformed_course store0 "react-101" (mark "lec1" true) alice 5
           Hid Hw).
Defined.

(** A request that returns normally had a well-formed id of a stored
    course. *)
Lemma update_lecture_progress_Ok_inv (st st' : Store) (course_id : string)
    (update : ProgressUpdate) (user : User) (now : Z) (resp : ProgressResponse) :
  update_lecture_progress course_id update user now st = (st', Ok resp) ->
  valid_oid course_id = true
  ∧ exists course,
      find_one (course_key (PyStr.lower course_id)) (db_course st) = Some course.
Proof.
  unfold update_lecture_progress, upsert_lecture, find_course, oid. unfold_monad.
  destruct (valid_oid course_id); [|discriminate].
  cbn [db_course set_lectureprogress].
  destruct (find_one (course_key (PyStr.lower course_id)) (db_course st)) as [course|];
    [|discriminate].
  intros _. split; [reflexivity|]. exists course. reflexivity.
Qed.

(** X15. What a request writes, the progress view reads back: right
    after [update_lecture_progress] has returned a percentage and a list
    of completed ids, [get_course_progress] for the same user and course
    returns a summary with that percentage and that list, and among the
    lecture rows the one just written, with the submitted values. *)
Theorem update_then_get_course_progress (st st' : Store) (course_id : string)
    (update : ProgressUpdate) (user : User) (now : Z) (resp : ProgressResponse) :
  update_lecture_progress course_id update user now st = (st', Ok resp) ->
  exists view row,
    get_course_progress course_id user st' = (st', Ok view)
    ∧ percentage (view_course_progress view) = pr_percentage resp
    ∧ completed_lecture_ids (view_course_progress view) = pr_completed resp
    ∧ row ∈ view_lectures view
    ∧ lp_lecture_id row = pu_lecture_id update
    ∧ watched_seconds row = pu_watched_seconds update
    ∧ completed row = pu_completed update.
Proof.
  intros Hrun.
  destruct (update_lecture_progress_Ok_inv _ _ _ _ _ _ _ Hrun) as (Hoid & course & Hc).
  destruct (update_lecture_progress_ok st course_id update user now course Hoid Hc)
    as (st1 & resp1 & row1 & Hrun1 & _ & Hrows & _ & _ & Hrow & Hri & Hrp).
  rewrite Hrun in Hrun1. injection Hrun1 as <- <-.
  set (key := lp_key (user__id user) course_id (pu_lecture_id update)).
  assert (Hf : find_one key (db_lectureprogress st')
               = Some (match find_one key (db_lectureprogress st) with
                       | Some x => lp_set update now x
                       | None => lp_new (fresh_id st) (user__id user) course_id update now
                       end)).
  { rewrite Hrows. apply find_one_update_one; [apply lp_set_key | apply lp_new_key]. }
  set (row := match find_one key (db_lectureprogress st) with
              | Some x => lp_set update now x
              | None => lp_new (fresh_id st) (user__id user) course_id update now
              end) in Hf.
  apply find_one_Some in Hf as [Hin (Hu & Hcid & Hl)].
  unfold get_course_progress, find. unfold_monad. rewrite Hrow.
  eexists. exists row. split; [reflexivity|]. cbn [view_course_progress view_lectures].
  split; [exact Hrp|]. split; [exact Hri|]. split.
  - apply list_elem_of_filter. split; [split; assumption|exact Hin].
  - split; [exact Hl|]. subst row.
    destruct (find_one key (db_lectureprogress st)); split; reflexivity.
Qed.

Lemma update_then_get_course_progress_witness :
  exists st' resp,
    update_lecture_progress course_a (mark "lec2" true) alice 5 store0 = (st', Ok resp)
    ∧ exists view row,
        get_course_progress course_a alice st' = (st', Ok view)
        ∧ percentage (view_course_progress view) = pr_percentage resp
        ∧ completed_lecture_ids (view_course_progress view) = pr_completed resp
        ∧ row ∈ view_lectures view
        ∧ lp_lecture_id row = "lec2"
        ∧ watched_seconds row = 300
        ∧ completed row = true.
Proof.
  do 2 eexists. split; [vm_compute; reflexivity|].
  eapply (update_then_get_course_progress store0 _ course_a (mark "lec2" true) alice 5).
  vm_compute. reflexivity.
Defined.

(** ** Quiz submissions *)

(** [submit_quiz] on a course and a quiz that resolve. *)
Lemma submit_quiz_found (st : Store) (sub : QuizSubmission) (user : User)
    (now uuid : Z) (course : Course) (quiz : Quiz) :
  valid_oid (sub_course_id sub) = true ->
  find_one (course_key (PyStr.lower (sub_course_id sub))) (db_course st) = Some course ->
  find_one (quiz_key (sub_quiz_id sub)) (quizzes course) = Some quiz ->
  let score := PyFloat.percent_of (count_correct (sub_answers sub) (questions quiz))
                                  (len_or_1 (questions quiz)) in
  let pass := PyFloat.ge_int score (default 70 (certificate_threshold course)) in
  let st1 := set_quizresult
               (db_quizresult st ++ [quizresult_of sub user now score pass (fresh_id st)])
               (next_id st + 1) st in
  submit_quiz sub user now uuid st
  = if pass
    then (set_certificate
            (db_certificate st ++ [certificate_of sub user now uuid score (fresh_id st1)])
            (next_id st + 1 + 1) st1,
          Ok {| qz_result_id := fresh_id st; qz_score := score; qz_passed := true;
                qz_certificate :=
                  Some {| cv_id := fresh_id st1;
                          cv_doc := certificate_of sub user now uuid score
                                                   (fresh_id st1) |} |})
    else (st1, Ok {| qz_result_id := fresh_id st; qz_score := score;
                     qz_passed := false; qz_certificate := None |}).
Proof.
  intros Hoid Hc Hq score pass st1.
  unfold submit_quiz, find_course, insert_quizresult, insert_certificate.
  unfold_monad. rewrite oid_valid by assumption. rewrite Hc, Hq.
  fold score. fold pass. clearbody score. destruct pass eqn:Hp; reflexivity.
Qed.

Lemma percent_of_zero (total : Z) : PyFloat.percent_of 0 total = 0%Q.
Proof. lazy. reflexivity. Qed.

Lemma count_correct_none (answers : gmap string pyval) (qs : list Question) :
  Forall (fun q => answer_counts answers q = false) qs ->
  count_correct answers qs = 0.
Proof.
  intros Hall. rewrite count_correct_filter.
  induction Hall as [|q qs Hq _ IH]; [reflexivity|].
  rewrite filter_cons, decide_False by (rewrite Hq; discriminate). exact IH.
Qed.

(** X16. Nothing right, nothing issued: when no question of the quiz has
    a counted answer (an empty answer mapping, or a quiz without
    questions) the score is 0.0; with a positive threshold the
    submission does not pass, no certificate is returned and the
    certificate collection is as before. *)
Theorem submit_quiz_nothing_right (st : Store) (sub : QuizSubmission) (user : User)
    (now uuid : Z) (course : Course) (quiz : Quiz) :
  valid_oid (sub_course_id sub) = true ->
  find_one (course_key (PyStr.lower (sub_course_id sub))) (db_course st) = Some course ->
  find_one (quiz_key (sub_quiz_id sub)) (quizzes course) = Some quiz ->
  Forall (fun q => answer_counts (sub_answers sub) q = false) (questions quiz) ->
  0 < default 70 (certificate_threshold course) ->
  exists st',
    submit_quiz sub user now uuid st
    = (st', Ok {| qz_result_id := fresh_id st; qz_score := 0%Q; qz_passed := false;
                  qz_certificate := None |})
    ∧ db_certificate st' = db_certificate st.
Proof.
  intros Hoid Hc Hq Hnone Hthr.
  rewrite (submit_quiz_found st sub user now uuid course quiz Hoid Hc Hq).
  rewrite (count_correct_none _ _ Hnone), percent_of_zero.
  assert (Hp : PyFloat.ge_int 0%Q (default 70 (certificate_threshold course)) = false).
  { unfold PyFloat.ge_int, Qle_bool. simpl. apply Z.leb_gt. lia. }
  rewrite Hp. eexists. split; reflexivity.
Qed.

Lemma submit_quiz_nothing_right_witness :
  let sub := {| sub_course_id := course_a; sub_quiz_id := "q1"; sub_answers := ∅ |} in
  Forall (fun q => answer_counts (sub_answers sub) q = false) (questions sample_quiz)
  ∧ exists st',
      submit_quiz sub alice 5 7 store0
      = (st', Ok {| qz_result_id := fresh_id store0; qz_score := 0%Q;
                    qz_passed := false; qz_certificate := None |})
      ∧ db_certificate st' = db_certificate store0.
Proof.
  intros sub.
  assert (Hnone : Forall (fun q => answer_counts (sub_answers sub) q = false)
                         (questions sample_quiz))
    by (repeat constructor).
  split; [exact Hnone|].
  apply (submit_quiz_nothing_right store0 sub alice 5 7 (sample_course course_a)
           sample_quiz); [reflexivity | reflexivity | reflexivity | exact Hnone | ].
  simpl. lia.
Defined.

(** X17. All or nothing on failure: whenever [submit_quiz] raises, the
    status is 400 or 404 and the store is the one it was given; no
    QuizResult row and no Certificate is left behind by a failed
    submission. *)
Theorem submit_quiz_failure_writes_nothing (st st' : Store) (sub : QuizSubmission)
    (user : User) (now uuid : Z) (c : Z) (d : string) :
  submit_quiz sub user now uuid st = (st', Err c d) ->
  st' = st ∧ (c = 400 ∨ c = 404).
Proof.
  destruct (valid_oid (sub_course_id sub)) eqn:Hoid.
  - destruct (find_one (course_key (PyStr.lower (sub_course_id sub))) (db_course st))
      as [course|] eqn:Hc.
    + destruct (find_one (quiz_key (sub_quiz_id sub)) (quizzes course)) as [quiz|] eqn:Hq.
      * rewrite (submit_quiz_found st sub user now uuid course quiz Hoid Hc Hq).
        destruct (PyFloat.ge_int _ _); discriminate.
      * unfold submit_quiz, find_course. unfold_monad.
        rewrite oid_valid by assumption. rewrite Hc, Hq.
        intros [= <- <- _]. split; [reflexivity|right; reflexivity].
    + unfold submit_quiz, find_course. unfold_monad.
      rewrite oid_valid by assumption. rewrite Hc.
      intros [= <- <- _]. split; [reflexivity|right; reflexivity].
  - unfold submit_quiz. unfold_monad. rewrite oid_invalid by assumption.
    intros [= <- <- _]. split; [reflexivity|left; reflexivity].
Qed.

Lemma submit_quiz_failure_writes_nothing_witness :
  submit_quiz {| sub_course_id := "react-101"; sub_quiz_id := "q1"; sub_answers := ∅ |}
              alice 5 7 store0 = (store0, Err 400 "Invalid id")
  ∧ store0 = store0 ∧ (400 = 400 ∨ 400 = 404).
Proof.
  split; [reflexivity|].
  apply (submit_quiz_failure_writes_nothing store0 store0
           {| sub_course_id := "react-101"; sub_quiz_id := "q1"; sub_answers := ∅ |}
           alice 5 7 400 "Invalid id").
  reflexivity.
Defined.

(** A submission that returns normally had a well-formed id of a stored
    course holding the quiz. *)
Lemma submit_quiz_Ok_inv (st st' : Store) (sub : QuizSubmission) (user : User)
    (now uuid : Z) (resp : QuizResponse) :
  submit_quiz sub user now uuid st = (st', Ok resp) ->
  valid_oid (sub_course_id sub) = true
  ∧ exists course quiz,
      find_one (course_key (PyStr.lower (sub_course_id sub))) (db_course st)
      = Some course
      ∧ find_one (quiz_key (sub_quiz_id sub)) (quizzes course) = Some quiz.
Proof.
  unfold submit_quiz, find_course, oid. unfold_monad.
  destruct (valid_oid (sub_course_id sub)); [|discriminate].
  destruct (find_one (course_key _) (db_course st)) as [course|]; [|discriminate].
  destruct (find_one (quiz_key _) (quizzes course)) as [quiz|] eqn:Hq; [|discriminate].
  intros _. split; [reflexivity|]. exists course, quiz. split; [reflexivity|exact Hq].
Qed.

(** X18. Certificates are not deduplicated: when a submission has passed,
    submitting the same answers again passes again with the same score
    and appends a second certificate for the same user, course and quiz;
    the two certificates differ only in [_id], code and dates. *)
Theorem submit_quiz_again_second_certificate (st st1 : Store) (sub : QuizSubmission)
    (user : User) (now uuid now2 uuid2 : Z) (r1 : QuizResponse) :
  submit_quiz sub user now uuid st = (st1, Ok r1) ->
  qz_passed r1 = true ->
  exists st2 r2 c1 c2,
    submit_quiz sub user now2 uuid2 st1 = (st2, Ok r2)
    ∧ qz_passed r2 = true
    ∧ qz_score r2 = qz_score r1
    ∧ db_certificate st2 = db_certificate st ++ [c1; c2]
    ∧ cv_doc <$> qz_certificate r1 = Some c1
    ∧ cv_doc <$> qz_certificate r2 = Some c2
    ∧ cert_user_id c1 = cert_user_id c2
    ∧ cert_course_id c1 = cert_course_id c2
    ∧ cert_quiz_id c1 = cert_quiz_id c2
    ∧ certificate_code c1 = certificate_code_of uuid
    ∧ certificate_code c2 = certificate_code_of uuid2.
Proof.
  intros Hrun Hpass.
  destruct (submit_quiz_Ok_inv _ _ _ _ _ _ _ Hrun) as (Hoid & course & quiz & Hc & Hq).
  pose proof (submit_quiz_found st sub user now uuid course quiz Hoid Hc Hq) as H1.
  cbv zeta in H1. rewrite Hrun in H1.
  remember (PyFloat.percent_of (count_correct (sub_answers sub) (questions quiz))
                               (len_or_1 (questions quiz))) as score eqn:Hs in *.
  destruct (PyFloat.ge_int score (default 70 (certificate_threshold course))) eqn:Hp.
  - injection H1 as -> ->.
    set (st1 := set_certificate _ _ _).
    assert (Hc1 : find_one (course_key (PyStr.lower (sub_course_id sub))) (db_course st1)
                  = Some course) by exact Hc.
    pose proof (submit_quiz_found st1 sub user now2 uuid2 course quiz Hoid Hc1 Hq) as H2.
    cbv zeta in H2. rewrite <- Hs, Hp in H2.
    do 4 eexists. split; [exact H2|].
    cbn [qz_passed qz_score qz_certificate].
    split; [reflexivity|]. split; [reflexivity|].
    split; [subst st1; cbn [db_certificate set_certificate set_quizresult];
            rewrite <- app_assoc; reflexivity|].
    repeat split.
  - injection H1 as _ ->. discriminate Hpass.
Qed.

Lemma submit_quiz_again_second_certificate_witness :
  exists st1 r1,
    submit_quiz passing_submission alice 5 7 store0 = (st1, Ok r1)
    ∧ qz_passed r1 = true
    ∧ exists st2 r2 c1 c2,
        submit_quiz passing_submission alice 6 8 st1 = (st2, Ok r2)
        ∧ qz_passed r2 = true
        ∧ qz_score r2 = qz_score r1
        ∧ db_certificate st2 = db_certificate store0 ++ [c1; c2]
        ∧ cv_doc <$> qz_certificate r1 = Some c1
        ∧ cv_doc <$> qz_certificate r2 = Some c2
        ∧ cert_user_id c1 = cert_user_id c2
        ∧ cert_course_id c1 = cert_course_id c2
        ∧ cert_quiz_id c1 = cert_quiz_id c2
        ∧ certificate_code c1 = certificate_code_of 7
        ∧ certificate_code c2 = certificate_code_of 8.
Proof.
  do 2 eexists. split; [vm_compute; reflexivity|]. split; [reflexivity|].
  eapply (submit_quiz_again_second_certificate store0 _ passing_submission alice 5 7 6 8).
  - vm_compute. reflexivity.
  - reflexivity.
Defined.

(** ** Floats that are integers *)

Lemma rne_div_exact (q d : Z) : 0 < d -> PyFloat.rne_div (q * d) d = q.
Proof.
  intros Hd. unfold PyFloat.rne_div.
  rewrite Z.div_mul, Z.mod_mul by lia. rewrite Z.mul_0_r.
  destruct (Z.ltb_spec 0 d); [reflexivity|lia].
Qed.

Lemma log2_mul_bounds (a c : Z) :
  0 < a -> 0 < c ->
  Z.log2 a + Z.log2 c <= Z.log2 (a * c) <= Z.log2 a + Z.log2 c + 1.
Proof.
  intros Ha Hc.
  pose proof (Z.log2_spec a Ha) as [Ha1 Ha2].
  pose proof (Z.log2_spec c Hc) as [Hc1 Hc2].
  pose proof (Z.log2_nonneg a). pose proof (Z.log2_nonneg c).
  split.
  - apply Z.log2_le_pow2; [nia|]. rewrite Z.pow_add_r by assumption. nia.
  - enough (Z.log2 (a * c) < Z.log2 a + Z.log2 c + 2) by lia.
    apply Z.log2_lt_pow2; [nia|].
    replace (Z.log2 a + Z.log2 c + 2) with (Z.succ (Z.log2 a) + Z.succ (Z.log2 c)) by lia.
    rewrite Z.pow_add_r by lia. nia.
Qed.

Lemma ilog2_ratio_scaled (a : Z) (c : positive) :
  0 < a -> PyFloat.ilog2_ratio (a * Zpos c) (Zpos c) = Z.log2 a.
Proof.
  intros Ha. unfold PyFloat.ilog2_ratio.
  pose proof (log2_mul_bounds a (Zpos c) Ha (Pos2Z.is_pos c)) as Hb.
  pose proof (Z.log2_spec a Ha) as [Ha1 Ha2].
  pose proof (Z.log2_nonneg a).
  destruct (Z.leb_spec 0 (Z.log2 (a * Zpos c) - Z.log2 (Zpos c))) as [Hk|Hk]; [|lia].
  assert (Hcases : Z.log2 (a * Zpos c) - Z.log2 (Zpos c) = Z.log2 a
                   ∨ Z.log2 (a * Zpos c) - Z.log2 (Zpos c) = Z.succ (Z.log2 a)) by lia.
  destruct Hcases as [->| ->].
  - destruct (Z.leb_spec (Zpos c * 2 ^ Z.log2 a) (a * Zpos c)); [reflexivity|nia].
  - destruct (Z.leb_spec (Zpos c * 2 ^ Z.succ (Z.log2 a)) (a * Zpos c)); [nia|lia].
Qed.

(** An integer below [2^53] is a float: rounding a fraction whose value
    is such an integer gives that integer. *)
Lemma binary64_integer (n a : Z) (c : positive) :
  n = a * Zpos c -> 0 < a < 2 ^ 53 ->
  PyFloat.binary64 (Qmake n c) = inject_Z a.
Proof.
  intros -> [Ha Hlt]. unfold PyFloat.binary64. cbn [Qnum Qden].
  destruct (Z.eqb_spec (a * Zpos c) 0) as [H0|_]; [nia|].
  rewrite Z.abs_eq by nia. rewrite ilog2_ratio_scaled by assumption.
  assert (Hl : 0 <= Z.log2 a <= 52).
  { split; [apply Z.log2_nonneg|].
    enough (Z.log2 a < 53) by lia. apply Z.log2_lt_pow2; assumption. }
  rewrite Z.max_l by lia.
  destruct (Z.ltb_spec (a * Zpos c) 0) as [Hneg|_]; [nia|].
  destruct (Z.leb_spec 0 (Z.log2 a - 52)) as [He|He].
  - replace (Z.log2 a - 52) with 0 by lia. rewrite Z.pow_0_r, !Z.mul_1_r.
    rewrite rne_div_exact by lia. reflexivity.
  - set (k := - (Z.log2 a - 52)). assert (Hk : 0 < k) by lia.
    replace (a * Zpos c * 2 ^ k) with (a * 2 ^ k * Zpos c) by lia.
    rewrite rne_div_exact by lia.
    assert (Hp : 0 < 2 ^ k) by (apply Z.pow_pos_nonneg; lia).
    rewrite <- (Qcanon.Qred_identity (inject_Z a)) by (simpl; apply Z.gcd_1_r).
    apply Qred_complete. unfold Qeq. simpl. rewrite Z2Pos.id by assumption. lia.
Qed.

Lemma percent_of_all (p : positive) :
  Zpos p * 100 < 2 ^ 53 -> PyFloat.percent_of (Zpos p) (Zpos p) = inject_Z 100.
Proof.
  intros Hsmall. unfold PyFloat.percent_of, PyFloat.of_int, PyFloat.fmul, PyFloat.fdiv.
  assert (Hp : 0 < Zpos p < 2 ^ 53) by (change (2 ^ 53) with 9007199254740992 in *; lia).
  assert (H1 : PyFloat.binary64 (inject_Z (Zpos p)) = inject_Z (Zpos p))
    by (apply binary64_integer; [lia|exact Hp]).
  rewrite H1.
  assert (H2 : PyFloat.binary64 (Qmult (inject_Z (Zpos p)) (inject_Z 100))
               = inject_Z (Zpos p * 100))
    by (apply binary64_integer; [cbn [Qmult Qnum Qden inject_Z]; lia|
        change (2 ^ 53) with 9007199254740992 in *; lia]).
  rewrite H2.
  assert (H3 : PyFloat.binary64 (Qdiv (inject_Z (Zpos p * 100)) (inject_Z (Zpos p)))
               = inject_Z 100).
  { apply (binary64_integer _ 100 p); [|split; reflexivity].
    cbn [Qdiv Qmult Qinv Qnum Qden inject_Z]. lia. }
  rewrite H3. vm_compute. reflexivity.
Qed.

Lemma count_correct_all (answers : gmap string pyval) (qs : list Question) :
  Forall (fun q => answer_counts answers q = true) qs ->
  count_correct answers qs = Z.of_nat (length qs).
Proof.
  intros Hall. rewrite count_correct_filter. f_equal. f_equal.
  induction Hall as [|q qs Hq _ IH]; [reflexivity|].
  rewrite filter_cons, decide_True by exact Hq. f_equal. exact IH.
Qed.

(** X19. All right: when every question of a non-empty quiz (of fewer
    than 2^46 questions) has a counted answer, the score is exactly
    100.0; with a threshold of at most 100 the submission passes and one
    certificate carrying that score is appended and returned. *)
Theorem submit_quiz_all_right (st : Store) (sub : QuizSubmission) (user : User)
    (now uuid : Z) (course : Course) (quiz : Quiz) :
  valid_oid (sub_course_id sub) = true ->
  find_one (course_key (PyStr.lower (sub_course_id sub))) (db_course st) = Some course ->
  find_one (quiz_key (sub_quiz_id sub)) (quizzes course) = Some quiz ->
  questions quiz ≠ [] ->
  Z.of_nat (length (questions quiz)) < 2 ^ 46 ->
  Forall (fun q => answer_counts (sub_answers sub) q = true) (questions quiz) ->
  default 70 (certificate_threshold course) <= 100 ->
  exists st' resp cert,
    submit_quiz sub user now uuid st = (st', Ok resp)
    ∧ qz_score resp = inject_Z 100
    ∧ qz_passed resp = true
    ∧ qz_certificate resp = Some cert
    ∧ cert_score_percent (cv_doc cert) = inject_Z 100
    ∧ db_certificate st' = db_certificate st ++ [cv_doc cert].
Proof.
  intros Hoid Hc Hq Hne Hsize Hall Hthr.
  rewrite (submit_quiz_found st sub user now uuid course quiz Hoid Hc Hq).
  rewrite (count_correct_all _ _ Hall). unfold len_or_1.
  destruct (questions quiz) as [|q0 qs] eqn:Hqs; [contradiction|].
  set (n := Z.of_nat (length (q0 :: qs))) in *.
  assert (Hn : 0 < n) by (subst n; simpl length; lia).
  destruct (Z.eqb_spec n 0) as [H0|_]; [lia|].
  destruct n as [|p|p]; try lia.
  rewrite percent_of_all by (change (2 ^ 46) with 70368744177664 in Hsize;
                             change (2 ^ 53) with 9007199254740992; lia).
  assert (Hp : PyFloat.ge_int (inject_Z 100) (default 70 (certificate_threshold course))
               = true).
  { unfold PyFloat.ge_int, Qle_bool. simpl. apply Z.leb_le. lia. }
  rewrite Hp. do 3 eexists. split; [reflexivity|]. repeat split.
Qed.

Lemma submit_quiz_all_right_witness :
  questions sample_quiz ≠ []
  ∧ Forall (fun q => answer_counts (sub_answers passing_submission) q = true)
           (questions sample_quiz)
  ∧ exists st' resp cert,
      submit_quiz passing_submission alice 5 7 store0 = (st', Ok resp)
      ∧ qz_score resp = inject_Z 100
      ∧ qz_passed resp = true
      ∧ qz_certificate resp = Some cert
      ∧ cert_score_percent (cv_doc cert) = inject_Z 100
      ∧ db_certificate st' = db_certificate store0 ++ [cv_doc cert].
Proof.
  assert (Hall : Forall (fun q => answer_counts (sub_answers passing_submission) q = true)
                        (questions sample_quiz))
    by (repeat constructor).
  split; [discriminate|]. split; [exact Hall|].
  apply (submit_quiz_all_right store0 passing_submission alice 5 7
           (sample_course course_a) sample_quiz);
    [reflexivity | reflexivity | reflexivity | discriminate | reflexivity
    | exact Hall | simpl; lia].
Defined.

(** ** Chatbot: log and references *)

(** X20. One exchange, one log row: when [chatbot] returns, the chat log
    has exactly one more row, holding the message as it was sent, the
    reply and the references returned, and the courses are untouched;
    when it raises, the error is 400 "Invalid id" and nothing was
    logged. *)
Theorem chatbot_logs_once (st : Store) (req : ChatRequest) (user : User) (now : Z) :
  (forall st' resp,
     chatbot req user now st = (st', Ok resp) ->
     exists row,
       db_chatlog st' = db_chatlog st ++ [row]
       ∧ log_user_id row = user__id user
       ∧ log_prompt row = chat_message req
       ∧ log_response row = reply resp
       ∧ log_refs row = references resp
       ∧ db_course st' = db_course st)
  ∧ (forall st' c d,
       chatbot req user now st = (st', Err c d) ->
       st' = st ∧ c = 400 ∧ d = "Invalid id").
Proof.
  unfold chatbot, insert_chatlog, find_course, oid. unfold_monad.
  destruct (chat_course_id req) as [cid|].
  - destruct (String.eqb cid EmptyString).
    + split; [intros st' resp [= <- <-]; eexists; repeat split|discriminate].
    + destruct (valid_oid cid).
      * destruct (find_one (course_key (PyStr.lower cid)) (db_course st)) as [c|];
          (split; [intros st' resp [= <- <-]; eexists; repeat split|discriminate]).
      * split; [discriminate|]. intros st' c d [= <- <- <-]. repeat split.
  - split; [intros st' resp [= <- <-]; eexists; repeat split|discriminate].
Qed.

(** X21. An unknown course is no error for the chatbot: with a
    well-formed course id that matches no course, or with an empty
    course id, it answers with the reply and no reference. *)
Theorem chatbot_unknown_course (st : Store) (req : ChatRequest) (user : User) (now : Z)
    (cid : string) :
  chat_course_id req = Some cid ->
  cid = EmptyString
  ∨ (valid_oid cid = true
     ∧ find_one (course_key (PyStr.lower cid)) (db_course st) = None) ->
  exists st',
    chatbot req user now st
    = (st', Ok {| reply := chat_reply (chat_message req); references := [] |}).
Proof.
  intros Hcid Hcase. unfold chatbot, insert_chatlog, find_course. unfold_monad.
  rewrite Hcid. destruct Hcase as [->|[Hoid Hnone]].
  - eexists. reflexivity.
  - destruct (String.eqb cid EmptyString); [eexists; reflexivity|].
    rewrite oid_valid by assumption. rewrite Hnone. eexists. reflexivity.
Qed.

Lemma chatbot_unknown_course_witness :
  let req := {| chat_course_id := Some course_b; chat_user_id := None;
                chat_message := "what is an effect?" |} in
  valid_oid course_b = true
  ∧ find_one (course_key (PyStr.lower course_b)) (db_course store0) = None
  ∧ exists st',
      chatbot req alice 5 store0
      = (st', Ok {| reply := chat_reply (chat_message req); references := [] |}).
Proof.
  intros req. split; [reflexivity|]. split; [reflexivity|].
  apply (chatbot_unknown_course store0 req alice 5 course_b);
    [reflexivity | right; split; reflexivity].
Defined.

Lemma lower_ascii_idem (a : ascii) :
  PyStr.lower_ascii (PyStr.lower_ascii a) = PyStr.lower_ascii a.
Proof. destruct a as [[] [] [] [] [] [] [] []]; reflexivity. Qed.

Lemma lower_upper_ascii (a : ascii) :
  PyStr.lower_ascii (PyStr.upper_ascii a) = PyStr.lower_ascii a.
Proof. destruct a as [[] [] [] [] [] [] [] []]; reflexivity. Qed.

Lemma lower_idem (s : string) : PyStr.lower (PyStr.lower s) = PyStr.lower s.
Proof.
  unfold PyStr.lower. induction s as [|a s IH]; cbn [PyStr.smap]; [reflexivity|].
  rewrite lower_ascii_idem. f_equal. exact IH.
Qed.

Lemma lower_upper (s : string) : PyStr.lower (PyStr.upper s) = PyStr.lower s.
Proof.
  unfold PyStr.lower, PyStr.upper.
  induction s as [|a s IH]; cbn [PyStr.smap]; [reflexivity|].
  rewrite lower_upper_ascii. f_equal. exact IH.
Qed.

Lemma expected_reply_lower (m1 m2 : string) :
  PyStr.lower m1 = PyStr.lower m2 -> expected_reply m1 = expected_reply m2.
Proof.
  intros Hl. unfold expected_reply.
  rewrite (list_filter_iff (rule_matches m1) (rule_matches m2)); [reflexivity|].
  intros rule. unfold rule_matches. rewrite Hl. reflexivity.
Qed.

(** X22. On ASCII text the reply does not depend on the case of the
    message: the message in upper case, or in lower case, gets the reply
    of the message itself. *)
Theorem chat_reply_ignores_case (message : string) :
  isascii message = true ->
  chat_reply (PyStr.upper message) = chat_reply message
  ∧ chat_reply (PyStr.lower message) = chat_reply message.
Proof.
  intros _. rewrite !chat_reply_expected. split; apply expected_reply_lower.
  - apply lower_upper.
  - apply lower_idem.
Qed.

Lemma chat_reply_ignores_case_witness :
  isascii "How do I keep State in React?" = true
  ∧ chat_reply "HOW DO I KEEP STATE IN REACT?" = chat_reply "How do I keep State in React?"
  ∧ chat_reply "how do i keep state in react?" = chat_reply "How do I keep State in React?"
  ∧ chat_reply "How do I keep State in React?"
    = "Remember: useState returns [value, setValue]. Update state immutably.".
Proof.
  assert (Ha : isascii "How do I keep State in React?" = true) by reflexivity.
  split; [exact Ha|].
  destruct (chat_reply_ignores_case "How do I keep State in React?" Ha) as [Hu Hl].
  split; [exact Hu|]. split; [exact Hl|]. vm_compute. reflexivity.
Defined.

(** ** Courses: seeding and lookup *)

Lemma lower_ascii_hex_lower (a : ascii) :
  PyStr.is_hex_lower a = true -> PyStr.lower_ascii a = a.
Proof.
  destruct a as [[] [] [] [] [] [] [] []]; vm_compute; intros H;
    first [reflexivity | discriminate H].
Qed.

Lemma lower_hex_of (w : nat) (z : Z) : PyStr.lower (PyStr.hex_of w z) = PyStr.hex_of w z.
Proof.
  pose proof (hex_of_lower w z) as H. revert H. generalize (PyStr.hex_of w z).
  unfold PyStr.lower. intros s. induction s as [|a s IH]; cbn [PyStr.smap PyStr.all_chars];
    [reflexivity|].
  intros [Ha Hs]%andb_true_iff. rewrite (lower_ascii_hex_lower a Ha), (IH Hs).
  reflexivity.
Qed.

(** The ids the store hands out are well-formed and in lower case. *)
Lemma fresh_id_valid (st : Store) :
  valid_oid (fresh_id st) = true ∧ PyStr.lower (fresh_id st) = fresh_id st.
Proof.
  unfold fresh_id, valid_oid. split; [|apply lower_hex_of].
  rewrite length_hex_of, Nat.eqb_refl. cbn [andb].
  apply (all_chars_impl PyStr.is_hex_lower); [|apply hex_of_lower].
  intros a Ha. unfold PyStr.is_hex. rewrite Ha. reflexivity.
Qed.

(** X23. The sample course is seeded once: [list_courses] always returns
    between 1 and 50 courses; it leaves a store that already has a course
    as it is; and called again on the store it leaves, it changes nothing
    and returns the same list. *)
Theorem list_courses_seeds_once (st : Store) :
  exists st1 items,
    list_courses st = (st1, Ok items)
    ∧ items ≠ []
    ∧ (length items <= 50)%nat
    ∧ (db_course st ≠ [] -> st1 = st)
    ∧ list_courses st1 = (st1, Ok items).
Proof.
  unfold list_courses, seed_course_if_empty. unfold_monad.
  destruct (db_course st) as [|c cs] eqn:Hcs.
  - simpl. do 2 eexists. split; [reflexivity|]. cbn [db_course set_course].
    split; [discriminate|]. split; [simpl; lia|]. split; [contradiction|].
    reflexivity.
  - assert (Hn : (Z.of_nat (length (c :: cs)) =? 0) = false)
      by (apply Z.eqb_neq; simpl length; lia).
    rewrite Hn. cbv beta iota. exists st, (firstn 50 (c :: cs)).
    rewrite !Hcs, Hn. cbv beta iota. rewrite ?Hcs.
    split; [reflexivity|]. split; [discriminate|].
    split; [rewrite length_firstn; lia|]. split; reflexivity.
Qed.

(** X24. The seeded course can be fetched by the id it is listed under:
    on a store with no course, [list_courses] returns the sample course
    alone, and [get_course] with that course's id then returns it. *)
Theorem seeded_course_is_served (st : Store) :
  db_course st = [] ->
  exists st1 c,
    list_courses st = (st1, Ok [c])
    ∧ playlist c = sample_playlist
    ∧ quizzes c = [sample_quiz]
    ∧ get_course (course__id c) st1 = (st1, Ok c).
Proof.
  intros Hempty. unfold list_courses, seed_course_if_empty. unfold_monad.
  rewrite Hempty. simpl. do 2 eexists. split; [reflexivity|].
  split; [reflexivity|]. split; [reflexivity|].
  destruct (fresh_id_valid st) as [Hv Hl].
  unfold get_course, find_course. unfold_monad. cbn [course__id sample_course].
  rewrite oid_valid by exact Hv. rewrite Hl. cbn [db_course set_course].
  rewrite find_one_cons, decide_True by reflexivity. reflexivity.
Qed.

Lemma seeded_course_is_served_witness :
  db_course store_no_course = []
  ∧ exists st1 c,
      list_courses store_no_course = (st1, Ok [c])
      ∧ playlist c = sample_playlist
      ∧ quizzes c = [sample_quiz]
      ∧ get_course (course__id c) st1 = (st1, Ok c).
Proof.
  split; [reflexivity|]. apply (seeded_course_is_served store_no_course). reflexivity.
Defined.

(** ** Discussions and messages *)

#[local] Instance older_first_total : Total older_first.
Proof. intros a b. unfold older_first. lia. Qed.

#[local] Instance older_first_trans : Transitive older_first.
Proof. intros a b c. unfold older_first. lia. Qed.

#[local] Instance newer_first_total : Total newer_first.
Proof. intros a b. unfold newer_first. lia. Qed.

#[local] Instance newer_first_trans : Transitive newer_first.
Proof. intros a b c. unfold newer_first. lia. Qed.

(** X25. [list_messages] returns the messages of the discussion and only
    those, each as often as it is stored, oldest first. *)
Theorem list_messages_sorted (discussion_id : string) (f : Forum) :
  StronglySorted older_first (list_messages discussion_id f)
  ∧ list_messages discussion_id f
    ≡ₚ filter (msg_discussion_key discussion_id) (db_message f)
  ∧ forall m, m ∈ list_messages discussion_id f
              <-> m ∈ db_message f ∧ msg_discussion_id m = discussion_id.
Proof.
  unfold list_messages, find. split; [apply StronglySorted_merge_sort; apply _|].
  split; [apply merge_sort_Permutation|].
  intros m. rewrite merge_sort_Permutation, list_elem_of_filter.
  unfold msg_discussion_key. tauto.
Qed.

(** X26. A message needs no discussion: [create_message] succeeds for
    any [discussion_id], creates no discussion, and the message it
    returns is then listed by [list_messages] under that id, which lists
    one message more than before; the lists of other ids are as
    before. *)
Theorem create_message_listed (discussion_id : string) (req : MessageCreate)
    (user : User) (now : Z) (f : Forum) :
  let f' := fst (create_message discussion_id req user now f) in
  let m := snd (snd (create_message discussion_id req user now f)) in
  db_discussion f' = db_discussion f
  ∧ msg__id m = fst (snd (create_message discussion_id req user now f))
  ∧ msg_content m = mc_content req
  ∧ msg_user_id m = user__id user
  ∧ m ∈ list_messages discussion_id f'
  ∧ list_messages discussion_id f' ≡ₚ m :: list_messages discussion_id f
  ∧ forall other, other ≠ discussion_id ->
                  list_messages other f' = list_messages other f.
Proof.
  intros f' m. subst f' m. unfold create_message, list_messages, find.
  cbn [fst snd db_discussion db_message msg__id msg_content msg_user_id].
  split; [reflexivity|]. split; [reflexivity|]. split; [reflexivity|].
  split; [reflexivity|].
  assert (Hp : merge_sort older_first
                 (filter (msg_discussion_key discussion_id)
                    (db_message f ++
                     [ {| msg__id := forum_fresh_id f; msg_discussion_id := discussion_id;
                          msg_user_id := user__id user; msg_content := mc_content req;
                          msg_created_at := now |} ]))
               ≡ₚ {| msg__id := forum_fresh_id f; msg_discussion_id := discussion_id;
                     msg_user_id := user__id user; msg_content := mc_content req;
                     msg_created_at := now |}
                  :: merge_sort older_first
                       (filter (msg_discussion_key discussion_id) (db_message f))).
  { rewrite !merge_sort_Permutation, filter_app, filter_cons, filter_nil.
    rewrite decide_True by reflexivity. rewrite Permutation_app_comm. reflexivity. }
  split; [rewrite Hp; left|]. split; [exact Hp|].
  intros other Hne. rewrite filter_app, filter_cons, filter_nil.
  rewrite decide_False by (unfold msg_discussion_key; simpl; congruence).
  rewrite app_nil_r. reflexivity.
Qed.

Lemma firstn_StronglySorted {A} (R : relation A) (n : nat) (l : list A) :
  StronglySorted R l -> StronglySorted R (firstn n l).
Proof.
  intros Hs. rewrite <- (take_drop n l) in Hs.
  apply StronglySorted_app_1_l in Hs. exact Hs.
Qed.

(** X27. [list_discussions] returns at most 50 stored discussions, newest
    first; with a non-empty course id every one of them belongs to that
    course; an empty course id filters nothing, like no course id. *)
Theorem list_discussions_page (course_id : option string) (f : Forum) :
  (length (list_discussions course_id f) <= 50)%nat
  ∧ StronglySorted newer_first (list_discussions course_id f)
  ∧ (forall d, d ∈ list_discussions course_id f ->
       d ∈ db_discussion f
       ∧ forall c, course_id = Some c -> c ≠ EmptyString -> disc_course_id d = c)
  ∧ list_discussions (Some EmptyString) f = list_discussions None f.
Proof.
  unfold list_discussions, find. split; [rewrite length_firstn; lia|].
  split; [apply firstn_StronglySorted, StronglySorted_merge_sort; apply _|].
  split; [|reflexivity].
  intros d Hd. apply subseteq_take in Hd. rewrite merge_sort_Permutation in Hd.
  destruct course_id as [c|].
  - destruct (String.eqb_spec c EmptyString) as [->|Hne].
    + split; [exact Hd|]. intros c [= <-] Hc. contradiction.
    + apply list_elem_of_filter in Hd as [Hk Hin]. split; [exact Hin|].
      intros c' [= <-] _. exact Hk.
  - split; [exact Hd|]. intros c Hc. discriminate.
Qed.

Example list_messages_forum0 :
  msg_content <$> list_messages "d1" forum0 = ["first"; "second"].
Proof. vm_compute. reflexivity. Qed.

(** X28. A new discussion is listed while the page is not full: with
    fewer than 50 discussions stored, the discussion [create_discussion]
    returns appears in the unfiltered list and, when its course id is not
    empty, in the list of its course; its [id] is the [_id] it is stored
    under. *)
Theorem create_discussion_listed (req : DiscussionCreate) (user : User) (now : Z)
    (f : Forum) :
  (length (db_discussion f) < 50)%nat ->
  let f' := fst (create_discussion req user now f) in
  let d := snd (snd (create_discussion req user now f)) in
  disc__id d = fst (snd (create_discussion req user now f))
  ∧ d ∈ db_discussion f'
  ∧ d ∈ list_discussions None f'
  ∧ (dc_course_id req ≠ EmptyString ->
     d ∈ list_discussions (Some (dc_course_id req)) f').
Proof.
  intros Hlen f' d. subst f' d. unfold create_discussion, list_discussions, find.
  cbn [fst snd db_discussion disc__id].
  set (d := {| disc__id := forum_fresh_id f; disc_course_id := dc_course_id req;
               disc_user_id := user__id user; disc_title := dc_title req;
               disc_content := dc_content req; disc_tags := dc_tags req;
               disc_created_at := now; disc_updated_at := now |}).
  split; [reflexivity|].
  split; [apply elem_of_app; right; left|]. split.
  - rewrite firstn_all2
      by (rewrite (Permutation_length (merge_sort_Permutation _ _)), length_app;
          simpl; lia).
    rewrite merge_sort_Permutation. apply elem_of_app. right. left.
  - intros Hne. destruct (String.eqb_spec (dc_course_id req) EmptyString) as [He|_];
      [contradiction|].
    rewrite firstn_all2.
    + rewrite merge_sort_Permutation. apply list_elem_of_filter.
      split; [reflexivity|]. apply elem_of_app. right. left.
    + rewrite (Permutation_length (merge_sort_Permutation _ _)).
      etransitivity; [apply length_filter|]. rewrite length_app. simpl. lia.
Qed.

Lemma create_discussion_listed_witness :
  let req := {| dc_course_id := course_a; dc_title := "Hooks"; dc_content := "Why?";
                dc_tags := ["react"] |} in
  (length (db_discussion forum0) < 50)%nat
  ∧ disc__id (snd (snd (create_discussion req alice 5 forum0)))
    = fst (snd (create_discussion req alice 5 forum0))
  ∧ snd (snd (create_discussion req alice 5 forum0))
    ∈ db_discussion (fst (create_discussion req alice 5 forum0))
  ∧ snd (snd (create_discussion req alice 5 forum0))
    ∈ list_discussions None (fst (create_discussion req alice 5 forum0))
  ∧ (dc_course_id req ≠ EmptyString ->
     snd (snd (create_discussion req alice 5 forum0))
     ∈ list_discussions (Some (dc_course_id req))
         (fst (create_discussion req alice 5 forum0))).
Proof.
  intros req. split; [simpl; lia|].
  apply (create_discussion_listed req alice 5 forum0). simpl. lia.
Defined.
